(** * Knowledge-base manager: context assembly, ingestion and analysis turns

    A shallow embedding of the TypeScript sources
    [src/services/geminiService.ts] and [src/App.tsx] (with the earlier
    variant of the drop handler found in [src/unnamed/part_000]), and the
    properties of the specification proved or refuted on it.

    JavaScript strings are sequences of UTF-16 code units: [length],
    [slice], [endsWith] and friends count code units, so a string is a
    [list N] here and literals are decoded from their UTF-8 spelling.
    Numbers that the code computes with are lengths and differences of
    lengths, far below 2^53, so they are exact integers ([Z]). *)

From Stdlib Require Import List ZArith NArith Lia Bool String Ascii.
Import ListNotations.
Local Open Scope Z_scope.

(* ================================================================== *)
(** ** JavaScript values and the platform functions the code calls     *)
(* ================================================================== *)

Module Js.

Definition jsstring := list N.

(** What a [throw] carries: an [Error] object with its [message], or any
    other value ([error instanceof Error] is false for it). *)
Inductive exn : Type :=
| JsError (message : jsstring)
| NonError.

(** Outcome of an expression that may throw. *)
Inductive result (A : Type) : Type :=
| Ok (a : A)
| Throw (e : exn).
Arguments Ok {A} a.
Arguments Throw {A} e.

Definition strlen (s : jsstring) : Z := Z.of_nat (List.length s).

Fixpoint eqb (s t : jsstring) : bool :=
  match s, t with
  | [], [] => true
  | c :: s', d :: t' => (c =? d)%N && eqb s' t'
  | _, _ => false
  end.

(** A string in a boolean position: only the empty string is falsy. *)
Definition truthy (s : jsstring) : bool :=
  match s with [] => false | _ :: _ => true end.

(** [a || b] on an optional string ([undefined] and [""] are falsy). *)
Definition or_else (a : option jsstring) (b : jsstring) : jsstring :=
  match a with
  | Some s => if truthy s then s else b
  | None => b
  end.

(** *** UTF-8 decoding (WHATWG Encoding, replacement mode) *)

Record utf8_state : Type := {
  u_code_point : N;
  u_needed : N;
  u_seen : N;
  u_lower : N;
  u_upper : N
}.

Definition utf8_init : utf8_state :=
  {| u_code_point := 0; u_needed := 0; u_seen := 0;
     u_lower := 128; u_upper := 191 |}.

Definition REPLACEMENT : N := 65533.

Definition in_range (lo hi b : N) : bool := ((lo <=? b) && (b <=? hi))%N.

(** A byte read when no sequence is in progress. *)
Definition utf8_lead (b : N) : utf8_state * list N :=
  if (b <=? 127)%N then (utf8_init, [b])
  else if in_range 194 223 b then
    ({| u_code_point := N.land b 31; u_needed := 1; u_seen := 0;
        u_lower := 128; u_upper := 191 |}, [])
  else if in_range 224 239 b then
    ({| u_code_point := N.land b 15; u_needed := 2; u_seen := 0;
        u_lower := if (b =? 224)%N then 160 else 128;
        u_upper := if (b =? 237)%N then 159 else 191 |}, [])
  else if in_range 240 244 b then
    ({| u_code_point := N.land b 7; u_needed := 3; u_seen := 0;
        u_lower := if (b =? 240)%N then 144 else 128;
        u_upper := if (b =? 244)%N then 143 else 191 |}, [])
  else (utf8_init, [REPLACEMENT]).

(** One byte of input: the new state and the code points emitted.  A
    byte outside the expected range ends the sequence with U+FFFD and is
    read again as a lead byte. *)
Definition utf8_step (st : utf8_state) (b : N) : utf8_state * list N :=
  if (u_needed st =? 0)%N then utf8_lead b
  else if negb (in_range (u_lower st) (u_upper st) b) then
    let '(st', out) := utf8_lead b in (st', REPLACEMENT :: out)
  else
    let cp := N.lor (N.shiftl (u_code_point st) 6) (N.land b 63) in
    if (u_seen st + 1 =? u_needed st)%N then (utf8_init, [cp])
    else ({| u_code_point := cp; u_needed := u_needed st;
             u_seen := u_seen st + 1; u_lower := 128; u_upper := 191 |}, []).

Fixpoint utf8_run (st : utf8_state) (bytes : list N) : list N :=
  match bytes with
  | [] => if (u_needed st =? 0)%N then [] else [REPLACEMENT]
  | b :: rest =>
      let '(st', out) := utf8_step st b in out ++ utf8_run st' rest
  end.

(** A code point as one or two UTF-16 code units. *)
Definition utf16_units (cp : N) : list N :=
  if (cp <? 65536)%N then [cp]
  else let c := (cp - 65536)%N in
       [(55296 + N.shiftr c 10)%N; (56320 + N.land c 1023)%N].

Definition utf8_to_utf16 (bytes : list N) : jsstring :=
  flat_map utf16_units (utf8_run utf8_init bytes).

(** [new TextDecoder('utf-8').decode(bytes)]: not fatal, so malformed
    input yields U+FFFD, and a leading byte order mark is dropped. *)
Definition TextDecoder_utf8 (bytes : list N) : jsstring :=
  match bytes with
  | 239%N :: 187%N :: 191%N :: rest => utf8_to_utf16 rest
  | _ => utf8_to_utf16 bytes
  end.

(** A source literal, written in UTF-8 in this file. *)
Definition lit (s : string) : jsstring :=
  utf8_to_utf16 (map N_of_ascii (list_ascii_of_string s)).

Definition NL : jsstring := [10%N].

(** *** String methods *)

(** Index normalisation shared by [String.prototype.slice] and
    [Array.prototype.slice]: negative indices count from the end. *)
Definition rel_index (len i : Z) : Z :=
  if i <? 0 then Z.max (len + i) 0 else Z.min i len.

Definition slice {A : Type} (start stop : Z) (l : list A) : list A :=
  let len := Z.of_nat (List.length l) in
  let k := rel_index len start in
  let e := rel_index len stop in
  firstn (Z.to_nat (e - k)) (skipn (Z.to_nat k) l).

(** [l.slice(start)] *)
Definition slice_from {A : Type} (start : Z) (l : list A) : list A :=
  slice start (Z.of_nat (List.length l)) l.

(** [toLowerCase] on the code units A-Z.  No code point outside that
    range lowercases to one of the ASCII characters the suffix tests of
    this program look for, so the other code units are left as they are. *)
Definition toLowerCase (s : jsstring) : jsstring :=
  map (fun c => if in_range 65 90 c then (c + 32)%N else c) s.

Definition endsWith (s suffix : jsstring) : bool :=
  (List.length suffix <=? List.length s)%nat
  && eqb (skipn (List.length s - List.length suffix) s) suffix.

(** White space and line terminators removed by [trim]. *)
Definition is_white_space (c : N) : bool :=
  in_range 9 13 c || (c =? 32)%N || (c =? 160)%N || (c =? 5760)%N
  || in_range 8192 8202 c || (c =? 8232)%N || (c =? 8233)%N
  || (c =? 8239)%N || (c =? 8287)%N || (c =? 12288)%N || (c =? 65279)%N.

Fixpoint trimStart (s : jsstring) : jsstring :=
  match s with
  | [] => []
  | c :: r => if is_white_space c then trimStart r else s
  end.

Definition trimEnd (s : jsstring) : jsstring := rev (trimStart (rev s)).

Definition trim (s : jsstring) : jsstring := trimEnd (trimStart s).

(** [s.split(sep)] for a separator of one code unit. *)
Fixpoint split (sep : N) (s : jsstring) : list jsstring :=
  match s with
  | [] => [[]]
  | c :: r =>
      if (c =? sep)%N then [] :: split sep r
      else match split sep r with
           | p :: ps => (c :: p) :: ps
           | [] => [[c]]
           end
  end.

Fixpoint join (sep : jsstring) (parts : list jsstring) : jsstring :=
  match parts with
  | [] => []
  | [p] => p
  | p :: rest => p ++ sep ++ join sep rest
  end.

(** [l.map((x, idx) => f(x, idx))], the index starting at [i]. *)
Fixpoint mapi_from {A B : Type} (f : A -> nat -> B) (i : nat) (l : list A)
  : list B :=
  match l with
  | [] => []
  | x :: r => f x i :: mapi_from f (S i) r
  end.

Definition mapi {A B : Type} (f : A -> nat -> B) (l : list A) : list B :=
  mapi_from f 0%nat l.

(** Decimal rendering of an index inside a template literal. *)
Fixpoint digits (u : Decimal.uint) : jsstring :=
  match u with
  | Decimal.Nil => []
  | Decimal.D0 r => 48%N :: digits r
  | Decimal.D1 r => 49%N :: digits r
  | Decimal.D2 r => 50%N :: digits r
  | Decimal.D3 r => 51%N :: digits r
  | Decimal.D4 r => 52%N :: digits r
  | Decimal.D5 r => 53%N :: digits r
  | Decimal.D6 r => 54%N :: digits r
  | Decimal.D7 r => 55%N :: digits r
  | Decimal.D8 r => 56%N :: digits r
  | Decimal.D9 r => 57%N :: digits r
  end.

Definition of_nat (n : nat) : jsstring := digits (Nat.to_uint n).

(** *** [atob]: forgiving base64 decoding (WHATWG Infra) *)

Definition is_ascii_whitespace (c : N) : bool :=
  (c =? 9)%N || (c =? 10)%N || (c =? 12)%N || (c =? 13)%N || (c =? 32)%N.

Definition not_ascii_whitespace (c : N) : bool :=
  negb (is_ascii_whitespace c).

Definition base64_value (c : N) : option N :=
  if in_range 65 90 c then Some (c - 65)%N
  else if in_range 97 122 c then Some (c - 71)%N
  else if in_range 48 57 c then Some (c + 4)%N
  else if (c =? 43)%N then Some 62%N
  else if (c =? 47)%N then Some 63%N
  else None.

Fixpoint base64_values (s : jsstring) : option (list N) :=
  match s with
  | [] => Some []
  | c :: r =>
      match base64_value c, base64_values r with
      | Some v, Some vs => Some (v :: vs)
      | _, _ => None
      end
  end.

(** Groups of four sextets give three bytes; a tail of three gives two
    bytes and a tail of two gives one, the spare bits being dropped. *)
Fixpoint sextets_to_bytes (v : list N) : list N :=
  match v with
  | a :: b :: c :: d :: r =>
      (a * 4 + b / 16)%N :: ((b mod 16) * 16 + c / 4)%N
        :: ((c mod 4) * 64 + d)%N :: sextets_to_bytes r
  | [a; b; c] => [(a * 4 + b / 16)%N; ((b mod 16) * 16 + c / 4)%N]
  | [a; b] => [(a * 4 + b / 16)%N]
  | _ => []
  end.

(** One or two [=] at the very end are removed (when the length is a
    multiple of 4). *)
Fixpoint strip_padding (s : jsstring) : jsstring :=
  match s with
  | [] => []
  | c :: r =>
      if (c =? 61)%N
         && match r with
            | [] => true
            | [d] => (d =? 61)%N
            | _ => false
            end
      then []
      else c :: strip_padding r
  end.

Definition InvalidCharacterError : exn :=
  JsError (lit "InvalidCharacterError").

(** [atob(data)]: the decoded bytes as a string of code units below 256,
    or an [InvalidCharacterError] exception. *)
Definition atob (data : jsstring) : result jsstring :=
  let d := filter not_ascii_whitespace data in
  let d := if (List.length d mod 4 =? 0)%nat then strip_padding d else d in
  if (List.length d mod 4 =? 1)%nat then Throw InvalidCharacterError
  else match base64_values d with
       | None => Throw InvalidCharacterError
       | Some v => Ok (sextets_to_bytes v)
       end.

(** *** Base64 encoding, as [FileReader.readAsDataURL] produces it *)

Definition base64_char (v : N) : N :=
  if (v <? 26)%N then (v + 65)%N
  else if (v <? 52)%N then (v + 71)%N
  else if (v <? 62)%N then (v - 4)%N
  else if (v =? 62)%N then 43%N
  else 47%N.

Fixpoint base64_encode (bytes : list N) : jsstring :=
  match bytes with
  | a :: b :: c :: r =>
      base64_char (a / 4) :: base64_char ((a mod 4) * 16 + b / 16)
        :: base64_char ((b mod 16) * 4 + c / 64) :: base64_char (c mod 64)
        :: base64_encode r
  | [a; b] =>
      [ base64_char (a / 4); base64_char ((a mod 4) * 16 + b / 16);
        base64_char ((b mod 16) * 4); 61%N ]
  | [a] => [ base64_char (a / 4); base64_char ((a mod 4) * 16); 61%N; 61%N ]
  | [] => []
  end.

(** The data URL of a file of the given MIME type and bytes. *)
Definition readAsDataURL (mimeType : jsstring) (bytes : list N) : jsstring :=
  lit "data:" ++ mimeType ++ lit ";base64," ++ base64_encode bytes.

(** An argument converted to a string by the platform: [undefined]
    becomes the text "undefined". *)
Definition to_DOMString (o : option jsstring) : jsstring :=
  match o with
  | Some s => s
  | None => lit "undefined"
  end.

(** [bytes[i] = binaryString.charCodeAt(i)] on a [Uint8Array]. *)
Definition to_Uint8Array (binaryString : jsstring) : list N :=
  map (fun c => (c mod 256)%N) binaryString.

End Js.

Import Js.

(* ================================================================== *)
(** ** Data model ([types.ts])                                         *)
(* ================================================================== *)

Inductive SourceType : Type := PDF | CSV | WEB | TEXT.

Inductive ProcessingStatus : Type := PENDING | PROCESSING | COMPLETED | ERROR.

Module Partition.
Record t : Type := {
  id : jsstring;
  name : jsstring;
  description : option jsstring;
  isSystem : option bool
}.
End Partition.

Module KnowledgeSource.
Record t : Type := {
  id : jsstring;
  partitionId : jsstring;
  sequenceNumber : Z;
  name : jsstring;
  type : SourceType;
  content : jsstring;
  url : option jsstring;
  dateAdded : Z;
  size : option jsstring;
  status : ProcessingStatus;
  summary : option jsstring
}.

(** [{ ...s, partitionId: p }] *)
Definition with_partitionId (s : t) (p : jsstring) : t :=
  {| id := id s; partitionId := p; sequenceNumber := sequenceNumber s;
     name := name s; type := type s; content := content s; url := url s;
     dateAdded := dateAdded s; size := size s; status := status s;
     summary := summary s |}.

(** [{ ...s, content: text, summary: summary, status: st }] *)
Definition with_result (s : t) (text sum : jsstring) (st : ProcessingStatus)
  : t :=
  {| id := id s; partitionId := partitionId s;
     sequenceNumber := sequenceNumber s; name := name s; type := type s;
     content := text; url := url s; dateAdded := dateAdded s;
     size := size s; status := st; summary := Some sum |}.

(** [{ ...s, summary: summary, status: st }] *)
Definition with_failure (s : t) (sum : jsstring) (st : ProcessingStatus)
  : t :=
  {| id := id s; partitionId := partitionId s;
     sequenceNumber := sequenceNumber s; name := name s; type := type s;
     content := content s; url := url s; dateAdded := dateAdded s;
     size := size s; status := st; summary := Some sum |}.
End KnowledgeSource.

Inductive Role : Type := user | model.

Module ChatMessage.
Record t : Type := {
  id : Z;          (* the number whose decimal spelling is the id *)
  role : Role;
  text : jsstring;
  timestamp : Z;
  isThinking : option bool
}.
End ChatMessage.

(* ================================================================== *)
(** ** The remote model service and the calls made to it               *)
(* ================================================================== *)

Inductive Part : Type :=
| inlineData (data : option jsstring) (mimeType : jsstring)
| textPart (text : jsstring).

Inductive Contents : Type :=
| Prompt (text : jsstring)
| Parts (parts : list Part).

Inductive Config : Type :=
| SummarySchema                       (* JSON object with a required string field "summary" *)
| Sampling (temperature thinkingBudget : Z).

Record Request : Type := {
  model_name : jsstring;
  contents : Contents;
  config : Config
}.

(** Everything outside the program that its functions depend on.  A
    [Throw] stands for a raised exception or a rejected promise. *)
Record Env : Type := {
  (** [new GoogleGenAI({ apiKey })] *)
  newGoogleGenAI : result unit;
  (** [await ai.models.generateContent(req)], giving [response.text] *)
  generateContent : Request -> result (option jsstring);
  (** [JSON.parse(t).summary]: throws on malformed text and on [null],
      [None] when the parsed value has no such field *)
  JSON_parse_summary : jsstring -> result (option jsstring);
  (** [new TextDecoder('utf-8').decode(bytes)] *)
  TextDecoder_decode : list N -> result jsstring
}.

(** Computations that may throw and that record the requests sent. *)
Definition M (A : Type) : Type := (result A * list Request)%type.

Definition ret {A : Type} (a : A) : M A := (Ok a, []).

Definition bind {A B : Type} (m : M A) (k : A -> M B) : M B :=
  match m with
  | (Ok a, sent) => let '(r, sent') := k a in (r, sent ++ sent')
  | (Throw e, sent) => (Throw e, sent)
  end.

Definition lift {A : Type} (r : result A) : M A := (r, []).

Definition try_catch {A : Type} (body : M A) (handler : exn -> M A) : M A :=
  match body with
  | (Ok a, sent) => (Ok a, sent)
  | (Throw e, sent) => let '(r, sent') := handler e in (r, sent ++ sent')
  end.

Definition call (env : Env) (req : Request) : M (option jsstring) :=
  (generateContent env req, [req]).

Notation "x <- m ;; k" := (bind m (fun x => k))
  (at level 61, m at next level, right associativity).

(* ================================================================== *)
(** ** [services/geminiService.ts]                                     *)
(* ================================================================== *)

Module GeminiService.

Definition MAX_TOTAL_CHARS : Z := 1400000.

(** try: [atob], copy into a byte array, decode as UTF-8;
    catch: [return atob(base64)]. *)
Definition safeBase64ToText (env : Env) (base64 : option jsstring)
  : result jsstring :=
  let attempt :=
    match atob (to_DOMString base64) with
    | Throw e => Throw e
    | Ok binaryString => TextDecoder_decode env (to_Uint8Array binaryString)
    end in
  match attempt with
  | Ok text => Ok text
  | Throw _ => atob (to_DOMString base64)
  end.

Definition SUMMARY_INSTRUCTION : jsstring :=
  join NL
    [ lit "你是一名资深数据治理专家。请针对此文件：";
      lit "            1. 确定其核心数据维度（如：配置差异表、市场销量明细）。";
      lit "            2. 严禁质疑文件中数据的真实性，文件中的每一个字都是绝对的事实。";
      lit "            3. 提供一个25字以内的核心摘要。";
      lit "            ";
      lit "            输出必须是纯 JSON。" ].

Definition SUMMARY_DEFAULT : jsstring := lit "全量原始数据已载入".

Definition SUMMARY_FALLBACK : jsstring := lit "原始数据已就绪（自动识别异常）".

Definition summary_request (base64Data : option jsstring)
    (mimeType : jsstring) : Request :=
  {| model_name := lit "gemini-3-flash-preview";
     contents := Parts [ inlineData base64Data mimeType;
                         textPart SUMMARY_INSTRUCTION ];
     config := SummarySchema |}.

Definition extractTextFromDocument (env : Env) (base64Data : option jsstring)
    (mimeType fileName : jsstring) : M (jsstring * jsstring) :=
  try_catch
    (_ <- lift (newGoogleGenAI env) ;;
     rawContent <- lift (safeBase64ToText env base64Data) ;;
     response_text <- call env (summary_request base64Data mimeType) ;;
     result_summary <-
       lift (JSON_parse_summary env (or_else response_text (lit "{}"))) ;;
     ret (rawContent, or_else result_summary SUMMARY_DEFAULT))
    (fun _ =>
       text <- lift (safeBase64ToText env base64Data) ;;
       ret (text, SUMMARY_FALLBACK)).

(** *** Context assembly inside [analyzeData] *)

Definition isCsv (s : KnowledgeSource.t) : bool :=
  endsWith (toLowerCase (KnowledgeSource.name s)) (lit ".csv").

(** [s.content.split('\n').filter(l => l.trim().length > 0)] *)
Definition csv_lines (content : jsstring) : list jsstring :=
  filter (fun l => 0 <? strlen (trim l)) (split 10%N content).

Definition rowLabel (idx : nat) : jsstring :=
  lit "[Row_" ++ of_nat idx ++ lit "]".

Definition REPEATED_HEADER (header : jsstring) : jsstring :=
  NL ++ lit "(REPEATED_HEADER: " ++ header ++ lit ")" ++ NL.

(** The callback of [lines.map((line, idx) => ...)]. *)
Definition csv_row (header line : jsstring) (idx : nat) : jsstring :=
  if (0 <? idx)%nat && (idx mod 50 =? 0)%nat
  then REPEATED_HEADER header ++ rowLabel idx ++ lit " " ++ line
  else rowLabel idx ++ lit " " ++ line.

(** [lines[0]] is only read by the callback, which runs on non-empty
    [lines] alone, so the default is never observed. *)
Definition processedContent (s : KnowledgeSource.t) : jsstring :=
  if isCsv s then
    let lines := csv_lines (KnowledgeSource.content s) in
    let header := nth 0 lines [] in
    join NL (mapi (csv_row header) lines)
  else KnowledgeSource.content s.

Definition fileHeader (s : KnowledgeSource.t) : jsstring :=
  NL ++ NL ++ lit "=== FILE_START: " ++ KnowledgeSource.name s
     ++ lit " (Source_ID: " ++ KnowledgeSource.id s ++ lit ") ===" ++ NL.

Definition fileFooter (s : KnowledgeSource.t) : jsstring :=
  NL ++ lit "=== FILE_END: " ++ KnowledgeSource.name s ++ lit " ===" ++ NL.

Definition TRUNCATION_MARK : jsstring := NL ++ lit "...[数据超长截断]...".

Definition availableSpace (budget usedChars : Z) (s : KnowledgeSource.t) : Z :=
  budget - usedChars - strlen (fileHeader s) - strlen (fileFooter s).

Definition sourceText (available : Z) (s : KnowledgeSource.t) : jsstring :=
  if strlen (processedContent s) >? available
  then slice 0 available (processedContent s) ++ TRUNCATION_MARK
  else processedContent s.

(** The [for (const s of validSources)] loop, from the state
    [(contextBuffer, usedChars)]; [break] returns the state reached. *)
Fixpoint assemble_loop (budget : Z) (sources : list KnowledgeSource.t)
    (contextBuffer : jsstring) (usedChars : Z) : jsstring * Z :=
  match sources with
  | [] => (contextBuffer, usedChars)
  | s :: rest =>
      let available := availableSpace budget usedChars s in
      if available <=? 200 then (contextBuffer, usedChars)
      else
        let text := sourceText available s in
        assemble_loop budget rest
          (contextBuffer ++ fileHeader s ++ text ++ fileFooter s)
          (usedChars + strlen (fileHeader s) + strlen text
             + strlen (fileFooter s))
  end.

Definition assemble (budget : Z) (sources : list KnowledgeSource.t)
  : jsstring :=
  fst (assemble_loop budget sources [] 0).

(** What the loop did with each document it appended. *)
Record Segment : Type := {
  seg_source : KnowledgeSource.t;
  seg_text : jsstring;
  seg_truncated : bool
}.

Definition render_segment (g : Segment) : jsstring :=
  fileHeader (seg_source g) ++ seg_text g ++ fileFooter (seg_source g).

(** The same loop, listing the appended documents instead of
    concatenating them. *)
Fixpoint assemble_segments (budget : Z) (sources : list KnowledgeSource.t)
    (usedChars : Z) : list Segment :=
  match sources with
  | [] => []
  | s :: rest =>
      let available := availableSpace budget usedChars s in
      if available <=? 200 then []
      else
        let text := sourceText available s in
        {| seg_source := s; seg_text := text;
           seg_truncated := strlen (processedContent s) >? available |}
        :: assemble_segments budget rest
             (usedChars + strlen (fileHeader s) + strlen text
                + strlen (fileFooter s))
  end.

(** *** The prompt *)

Definition history_line (h : ChatMessage.t) : jsstring :=
  (match ChatMessage.role h with
   | user => lit "用户"
   | model => lit "你"
   end) ++ lit ": " ++ ChatMessage.text h.

(** [history.slice(-6).map(...).join('\n')] *)
Definition chatHistoryText (history : list ChatMessage.t) : jsstring :=
  join NL (map history_line (slice_from (-6) history)).

Definition PROMPT_HEAD : jsstring :=
  join NL
    [ lit "你现在是“所长的知识宝”高精度数据分析引擎。";
      lit "";
      lit "【核心指令：数据主权协议】";
      lit "1. **文件内容是唯一的真理**：严禁根据你的训练知识质疑、修改或否定文件中的数据。如果文件中写了“小鹏G7”，那么它就是真实存在的车型，严禁说“不存在”或“可能是G6/G9”。";
      lit "2. **禁止过度脑补**：不准合并看似相似但字符不同的配置名称（如 702 Max 和 702 Ultra 必须视为独立配置）。";
      lit "";
      lit "【原子化原始数据池】";
      lit "" ].

Definition PROMPT_HISTORY : jsstring :=
  join NL [ lit ""; lit ""; lit "【对话历史】"; lit "" ].

Definition PROMPT_ALGORITHM : jsstring :=
  join NL
    [ lit "";
      lit "";
      lit "【执行算法：全量坐标扫描】";
      lit "- **第一步：行号锁定**。首先在心中列出所有包含提问关键词的 [Row_ID]。";
      lit "- **第二步：独立性验证**。对比搜寻到的每一行，检查销量、价格、配置等微小差异。";
      lit "- **第三步：总量核对**。在输出结论前，手动对搜寻到的所有行进行求和或计数校验。";
      lit "- **第四步：专业呈现**。使用 Markdown 表格列出所有检索到的行及其对应数据。";
      lit "";
      lit "【用户当前问题】";
      lit "" ].

Definition prompt (contextBuffer chatHistory query : jsstring) : jsstring :=
  PROMPT_HEAD ++ contextBuffer ++ PROMPT_HISTORY ++ chatHistory
    ++ PROMPT_ALGORITHM ++ query.

Definition NO_VALID_SOURCES : jsstring :=
  lit "⚠️ 知识库当前没有可供分析的有效文档，请在知识库分区导入资料。".

Definition NO_MATCH : jsstring := lit "检索完成，但在数据池中未发现匹配项。".

Definition ANALYSIS_FAILED : jsstring := lit "❌ 深度分析失败: ".

Definition UNKNOWN_ERROR : jsstring := lit "未知错误".

(** [sources.filter(s => s.content && s.content.length > 0)] *)
Definition validSources (sources : list KnowledgeSource.t)
  : list KnowledgeSource.t :=
  filter (fun s => truthy (KnowledgeSource.content s)
                   && (0 <? strlen (KnowledgeSource.content s))) sources.

Definition analysis_request (query : jsstring) (history : list ChatMessage.t)
    (valid : list KnowledgeSource.t) : Request :=
  {| model_name := lit "gemini-3-pro-preview";
     contents := Prompt (prompt (assemble MAX_TOTAL_CHARS valid)
                                (chatHistoryText history) query);
     config := Sampling 0 32768 |}.

Definition analyzeData (env : Env) (query : jsstring)
    (history : list ChatMessage.t) (sources : list KnowledgeSource.t)
  : M jsstring :=
  try_catch
    (_ <- lift (newGoogleGenAI env) ;;
     let valid := validSources sources in
     if (List.length valid =? 0)%nat then ret NO_VALID_SOURCES
     else
       response_text <- call env (analysis_request query history valid) ;;
       ret (or_else response_text NO_MATCH))
    (fun error =>
       ret (ANALYSIS_FAILED ++ match error with
                               | JsError message => message
                               | NonError => UNKNOWN_ERROR
                               end)).

End GeminiService.

(* ================================================================== *)
(** ** [App.tsx]: the application state and its handlers               *)
(* ================================================================== *)

Module File.
Record t : Type := {
  name : jsstring;
  type : jsstring;      (* the MIME type, possibly empty *)
  size : Z              (* bytes *)
}.
End File.

Inductive ViewMode : Type := library | analysis.

(** The pieces of React state that the handlers below read or write. *)
Record AppState : Type := {
  viewMode : ViewMode;
  sources : list KnowledgeSource.t;
  currentPartitionId : jsstring;
  selectedAnalysisPartitions : list jsstring;
  chatHistory : list ChatMessage.t;
  query : jsstring;
  isAnalyzing : bool
}.

Definition setSources (f : list KnowledgeSource.t -> list KnowledgeSource.t)
    (st : AppState) : AppState :=
  {| viewMode := viewMode st; sources := f (sources st);
     currentPartitionId := currentPartitionId st;
     selectedAnalysisPartitions := selectedAnalysisPartitions st;
     chatHistory := chatHistory st; query := query st;
     isAnalyzing := isAnalyzing st |}.

Definition setCurrentPartitionId (p : jsstring) (st : AppState) : AppState :=
  {| viewMode := viewMode st; sources := sources st;
     currentPartitionId := p;
     selectedAnalysisPartitions := selectedAnalysisPartitions st;
     chatHistory := chatHistory st; query := query st;
     isAnalyzing := isAnalyzing st |}.

Definition setViewMode (v : ViewMode) (st : AppState) : AppState :=
  {| viewMode := v; sources := sources st;
     currentPartitionId := currentPartitionId st;
     selectedAnalysisPartitions := selectedAnalysisPartitions st;
     chatHistory := chatHistory st; query := query st;
     isAnalyzing := isAnalyzing st |}.

Definition setChatHistory (f : list ChatMessage.t -> list ChatMessage.t)
    (st : AppState) : AppState :=
  {| viewMode := viewMode st; sources := sources st;
     currentPartitionId := currentPartitionId st;
     selectedAnalysisPartitions := selectedAnalysisPartitions st;
     chatHistory := f (chatHistory st); query := query st;
     isAnalyzing := isAnalyzing st |}.

Definition setQuery (q : jsstring) (st : AppState) : AppState :=
  {| viewMode := viewMode st; sources := sources st;
     currentPartitionId := currentPartitionId st;
     selectedAnalysisPartitions := selectedAnalysisPartitions st;
     chatHistory := chatHistory st; query := q;
     isAnalyzing := isAnalyzing st |}.

Definition setIsAnalyzing (b : bool) (st : AppState) : AppState :=
  {| viewMode := viewMode st; sources := sources st;
     currentPartitionId := currentPartitionId st;
     selectedAnalysisPartitions := selectedAnalysisPartitions st;
     chatHistory := chatHistory st; query := query st;
     isAnalyzing := b |}.

(** What the handlers take from the clock and the random generator:
    the id drawn for the placeholder of index [i], and the successive
    readings of [Date.now()]. *)
Record Ambient : Type := {
  random_id : nat -> jsstring;
  now : nat -> Z
}.

(** A drop on a partition row: the dragged card's id (empty when the
    drag did not start on a card) and the dropped files. *)
Record DropEvent : Type := {
  sourceId : jsstring;
  files : list File.t
}.

Module App.

Definition ALL : jsstring := lit "all".

Definition UNCATEGORIZED : jsstring := lit "uncategorized".

Definition PLACEHOLDER_SUMMARY : jsstring :=
  lit "正在应用数据主权协议并锚定坐标...".

Definition MOUNT_FAILED : jsstring := lit "挂载失败，请检查文件编码".

(** [sources.filter(s => selectedAnalysisPartitions.includes(s.partitionId))] *)
Definition analysisSources (st : AppState) : list KnowledgeSource.t :=
  filter (fun s => existsb (eqb (KnowledgeSource.partitionId s))
                     (selectedAnalysisPartitions st))
         (sources st).

(** [`${(file.size / 1024).toFixed(1)} KB`]: the tenths of a kibibyte
    nearest to the size, a tie going up. *)
Definition sizeLabel (size : Z) : jsstring :=
  let tenths := (size * 10 + 512) / 1024 in
  of_nat (Z.to_nat (tenths / 10)) ++ lit "."
    ++ of_nat (Z.to_nat (tenths mod 10)) ++ lit " KB".

(** The [type] field of a placeholder (line 107). *)
Definition sourceTypeOf (fileName : jsstring) : SourceType :=
  if endsWith (toLowerCase fileName) (lit ".pdf") then PDF
  else if endsWith fileName (lit ".csv") then CSV
  else TEXT.

Definition targetPartition (partitionId : jsstring) : jsstring :=
  if eqb partitionId ALL || negb (truthy partitionId) then UNCATEGORIZED
  else partitionId.

(** The placeholders of [processFiles] (lines 102-113).  The function
    is created by a render of the component and reads [sources.length]
    from the state of that render, [rendered], which is not the list the
    placeholders are appended to. *)
Definition filePlaceholders (amb : Ambient) (rendered : AppState)
    (files : list File.t) (partitionId : jsstring)
  : list KnowledgeSource.t :=
  mapi (fun file index =>
          {| KnowledgeSource.id := random_id amb index;
             KnowledgeSource.partitionId := targetPartition partitionId;
             KnowledgeSource.sequenceNumber :=
               Z.of_nat (List.length (sources rendered))
               + Z.of_nat index + 1;
             KnowledgeSource.name := File.name file;
             KnowledgeSource.type := sourceTypeOf (File.name file);
             KnowledgeSource.content := [];
             KnowledgeSource.url := None;
             KnowledgeSource.dateAdded := now amb index;
             KnowledgeSource.size := Some (sizeLabel (File.size file));
             KnowledgeSource.status := PROCESSING;
             KnowledgeSource.summary := Some PLACEHOLDER_SUMMARY |})
       files.

(** The synchronous part of [processFiles]: the placeholders, numbered
    from the size of the rendered list, join the current store through
    the updater [prev => [...prev, ...filePlaceholders]] (line 115);
    each file is then read, and [reader_onload] runs when its data URL
    is there.  [rendered] is the state of the render that created the
    handler, [st] the state the updater meets. *)
Definition processFiles (amb : Ambient) (rendered : AppState)
    (files : list File.t) (partitionId : jsstring) (st : AppState)
  : AppState :=
  setSources
    (fun prev => prev ++ filePlaceholders amb rendered files partitionId) st.

Definition mimeTypeOf (file : File.t) : jsstring :=
  if truthy (File.type file) then File.type file
  else if endsWith (File.name file) (lit ".pdf") then lit "application/pdf"
  else lit "text/plain".

(** [reader.onload] for one file: the text after the first comma of the
    data URL is sent to [extractTextFromDocument]; the placeholder is
    patched with its result, or marked as failed when it throws. *)
Definition reader_onload (env : Env) (placeholder : KnowledgeSource.t)
    (file : File.t) (readerResult : jsstring) (st : AppState)
  : AppState * list Request :=
  let base64Data := nth_error (split 44%N readerResult) 1 in
  let mimeType := mimeTypeOf file in
  let is_placeholder s :=
    eqb (KnowledgeSource.id s) (KnowledgeSource.id placeholder) in
  match GeminiService.extractTextFromDocument env base64Data mimeType
          (File.name file) with
  | (Ok (text, summary), sent) =>
      (setSources
         (map (fun s => if is_placeholder s
                        then KnowledgeSource.with_result s text summary
                               COMPLETED
                        else s)) st, sent)
  | (Throw _, sent) =>
      (setSources
         (map (fun s => if is_placeholder s
                        then KnowledgeSource.with_failure s MOUNT_FAILED ERROR
                        else s)) st, sent)
  end.

(** [onDrop] of the row of partition [p] (lines 331-351); [viewMode]
    is the one of the render. *)
Definition partition_onDrop (amb : Ambient) (rendered : AppState)
    (p : Partition.t) (e : DropEvent) (st : AppState) : AppState :=
  let internalId := sourceId e in
  if truthy internalId && negb (eqb (Partition.id p) ALL) then
    setCurrentPartitionId (Partition.id p)
      (setSources
         (map (fun s => if eqb (KnowledgeSource.id s) internalId
                        then KnowledgeSource.with_partitionId s
                               (Partition.id p)
                        else s)) st)
  else if (0 <? List.length (files e))%nat then
    let st' := processFiles amb rendered (files e) (Partition.id p) st in
    match viewMode rendered with
    | library => setCurrentPartitionId (Partition.id p) st'
    | analysis => st'
    end
  else st.

(** [onDrop] of the window (lines 165-179): dropped files go to the
    partition the render has on display. *)
Definition window_onDrop (amb : Ambient) (rendered : AppState)
    (dropped : list File.t) (st : AppState) : AppState :=
  if (0 <? List.length dropped)%nat
  then processFiles amb rendered dropped (currentPartitionId rendered) st
  else st.

(** [onUpload] of the upload dialog (line 504). *)
Definition onUpload (amb : Ambient) (rendered : AppState)
    (uploaded : list File.t) (pid : jsstring) (st : AppState) : AppState :=
  processFiles amb rendered uploaded pid st.

(** [onLinkAdd] of the upload dialog (line 504): a WEB document with a
    placeholder content, filed under the partition the dialog passes. *)
Definition onLinkAdd (amb : Ambient) (u p : jsstring) (st : AppState)
  : AppState :=
  setSources
    (fun prev =>
       prev ++ [ {| KnowledgeSource.id := random_id amb 0;
                    KnowledgeSource.partitionId := p;
                    KnowledgeSource.sequenceNumber :=
                      Z.of_nat (List.length prev) + 1;
                    KnowledgeSource.name := u;
                    KnowledgeSource.type := WEB;
                    KnowledgeSource.content := lit "链接内容收录";
                    KnowledgeSource.url := None;
                    KnowledgeSource.dateAdded := now amb 0;
                    KnowledgeSource.size := Some (lit "WEB");
                    KnowledgeSource.status := COMPLETED;
                    KnowledgeSource.summary :=
                      Some (lit "网页链接已入库，等待深度索引") |} ])
    st.

(** The delete button of a card (line 435). *)
Definition deleteSource (id : jsstring) (st : AppState) : AppState :=
  setSources (filter (fun s => negb (eqb (KnowledgeSource.id s) id))) st.

(** The first half of [handleSendMessage], up to the [await]. *)
Definition send_begin (amb : Ambient) (st : AppState) : AppState :=
  let userMessage :=
    {| ChatMessage.id := now amb 0; ChatMessage.role := user;
       ChatMessage.text := query st; ChatMessage.timestamp := now amb 1;
       ChatMessage.isThinking := None |} in
  setIsAnalyzing true
    (setQuery [] (setChatHistory (fun prev => prev ++ [userMessage]) st)).

(** The second half: the awaited result is appended as a model message;
    a rejection is logged only; [finally] clears the flag. *)
Definition send_end (amb : Ambient) (outcome : result jsstring)
    (st : AppState) : AppState :=
  match outcome with
  | Ok result =>
      let aiMessage :=
        {| ChatMessage.id := now amb 2 + 1; ChatMessage.role := model;
           ChatMessage.text := result; ChatMessage.timestamp := now amb 3;
           ChatMessage.isThinking := None |} in
      setIsAnalyzing false
        (setChatHistory (fun prev => prev ++ [aiMessage]) st)
  | Throw _ => setIsAnalyzing false st
  end.

(** [handleSendMessage]: [analyzeData] receives the query, the log and
    the selected documents as they were when the handler started. *)
Definition handleSendMessage (env : Env) (amb : Ambient) (st : AppState)
  : AppState * list Request :=
  if negb (truthy (trim (query st))) || isAnalyzing st then (st, [])
  else
    let '(outcome, sent) :=
      GeminiService.analyzeData env (query st) (chatHistory st)
        (App.analysisSources st) in
    (send_end amb outcome (send_begin amb st), sent).

End App.

(** ** The earlier drop handler ([src/unnamed/part_000], lines 163-233) *)

(** In that version the files were read as text when dropped and the
    documents entered the store complete; the summary written later by
    [summarizeContent] touches no field used below and is left out. *)

Module Legacy.

Module File.
Record t : Type := {
  name : jsstring;
  text : jsstring;      (* what [await file.text()] gives *)
  size : Z
}.
End File.

Record DropEvent : Type := {
  internal_source_id : jsstring;
  files : list File.t
}.

Definition sourceTypeOf (fileName : jsstring) : SourceType :=
  if endsWith fileName (lit ".pdf") then PDF
  else if endsWith fileName (lit ".csv") then CSV
  else TEXT.

Definition newSources (amb : Ambient) (rendered : AppState)
    (files : list File.t) (partitionId : jsstring)
  : list KnowledgeSource.t :=
  let targetPartition :=
    if eqb partitionId App.ALL then App.UNCATEGORIZED else partitionId in
  mapi (fun file index =>
          {| KnowledgeSource.id := random_id amb index;
             KnowledgeSource.partitionId := targetPartition;
             KnowledgeSource.sequenceNumber :=
               Z.of_nat (List.length (sources rendered))
               + Z.of_nat index + 1;
             KnowledgeSource.name := File.name file;
             KnowledgeSource.type := sourceTypeOf (File.name file);
             KnowledgeSource.content := File.text file;
             KnowledgeSource.url := None;
             KnowledgeSource.dateAdded := now amb index;
             KnowledgeSource.size := Some (App.sizeLabel (File.size file));
             KnowledgeSource.status := COMPLETED;
             KnowledgeSource.summary := None |})
       files.

Definition processFiles (amb : Ambient) (rendered : AppState)
    (files : list File.t) (partitionId : jsstring) (st : AppState)
  : AppState :=
  setViewMode library
    (setSources
       (fun prev => prev ++ newSources amb rendered files partitionId) st).

Definition handlePartitionDrop (amb : Ambient) (rendered : AppState)
    (id : jsstring) (e : DropEvent) (st : AppState) : AppState :=
  let internalSourceId := internal_source_id e in
  if truthy internalSourceId then
    let targetId := if eqb id App.ALL then App.UNCATEGORIZED else id in
    setSources
      (map (fun s => if eqb (KnowledgeSource.id s) internalSourceId
                     then KnowledgeSource.with_partitionId s targetId
                     else s)) st
  else if (0 <? List.length (files e))%nat then
    setCurrentPartitionId id (processFiles amb rendered (files e) id st)
  else st.

End Legacy.

(* ================================================================== *)
(** ** The events that write to the document store                     *)
(* ================================================================== *)

Inductive StoreEvent : Type :=
| PartitionDrop (p : Partition.t) (e : DropEvent)
| WindowDrop (dropped : list File.t)
| Upload (uploaded : list File.t) (pid : jsstring)
| LinkAdd (u p : jsstring)
| FileLoaded (env : Env) (placeholder : KnowledgeSource.t) (file : File.t)
             (readerResult : jsstring)
| Delete (id : jsstring).

(** A handler is created by a render of the component and reads the
    state of that render ([sources.length], [viewMode],
    [currentPartitionId]); what it writes goes through the updaters,
    which receive the current state.  An event is therefore handled
    with two states: [rendered], the state of the render whose handler
    it reaches, and [st], the state its updaters meet. *)
Definition handle (amb : Ambient) (rendered : AppState) (ev : StoreEvent)
    (st : AppState) : AppState :=
  match ev with
  | PartitionDrop p e => App.partition_onDrop amb rendered p e st
  | WindowDrop dropped => App.window_onDrop amb rendered dropped st
  | Upload uploaded pid => App.onUpload amb rendered uploaded pid st
  | LinkAdd u p => App.onLinkAdd amb u p st
  | FileLoaded env placeholder file readerResult =>
      fst (App.reader_onload env placeholder file readerResult st)
  | Delete id => App.deleteSource id st
  end.

(** The upload dialog never passes "all": its selection starts from the
    partition on display with "all" replaced by "uncategorized", and
    its list of choices leaves "all" out (UploadManager, lines 17-28). *)
Definition from_dialog (ev : StoreEvent) : Prop :=
  match ev with
  | Upload _ pid => pid <> App.ALL
  | LinkAdd _ p => p <> App.ALL
  | _ => True
  end.

(** A run: each event comes with the state of the render whose
    handler it reaches.  Nothing ties that state to the current one:
    two handlers reached by one event read the same render, and so does
    a handler that runs before the component is rendered again. *)
Fixpoint run (amb : Ambient) (evs : list (AppState * StoreEvent))
    (st : AppState) : AppState :=
  match evs with
  | [] => st
  | (rendered, ev) :: rest => run amb rest (handle amb rendered ev st)
  end.

Definition never_all (store : list KnowledgeSource.t) : Prop :=
  Forall (fun s => KnowledgeSource.partitionId s <> App.ALL) store.

(* ================================================================== *)
(** ** [App.tsx]: the views, the selection and the export of tables    *)
(* ================================================================== *)

Definition setSelectedAnalysisPartitions
    (f : list jsstring -> list jsstring) (st : AppState) : AppState :=
  {| viewMode := viewMode st; sources := sources st;
     currentPartitionId := currentPartitionId st;
     selectedAnalysisPartitions := f (selectedAnalysisPartitions st);
     chatHistory := chatHistory st; query := query st;
     isAnalyzing := isAnalyzing st |}.

Module AppView.

(** [filteredSources] (lines 91-93): the cards on display. *)
Definition filteredSources (st : AppState) : list KnowledgeSource.t :=
  if eqb (currentPartitionId st) App.ALL then sources st
  else filter (fun s => eqb (KnowledgeSource.partitionId s)
                            (currentPartitionId st))
              (sources st).

(** [onClick] of the row of partition [p] (lines 352-359): in the
    library it shows the partition; in the analysis view it ticks or
    unticks it, the row of "all" doing nothing. *)
Definition partition_onClick (p : Partition.t) (st : AppState) : AppState :=
  match viewMode st with
  | library => setCurrentPartitionId (Partition.id p) st
  | analysis =>
      if eqb (Partition.id p) App.ALL then st
      else
        setSelectedAnalysisPartitions
          (fun prev =>
             if existsb (fun i => eqb i (Partition.id p)) prev
             then filter (fun i => negb (eqb i (Partition.id p))) prev
             else prev ++ [Partition.id p])
          st
  end.

(** [replace] with the global pattern of the quotation mark: every
    quotation mark (code unit 34) is written twice. *)
Definition escape_quotes (s : jsstring) : jsstring :=
  flat_map (fun c => if (c =? 34)%N then [34%N; 34%N] else [c]) s.

(** The text a cell shows in the export: its trimmed [textContent], or
    the word "undefined" when the optional chain finds none. *)
Definition shown (textContent : option jsstring) : jsstring :=
  match textContent with
  | Some t => trim t
  | None => lit "undefined"
  end.

(** One cell of the exported table (line 250): the text between
    quotation marks, its own quotation marks doubled; the optional
    chain stops before [replace] when there is no text. *)
Definition export_cell (textContent : option jsstring) : jsstring :=
  [34%N]
    ++ match textContent with
       | Some t => escape_quotes (trim t)
       | None => lit "undefined"
       end
    ++ [34%N].

Definition export_row (cells : list (option jsstring)) : jsstring :=
  join (lit ",") (map export_cell cells).

(** [rows.map(r => cells(r).map(...).join(',')).join('\n')] *)
Definition export_table (rows : list (list (option jsstring))) : jsstring :=
  join NL (map export_row rows).

(** The content of the downloaded file: a byte order mark, then the
    table (line 255). *)
Definition download (tableContent : jsstring) : jsstring :=
  65279%N :: tableContent.

End AppView.

(* ================================================================== *)
(** ** The upload dialog ([UploadManager], part_001 and part_002)      *)
(* ================================================================== *)

Module UploadManager.

(** The two versions of the component differ in the effect that follows
    the partition on display, and in the drop zone of the later one. *)
Inductive Version : Type := WithSelect | WithButtons.

Record State : Type := {
  selectedPartition : jsstring;
  url : jsstring
}.

(** [useState(currentPartitionId === 'all' ? 'uncategorized' : ...)] *)
Definition init (currentPartitionId : jsstring) : State :=
  {| selectedPartition :=
       if eqb currentPartitionId App.ALL then App.UNCATEGORIZED
       else currentPartitionId;
     url := [] |}.

(** [partitions.filter(p => p.id !== 'all')]: the choices offered. *)
Definition uploadablePartitions (partitions : list Partition.t)
  : list Partition.t :=
  filter (fun p => negb (eqb (Partition.id p) App.ALL)) partitions.

Inductive Action : Type :=
| Display (currentPartitionId : jsstring)   (* the effect on the prop *)
| Choose (option_index : nat)               (* the n-th choice is taken *)
| TypeUrl (text : jsstring)
| SubmitUrl
| PickFiles (picked : list File.t)
| DropFiles (dropped : list File.t).

Definition with_selected (p : jsstring) (d : State) : State :=
  {| selectedPartition := p; url := url d |}.

Definition with_url (u : jsstring) (d : State) : State :=
  {| selectedPartition := selectedPartition d; url := u |}.

(** One action on the dialog: its new state and the calls it makes to
    [onUpload] and [onLinkAdd], as events of the store. *)
Definition step (v : Version) (partitions : list Partition.t) (a : Action)
    (d : State) : State * list StoreEvent :=
  match a with
  | Display currentPartitionId =>
      match v with
      | WithSelect =>
          (with_selected
             (if eqb currentPartitionId App.ALL then App.UNCATEGORIZED
              else currentPartitionId) d, [])
      | WithButtons =>
          if negb (eqb currentPartitionId App.ALL)
          then (with_selected currentPartitionId d, [])
          else (d, [])
      end
  | Choose option_index =>
      match nth_error (uploadablePartitions partitions) option_index with
      | Some p => (with_selected (Partition.id p) d, [])
      | None => (d, [])
      end
  | TypeUrl text => (with_url text d, [])
  | SubmitUrl =>
      if truthy (trim (url d))
      then (with_url [] d, [LinkAdd (url d) (selectedPartition d)])
      else (d, [])
  | PickFiles picked =>
      if (0 <? List.length picked)%nat
      then (d, [Upload picked (selectedPartition d)])
      else (d, [])
  | DropFiles dropped =>
      match v with
      | WithSelect => (d, [])
      | WithButtons =>
          if (0 <? List.length dropped)%nat
          then (d, [Upload dropped (selectedPartition d)])
          else (d, [])
      end
  end.

(** A session of the dialog: the events it raises, in order. *)
Fixpoint session (v : Version) (partitions : list Partition.t)
    (actions : list Action) (d : State) : list StoreEvent :=
  match actions with
  | [] => []
  | a :: rest =>
      let '(d', raised) := step v partitions a d in
      raised ++ session v partitions rest d'
  end.

End UploadManager.

(* ================================================================== *)
(** ** The other calls of [services/geminiService.ts]                  *)
(* ================================================================== *)

(** Requests without a response schema, and answers read by parts. *)
Inductive PlainConfig : Type :=
| NoConfig
| ImageConfig (aspectRatio imageSize : jsstring).

Record PlainRequest : Type := {
  plain_model : jsstring;
  plain_contents : Contents;
  plain_config : PlainConfig
}.

(** A part of an answer: its [inlineData], if any, and the [data] of it. *)
Record ResponsePart : Type := {
  part_inlineData : option (option jsstring)
}.

Record Response : Type := {
  response_text : option jsstring;
  (** [response.candidates?.[0]?.content?.parts] *)
  response_parts : option (list ResponsePart)
}.

Record Service : Type := {
  newClient : result unit;
  generate : PlainRequest -> result Response
}.

Module Media.

Definition MOUNTED : jsstring := lit "数据已挂载".

Definition summary_prompt (text type : jsstring) : jsstring :=
  lit "总结此" ++ type ++ lit "的核心定位（20字内）：" ++ NL
    ++ slice 0 1000 text.

(** [summarizeContent] (lines 160-169): the answer, or the fixed text
    when it is empty or anything throws. *)
Definition summarizeContent (svc : Service) (text type : jsstring)
  : result jsstring * list PlainRequest :=
  match newClient svc with
  | Throw _ => (Ok MOUNTED, [])
  | Ok _ =>
      let req := {| plain_model := lit "gemini-3-flash-preview";
                    plain_contents := Prompt (summary_prompt text type);
                    plain_config := NoConfig |} in
      match generate svc req with
      | Ok response => (Ok (or_else (response_text response) MOUNTED), [req])
      | Throw _ => (Ok MOUNTED, [req])
      end
  end.

Definition avatar_request (sourceImage stylePrompt : jsstring)
  : PlainRequest :=
  {| plain_model := lit "gemini-3-pro-image-preview";
     plain_contents :=
       Parts [ inlineData (nth_error (split 44%N sourceImage) 1)
                          (lit "image/png");
               textPart (lit "Style: " ++ stylePrompt
                           ++ lit ". Professional portrait.") ];
     plain_config := ImageConfig (lit "1:1") (lit "1K") |}.

(** The [for] loop over the parts: the first one with inline data wins. *)
Fixpoint first_image (parts : list ResponsePart) : option jsstring :=
  match parts with
  | [] => None
  | part :: rest =>
      match part_inlineData part with
      | Some data =>
          Some (lit "data:image/png;base64," ++ to_DOMString data)
      | None => first_image rest
      end
  end.

(** [generateAvatar] (lines 171-192): a data URL, or [null]. *)
Definition generateAvatar (svc : Service) (sourceImage stylePrompt : jsstring)
  : result (option jsstring) * list PlainRequest :=
  match newClient svc with
  | Throw _ => (Ok None, [])
  | Ok _ =>
      let req := avatar_request sourceImage stylePrompt in
      match generate svc req with
      | Ok response =>
          (Ok (match response_parts response with
               | Some parts => first_image parts
               | None => None
               end), [req])
      | Throw _ => (Ok None, [req])
      end
  end.

End Media.

(* ================================================================== *)
(** ** The earlier service ([src/unnamed/part_003], lines 261-352)     *)
(* ================================================================== *)

Module LegacyService.

Definition type_name (t : SourceType) : jsstring :=
  match t with
  | PDF => lit "PDF"
  | CSV => lit "CSV"
  | WEB => lit "WEB"
  | TEXT => lit "TEXT"
  end.

Definition isCsv (s : KnowledgeSource.t) : bool :=
  match KnowledgeSource.type s with CSV => true | _ => false end
  || endsWith (toLowerCase (KnowledgeSource.name s)) (lit ".csv").

(** [s.replace(/x/g, ',')] for a pattern of one character. *)
Definition to_comma (x : N) (s : jsstring) : jsstring :=
  map (fun c => if (c =? x)%N then 44%N else c) s.

(** Tabs, then semicolons, become commas in tables. *)
Definition processedContent (s : KnowledgeSource.t) : jsstring :=
  if isCsv s
  then to_comma 59 (to_comma 9 (KnowledgeSource.content s))
  else KnowledgeSource.content s.

Definition block (s : KnowledgeSource.t) (index : nat) : jsstring :=
  join NL
    [ lit "";
      lit "[数据源 " ++ of_nat (index + 1) ++ lit "]";
      lit "文件名: " ++ KnowledgeSource.name s;
      lit "类型: " ++ type_name (KnowledgeSource.type s);
      lit "内容开始:";
      processedContent s;
      lit "[数据源 " ++ of_nat (index + 1) ++ lit " 结束]";
      lit "" ].

Definition BLOCK_SEPARATOR : jsstring := NL ++ NL ++ lit "---" ++ NL ++ NL.

Definition prepareGlobalContext (sources : list KnowledgeSource.t)
  : jsstring :=
  join BLOCK_SEPARATOR (mapi block sources).

(** [sources.filter(s => s.content && s.content.trim().length > 10)] *)
Definition validSources (sources : list KnowledgeSource.t)
  : list KnowledgeSource.t :=
  filter (fun s => truthy (KnowledgeSource.content s)
                   && (10 <? strlen (trim (KnowledgeSource.content s))))
         sources.

(** [history.map(...).join('\n')]: the whole log. *)
Definition chatHistoryText (history : list ChatMessage.t) : jsstring :=
  join NL (map GeminiService.history_line history).

Definition PROMPT_HEAD : jsstring :=
  join NL
    [ lit "";
      lit "你现在是“AI知识库工具”高级分析引擎。你拥有处理汽车行业复杂配置表、竞品分析报告、行业新闻的最高权限。";
      lit "";
      lit "【全局知识上下文】:";
      lit "" ].

Definition PROMPT_HISTORY : jsstring :=
  join NL
    [ lit "";
      lit "";
      lit "【对话历史】:";
      lit "" ].

Definition PROMPT_QUESTION : jsstring :=
  join NL
    [ lit "";
      lit "";
      lit "【当前用户问题】:";
      lit "" ].

Definition PROMPT_RULES : jsstring :=
  join NL
    [ lit "";
      lit "";
      lit "【深度检索与格式化指令】:";
      lit "1. **全局扫描**：不要只搜索前几行。用户问到的车型可能在文件的任何位置（中间或末尾），请遍历所有数据源中的每一行数据。";
      lit "2. **跨表关联**：如果数据源 1 有价格，数据源 2 有续航，请自动通过“车型名称”将它们关联起来。";
      lit "3. **表格优先原则 (CRITICAL)**：";
      lit "   - **只要涉及 2 个或以上车型、品牌或数据项的对比，必须使用 Markdown 表格呈现核心结果。**";
      lit "   - **对于包含大量数值、参数、销量数据、价格信息的内容，必须且仅能使用 Markdown 表格进行结构化呈现。**";
      lit "4. **模糊匹配逻辑**：车型名称可能不完全一致，请利用行业常识判断。";
      lit "5. **输出标准**：必须引用原始数值。" ].

Definition prompt (globalContext chatHistory query : jsstring) : jsstring :=
  PROMPT_HEAD ++ globalContext ++ PROMPT_HISTORY ++ chatHistory
    ++ PROMPT_QUESTION ++ query ++ PROMPT_RULES.

Definition NO_VALID_SOURCES : jsstring :=
  lit "⚠️ 知识库当前没有可供分析的有效文档。请确保已勾选包含文件的分区。".

Definition NO_REPORT : jsstring := lit "Gemini 未能生成分析报告。".

Definition ANALYSIS_FAILED : jsstring := lit "❌ 全量检索失败：".

Definition analysis_request (query : jsstring) (history : list ChatMessage.t)
    (valid : list KnowledgeSource.t) : Request :=
  {| model_name := lit "gemini-3-pro-preview";
     contents := Prompt (prompt (prepareGlobalContext valid)
                                (chatHistoryText history) query);
     config := Sampling 0 32768 |}.

Definition analyzeData (env : Env) (query : jsstring)
    (history : list ChatMessage.t) (sources : list KnowledgeSource.t)
  : M jsstring :=
  try_catch
    (_ <- lift (newGoogleGenAI env) ;;
     let valid := validSources sources in
     if (List.length valid =? 0)%nat then ret NO_VALID_SOURCES
     else
       response_text <- call env (analysis_request query history valid) ;;
       ret (or_else response_text NO_REPORT))
    (fun error =>
       ret (ANALYSIS_FAILED ++ match error with
                               | JsError message => message
                               | NonError => GeminiService.UNKNOWN_ERROR
                               end)).

End LegacyService.

(* ================================================================== *)
(** ** Notions used in the statements                                  *)
(* ================================================================== *)

(** A value that fits in a byte. *)
Definition is_byte (b : N) : Prop := (b < 256)%N.

(** A string without a comma, as MIME types are. *)
Definition no_comma (s : jsstring) : Prop :=
  Forall (fun c => (c =? 44)%N = false) s.

(** The text [analyzeData] shows for a caught exception. *)
Definition error_text (e : exn) : jsstring :=
  match e with
  | JsError message => message
  | NonError => GeminiService.UNKNOWN_ERROR
  end.

(** The remote classification of a file fails: the client cannot be
    built, the request is rejected, or the answer cannot be parsed. *)
Definition classification_fails (env : Env) (base64Data : option jsstring)
    (mimeType : jsstring) : Prop :=
  (exists e, newGoogleGenAI env = Throw e)
  \/ (exists e,
        generateContent env
          (GeminiService.summary_request base64Data mimeType) = Throw e)
  \/ (exists t e,
        generateContent env
          (GeminiService.summary_request base64Data mimeType) = Ok t
        /\ JSON_parse_summary env (or_else t (lit "{}")) = Throw e).

(** The patch [reader_onload] applies to the placeholder of id [pid]. *)
Definition patched (pid : jsstring)
    (patch : KnowledgeSource.t -> KnowledgeSource.t)
    (store : list KnowledgeSource.t) : list KnowledgeSource.t :=
  map (fun s => if Js.eqb (KnowledgeSource.id s) pid then patch s else s)
      store.

(** A document as it stands in the context when nothing is cut. *)
Definition rendered_whole (s : KnowledgeSource.t) : jsstring :=
  GeminiService.fileHeader s ++ GeminiService.processedContent s
    ++ GeminiService.fileFooter s.

(** A byte of the ASCII range. *)
Definition is_ascii (b : N) : Prop := (b < 128)%N.

(** A string that does not begin with the code unit [c]. *)
Definition not_starting_with (c : N) (s : jsstring) : Prop :=
  match s with
  | [] => True
  | d :: _ => (d =? c)%N = false
  end.

(** Reading an exported table back.  After the opening quotation mark
    of a cell, two marks in a row stand for one mark of the text and a
    single mark closes the cell; the result is the text and what
    follows the cell. *)
Fixpoint read_quoted (s : jsstring) : option (jsstring * jsstring) :=
  match s with
  | [] => None
  | c :: r =>
      if (c =? 34)%N then
        match r with
        | d :: r' =>
            if (d =? 34)%N then
              match read_quoted r' with
              | Some (text, rest) => Some (34%N :: text, rest)
              | None => None
              end
            else Some ([], r)
        | [] => Some ([], [])
        end
      else
        match read_quoted r with
        | Some (text, rest) => Some (c :: text, rest)
        | None => None
        end
  end.

Definition read_cell (s : jsstring) : option (jsstring * jsstring) :=
  match s with
  | c :: r => if (c =? 34)%N then read_quoted r else None
  | [] => None
  end.

(** The cells of one line, separated by commas. *)
Fixpoint read_row (fuel : nat) (s : jsstring)
  : option (list jsstring * jsstring) :=
  match fuel with
  | O => None
  | S k =>
      match read_cell s with
      | None => None
      | Some (cell, rest) =>
          match rest with
          | c :: rest' =>
              if (c =? 44)%N then
                match read_row k rest' with
                | Some (cells, r) => Some (cell :: cells, r)
                | None => None
                end
              else Some ([cell], rest)
          | [] => Some ([cell], [])
          end
      end
  end.

(** The lines of a table, separated by line breaks. *)
Fixpoint read_table (fuel : nat) (s : jsstring)
  : option (list (list jsstring)) :=
  match fuel with
  | O => None
  | S k =>
      match read_row (List.length s) s with
      | None => None
      | Some (cells, rest) =>
          match rest with
          | [] => Some [cells]
          | c :: rest' =>
              if (c =? 10)%N then
                match read_table k rest' with
                | Some rows => Some (cells :: rows)
                | None => None
                end
              else None
          end
      end
  end.

(** A text has no more lines or cells than code units, so its length
    is fuel enough. *)
Definition read_csv (s : jsstring) : option (list (list jsstring)) :=
  read_table (List.length s) s.

(** A part of an answer that carries no image. *)
Definition no_image (part : ResponsePart) : Prop :=
  part_inlineData part = None.

(** The text [x] stands somewhere in [s], whole and in one piece. *)
Definition occurs_in (x s : jsstring) : Prop :=
  exists pre post, s = pre ++ x ++ post.

(** The documents of a store carry the numbers 1, 2, 3, ... in their
    order. *)
Definition numbered (store : list KnowledgeSource.t) : Prop :=
  map KnowledgeSource.sequenceNumber store
  = map (fun k => Z.of_nat k + 1) (seq 0 (List.length store)).

(** An event that deletes no document. *)
Definition no_deletion (ev : StoreEvent) : Prop :=
  match ev with
  | Delete _ => False
  | _ => True
  end.

(** Every event of a run reaches a handler whose render shows as many
    documents as the store holds when the event is handled. *)
Fixpoint renders_current (amb : Ambient) (evs : list (AppState * StoreEvent))
    (st : AppState) : Prop :=
  match evs with
  | [] => True
  | (rendered, ev) :: rest =>
      List.length (sources rendered) = List.length (sources st)
      /\ renders_current amb rest (handle amb rendered ev st)
  end.

(** One drop of files on the zone of the later dialog reaches two
    handlers of one render: the [onDrop] of the zone (part_002, lines
    46-52), which calls [onUpload] with the selected partition and does
    not stop the event, and then the [onDrop] of the root element, in
    which the dialog is rendered (App.tsx, lines 165-179 and 270-277,
    503-505). *)
Definition dialog_zone_drop (rendered : AppState)
    (selectedPartition : jsstring) (dropped : list File.t)
  : list (AppState * StoreEvent) :=
  if (0 <? List.length dropped)%nat
  then [ (rendered, Upload dropped selectedPartition);
         (rendered, WindowDrop dropped) ]
  else [].



(* ================================================================== *)
(** ** Concrete inputs used by the examples below                      *)
(* ================================================================== *)

Module Sample.

(** A service that is unreachable: every request is rejected. *)
Definition env_down : Env :=
  {| newGoogleGenAI := Ok tt;
     generateContent := fun _ => Throw (JsError (lit "fetch failed"));
     JSON_parse_summary := fun _ => Throw (JsError (lit "SyntaxError"));
     TextDecoder_decode := fun bytes => Ok (TextDecoder_utf8 bytes) |}.

(** No client: the constructor of the model client throws, as it does
    without an API key. *)
Definition env_no_client : Env :=
  {| newGoogleGenAI := Throw (JsError (lit "API key missing"));
     generateContent := fun _ => Ok (Some (lit "ok"));
     JSON_parse_summary := fun _ => Ok None;
     TextDecoder_decode := fun bytes => Ok (TextDecoder_utf8 bytes) |}.

(** A service that answers every request with the same text. *)
Definition env_up : Env :=
  {| newGoogleGenAI := Ok tt;
     generateContent := fun _ => Ok (Some (lit "ok"));
     JSON_parse_summary := fun _ => Ok None;
     TextDecoder_decode := fun bytes => Ok (TextDecoder_utf8 bytes) |}.

Definition amb : Ambient :=
  {| random_id := fun i => lit "id" ++ of_nat i;
     now := fun i => 1000 + Z.of_nat i |}.

Definition doc (id name partition content : string) : KnowledgeSource.t :=
  {| KnowledgeSource.id := lit id;
     KnowledgeSource.partitionId := lit partition;
     KnowledgeSource.sequenceNumber := 1;
     KnowledgeSource.name := lit name;
     KnowledgeSource.type := App.sourceTypeOf (lit name);
     KnowledgeSource.content := lit content;
     KnowledgeSource.url := None;
     KnowledgeSource.dateAdded := 0;
     KnowledgeSource.size := None;
     KnowledgeSource.status := COMPLETED;
     KnowledgeSource.summary := None |}.

Definition state (docs : list KnowledgeSource.t) (q : string) : AppState :=
  {| viewMode := analysis;
     sources := docs;
     currentPartitionId := App.ALL;
     selectedAnalysisPartitions := [lit "config"; lit "sales"; lit "reports"];
     chatHistory := [];
     query := lit q;
     isAnalyzing := false |}.

Definition message (r : Role) (t : string) : ChatMessage.t :=
  {| ChatMessage.id := 0; ChatMessage.role := r; ChatMessage.text := lit t;
     ChatMessage.timestamp := 0; ChatMessage.isThinking := None |}.

(** 300 characters of text, more than a budget of 350 leaves once the
    sentinels (44 and 25 characters) are counted. *)
Definition long_doc : KnowledgeSource.t :=
  {| KnowledgeSource.id := lit "d1";
     KnowledgeSource.partitionId := lit "config";
     KnowledgeSource.sequenceNumber := 1;
     KnowledgeSource.name := lit "a.txt";
     KnowledgeSource.type := TEXT;
     KnowledgeSource.content := repeat 120%N 300;
     KnowledgeSource.url := None;
     KnowledgeSource.dateAdded := 0;
     KnowledgeSource.size := None;
     KnowledgeSource.status := COMPLETED;
     KnowledgeSource.summary := None |}.

(** A table with the header [name,price] and 120 data rows. *)
Definition csv_doc : KnowledgeSource.t :=
  {| KnowledgeSource.id := lit "d3";
     KnowledgeSource.partitionId := lit "sales";
     KnowledgeSource.sequenceNumber := 3;
     KnowledgeSource.name := lit "Prices.CSV";
     KnowledgeSource.type := TEXT;
     KnowledgeSource.content :=
       join NL (lit "name,price" :: repeat (lit "x,1") 120);
     KnowledgeSource.url := None;
     KnowledgeSource.dateAdded := 0;
     KnowledgeSource.size := None;
     KnowledgeSource.status := COMPLETED;
     KnowledgeSource.summary := None |}.

Definition all_partition : Partition.t :=
  {| Partition.id := App.ALL; Partition.name := lit "全部内容";
     Partition.description := None; Partition.isSystem := Some true |}.

Definition text_file : File.t :=
  {| File.name := lit "note.txt"; File.type := lit "text/plain";
     File.size := 2 |}.

(** The store right after [note.txt] was dropped on "config", and the
    placeholder created for it. *)
Definition uploading : AppState :=
  App.processFiles amb (state [] "") [text_file] (lit "config") (state [] "").

Definition placeholder : KnowledgeSource.t :=
  nth 0 (sources uploading) (doc "" "" "" "").

(** The data URL of a file holding the two bytes "hi". *)
Definition data_url : jsstring := lit "data:text/plain;base64,aGk=".

(** The partitions the application starts with (App.tsx, lines 33-39). *)
Definition partitions : list Partition.t :=
  [ all_partition;
    {| Partition.id := lit "config"; Partition.name := lit "配置";
       Partition.description := Some (lit "车型参数对比");
       Partition.isSystem := None |};
    {| Partition.id := lit "sales"; Partition.name := lit "销量";
       Partition.description := Some (lit "市场表现数据");
       Partition.isSystem := None |};
    {| Partition.id := lit "reports"; Partition.name := lit "报告";
       Partition.description := Some (lit "行业深度报告");
       Partition.isSystem := None |};
    {| Partition.id := App.UNCATEGORIZED; Partition.name := lit "未分类";
       Partition.description := None; Partition.isSystem := Some true |} ].

(** A service whose answer to a summary request parses to a summary. *)
Definition env_summary : Env :=
  {| newGoogleGenAI := Ok tt;
     generateContent := fun _ => Ok (Some (lit "{...}"));
     JSON_parse_summary := fun _ => Ok (Some (lit "price list"));
     TextDecoder_decode := fun bytes => Ok (TextDecoder_utf8 bytes) |}.

(** An image service answering with a text part, then an image. *)
Definition image_service : Service :=
  {| newClient := Ok tt;
     generate := fun _ =>
       Ok {| response_text := None;
             response_parts :=
               Some [ {| part_inlineData := None |};
                      {| part_inlineData := Some (Some (lit "iVBOR")) |} ] |} |}.

End Sample.

(* ================================================================== *)
(** ** Facts about the string functions                                *)
(* ================================================================== *)

Section JsFacts.

Lemma eqb_refl (s : jsstring) : Js.eqb s s = true.
Proof.
  induction s as [|c s IH]; simpl; [reflexivity|].
  now rewrite N.eqb_refl, IH.
Qed.

Lemma eqb_eq (s t : jsstring) : Js.eqb s t = true <-> s = t.
Proof.
  split.
  - revert t; induction s as [|c s IH]; intros [|d t] H; simpl in H;
      try discriminate; [reflexivity|].
    apply andb_true_iff in H as [Hc Hs].
    apply N.eqb_eq in Hc. f_equal; auto.
  - intros ->. apply eqb_refl.
Qed.

Lemma strlen_nonneg (s : jsstring) : 0 <= strlen s.
Proof. unfold strlen. lia. Qed.

Lemma strlen_app (s t : jsstring) : strlen (s ++ t) = strlen s + strlen t.
Proof. unfold strlen. rewrite length_app. lia. Qed.

Lemma strlen_nil_iff (s : jsstring) : strlen s = 0 <-> s = [].
Proof.
  unfold strlen. destruct s; simpl; split; intros H;
    try reflexivity; try discriminate; lia.
Qed.

(** [slice(0, n)] keeps the first [n] code units. *)
Lemma slice_prefix {A : Type} (n : Z) (l : list A) :
  0 <= n -> slice 0 n l = firstn (Z.to_nat n) l.
Proof.
  intros Hn. unfold slice, rel_index.
  replace (0 <? 0) with false by reflexivity.
  destruct (n <? 0) eqn:E; [apply Z.ltb_lt in E; lia|].
  rewrite (Z.min_l 0) by lia. simpl skipn. rewrite Z.sub_0_r.
  destruct (Z.min_spec n (Z.of_nat (List.length l))) as [[H ->]|[H ->]].
  - reflexivity.
  - rewrite Nat2Z.id, firstn_all.
    symmetry. apply firstn_all2. lia.
Qed.

Lemma strlen_slice_prefix (n : Z) (s : jsstring) :
  0 <= n <= strlen s -> strlen (slice 0 n s) = n.
Proof.
  intros [H0 H1]. rewrite slice_prefix by assumption.
  unfold strlen in *. rewrite length_firstn. lia.
Qed.

(** [slice(-k)] keeps the last [k] elements, all of them when there are
    fewer. *)
Lemma slice_from_last {A : Type} (k : nat) (l : list A) :
  (0 < k)%nat ->
  slice_from (- Z.of_nat k) l = skipn (List.length l - k) l.
Proof.
  intros Hk. unfold slice_from, slice, rel_index.
  destruct (- Z.of_nat k <? 0) eqn:E; [|apply Z.ltb_ge in E; lia].
  destruct (Z.of_nat (List.length l) <? 0) eqn:E2;
    [apply Z.ltb_lt in E2; lia|].
  rewrite Z.min_id.
  replace (Z.to_nat (Z.max (Z.of_nat (List.length l) + - Z.of_nat k) 0))
    with (List.length l - k)%nat by lia.
  apply firstn_all2. rewrite length_skipn. lia.
Qed.

Lemma join_cons (sep p : jsstring) (rest : list jsstring) :
  rest <> [] -> join sep (p :: rest) = p ++ sep ++ join sep rest.
Proof. destruct rest; [congruence | reflexivity]. Qed.


End JsFacts.

(* ================================================================== *)
(** ** Base64: what the reader encodes, [atob] decodes                 *)
(* ================================================================== *)

Module Base64Facts.

Lemma below_64_listed (v : N) :
  (v < 64)%N -> In v (map N.of_nat (seq 0 64)).
Proof.
  intros H. apply in_map_iff. exists (N.to_nat v). split; [lia|].
  apply in_seq. lia.
Qed.

(** A check that holds of the 64 sextets, by enumeration. *)
Lemma sextet_check (P : N -> bool) :
  forallb P (map N.of_nat (seq 0 64)) = true ->
  forall v, (v < 64)%N -> P v = true.
Proof.
  intros H v Hv. rewrite forallb_forall in H. apply H.
  now apply below_64_listed.
Qed.

Lemma base64_value_char (v : N) :
  (v < 64)%N -> base64_value (base64_char v) = Some v.
Proof.
  intros Hv.
  pose proof (sextet_check
                (fun v => match base64_value (base64_char v) with
                          | Some w => (w =? v)%N
                          | None => false
                          end) eq_refl v Hv) as H.
  cbv beta in H. destruct (base64_value (base64_char v)) as [w|];
    [|discriminate]. apply N.eqb_eq in H. now subst.
Qed.

(** A base64 character is neither white space, nor [=], nor a comma. *)
Lemma base64_char_plain (v : N) :
  (v < 64)%N ->
  is_ascii_whitespace (base64_char v) = false
  /\ (base64_char v =? 61)%N = false
  /\ (base64_char v =? 44)%N = false.
Proof.
  intros Hv.
  pose proof (sextet_check
                (fun v => negb (is_ascii_whitespace (base64_char v))
                          && negb (base64_char v =? 61)%N
                          && negb (base64_char v =? 44)%N)
                eq_refl v Hv) as H.
  cbv beta in H. apply andb_true_iff in H as [H H3].
  apply andb_true_iff in H as [H1 H2].
  now rewrite negb_true_iff in H1, H2, H3.
Qed.

(** The arithmetic of packing bytes into sextets and back. *)
Lemma pack_div (x y k : N) : (y < k)%N -> ((x * k + y) / k = x)%N.
Proof.
  intros H. rewrite N.div_add_l by lia. rewrite N.div_small by exact H. lia.
Qed.

Lemma pack_mod (x y k : N) : (y < k)%N -> ((x * k + y) mod k = y)%N.
Proof.
  intros H. rewrite N.add_comm, N.Div0.mod_add. now apply N.mod_small.
Qed.

Lemma unpack (a k : N) : (k <> 0)%N -> ((a / k) * k + a mod k = a)%N.
Proof. intros H. rewrite (N.div_mod a k) at 3 by exact H. lia. Qed.

Lemma div_below (a k q : N) : (a < k * q)%N -> (a / k < q)%N.
Proof. intros H. apply N.Div0.div_lt_upper_bound. exact H. Qed.

Lemma mod_below (a k : N) : (k <> 0)%N -> (a mod k < k)%N.
Proof. intros H. now apply N.mod_lt. Qed.

Lemma sextets_of_bytes (a b c : N) :
  is_byte a -> is_byte b -> is_byte c ->
  (a / 4 < 64 /\ (a mod 4) * 16 + b / 16 < 64
   /\ (b mod 16) * 4 + c / 64 < 64 /\ c mod 64 < 64)%N.
Proof.
  unfold is_byte. intros Ha Hb Hc.
  pose proof (div_below a 4 64). pose proof (div_below b 16 16).
  pose proof (div_below c 64 4). pose proof (mod_below a 4).
  pose proof (mod_below b 16). pose proof (mod_below c 64). lia.
Qed.

Lemma bytes_of_sextets (a b c : N) :
  is_byte a -> is_byte b -> is_byte c ->
  ((a / 4) * 4 + ((a mod 4) * 16 + b / 16) / 16 = a
   /\ (((a mod 4) * 16 + b / 16) mod 16) * 16
      + ((b mod 16) * 4 + c / 64) / 4 = b
   /\ (((b mod 16) * 4 + c / 64) mod 4) * 64 + c mod 64 = c)%N.
Proof.
  unfold is_byte. intros Ha Hb Hc.
  assert (Hb1 : (b / 16 < 16)%N) by (apply div_below; lia).
  assert (Hc1 : (c / 64 < 4)%N) by (apply div_below; lia).
  rewrite !pack_div, !pack_mod by assumption.
  repeat split; apply unpack; lia.
Qed.

(** Induction three bytes at a time. *)
Lemma list_ind3 {A : Type} (P : list A -> Prop) :
  P [] -> (forall a, P [a]) -> (forall a b, P [a; b]) ->
  (forall a b c r, P r -> P (a :: b :: c :: r)) ->
  forall l, P l.
Proof.
  intros H0 H1 H2 H3.
  assert (H : forall l, P l /\ (forall a, P (a :: l))
                        /\ (forall a b, P (a :: b :: l))).
  { induction l as [|x l (IH0 & IH1 & IH2)]; repeat split; auto. }
  intros l. apply H.
Qed.

(** How the steps of [atob] treat a base64 character in front. *)
Lemma filter_plain (v : N) (r : jsstring) :
  (v < 64)%N ->
  filter not_ascii_whitespace (base64_char v :: r)
  = base64_char v :: filter not_ascii_whitespace r.
Proof.
  intros Hv. destruct (base64_char_plain v Hv) as (W & _ & _).
  cbn [filter]. unfold not_ascii_whitespace at 1. now rewrite W.
Qed.

Lemma strip_padding_plain (v : N) (r : jsstring) :
  (v < 64)%N ->
  strip_padding (base64_char v :: r) = base64_char v :: strip_padding r.
Proof.
  intros Hv. destruct (base64_char_plain v Hv) as (_ & E & _).
  cbn [strip_padding]. now rewrite E.
Qed.

Lemma base64_values_plain (v : N) (r : jsstring) :
  (v < 64)%N ->
  base64_values (base64_char v :: r)
  = match base64_values r with
    | Some vs => Some (v :: vs)
    | None => None
    end.
Proof.
  intros Hv. cbn [base64_values]. now rewrite base64_value_char.
Qed.

Lemma no_comma_plain (v : N) (r : jsstring) :
  (v < 64)%N ->
  Forall (fun c => (c =? 44)%N = false) r ->
  Forall (fun c => (c =? 44)%N = false) (base64_char v :: r).
Proof.
  intros Hv Hr. destruct (base64_char_plain v Hv) as (_ & _ & C).
  now constructor.
Qed.

Lemma length_plus_four (n : nat) : ((4 + n) mod 4 = n mod 4)%nat.
Proof. rewrite <- Nat.Div0.add_mod_idemp_l. reflexivity. Qed.

(** What [atob] computes on the encoding of a file, step by step. *)
Lemma atob_steps_on_encoding (bytes : list N) :
  Forall is_byte bytes ->
  filter not_ascii_whitespace (base64_encode bytes) = base64_encode bytes
  /\ (List.length (base64_encode bytes) mod 4 = 0)%nat
  /\ Forall (fun c => (c =? 44)%N = false) (base64_encode bytes)
  /\ exists v,
       base64_values (strip_padding (base64_encode bytes)) = Some v
       /\ sextets_to_bytes v = bytes
       /\ List.length (strip_padding (base64_encode bytes))
          = List.length v
       /\ (List.length v mod 4 <> 1)%nat.
Proof.
  induction bytes as [| a | a b | a b c r IH] using list_ind3; intros Hb.
  - repeat split; try constructor. exists []. repeat split. cbn. lia.
  - apply Forall_cons_iff in Hb as [Ha _].
    destruct (sextets_of_bytes a 0 0 Ha) as (S1 & S2 & _); [now cbv..|].
    rewrite N.add_0_r in S2.
    destruct (bytes_of_sextets a 0 0 Ha) as (B1 & _); [now cbv..|].
    rewrite N.add_0_r in B1.
    cbn [base64_encode].
    rewrite !filter_plain, !strip_padding_plain, !base64_values_plain
      by assumption.
    split; [reflexivity|]. split; [reflexivity|].
    split; [repeat apply no_comma_plain; try assumption;
            repeat constructor|].
    eexists. split; [reflexivity|]. cbn [sextets_to_bytes].
    rewrite B1. repeat split. cbn. lia.
  - apply Forall_cons_iff in Hb as [Ha Hb].
    apply Forall_cons_iff in Hb as [Hb _].
    destruct (sextets_of_bytes a b 0 Ha Hb) as (S1 & S2 & S3 & _);
      [now cbv|]. rewrite N.add_0_r in S3.
    destruct (bytes_of_sextets a b 0 Ha Hb) as (B1 & B2 & _); [now cbv|].
    rewrite N.add_0_r in B2.
    cbn [base64_encode].
    rewrite !filter_plain, !strip_padding_plain, !base64_values_plain
      by assumption.
    split; [reflexivity|]. split; [reflexivity|].
    split; [repeat apply no_comma_plain; try assumption;
            repeat constructor|].
    eexists. split; [reflexivity|]. cbn [sextets_to_bytes].
    rewrite B1, B2. repeat split. cbn. lia.
  - apply Forall_cons_iff in Hb as [Ha Hb].
    apply Forall_cons_iff in Hb as [Hb Hc].
    apply Forall_cons_iff in Hc as [Hc Hr].
    destruct (IH Hr) as (F & L & K & v & V & D & Lv & M).
    destruct (sextets_of_bytes a b c Ha Hb Hc) as (S1 & S2 & S3 & S4).
    destruct (bytes_of_sextets a b c Ha Hb Hc) as (B1 & B2 & B3).
    cbn [base64_encode].
    rewrite !filter_plain, !strip_padding_plain, !base64_values_plain
      by assumption.
    rewrite F, V.
    split; [reflexivity|]. split.
    { cbn [List.length].
      change (S (S (S (S (List.length (base64_encode r))))))
        with (4 + List.length (base64_encode r))%nat.
      now rewrite length_plus_four. }
    split; [repeat apply no_comma_plain; assumption|].
    eexists. split; [reflexivity|]. cbn [sextets_to_bytes List.length].
    rewrite B1, B2, B3, D, Lv. repeat split.
    change (S (S (S (S (List.length v))))) with (4 + List.length v)%nat.
    now rewrite length_plus_four.
Qed.

(** [atob] gives back the bytes of the file. *)
Lemma atob_base64_encode (bytes : list N) :
  Forall is_byte bytes -> atob (base64_encode bytes) = Ok bytes.
Proof.
  intros Hb.
  destruct (atob_steps_on_encoding bytes Hb) as (F & L & _ & v & V & D & Lv & M).
  unfold atob. rewrite F, L. cbn [Nat.eqb]. rewrite Lv.
  destruct (List.length v mod 4 =? 1)%nat eqn:E;
    [apply Nat.eqb_eq in E; contradiction|].
  rewrite V, D. reflexivity.
Qed.

Lemma to_Uint8Array_bytes (bytes : list N) :
  Forall is_byte bytes -> to_Uint8Array bytes = bytes.
Proof.
  unfold to_Uint8Array. induction 1 as [|b r Hb _ IH]; [reflexivity|].
  cbn [map]. rewrite IH. f_equal. now apply N.mod_small.
Qed.

End Base64Facts.

(* ================================================================== *)
(** ** Data URLs: the text after the first comma                       *)
(* ================================================================== *)

Module DataUrlFacts.

Lemma split_no_separator (sep : N) (s : jsstring) :
  Forall (fun c => (c =? sep)%N = false) s -> split sep s = [s].
Proof.
  induction 1 as [|c r Hc _ IH]; [reflexivity|].
  cbn [split]. now rewrite Hc, IH.
Qed.

Lemma split_at_first (sep : N) (s r : jsstring) :
  Forall (fun c => (c =? sep)%N = false) s ->
  split sep (s ++ sep :: r) = s :: split sep r.
Proof.
  induction 1 as [|c s' Hc _ IH]; cbn [app split].
  - now rewrite N.eqb_refl.
  - now rewrite Hc, IH.
Qed.

(** [reader.result.split(',')[1]] is the base64 text of the file. *)
Lemma base64_of_data_url (mimeType : jsstring) (bytes : list N) :
  no_comma mimeType ->
  Forall is_byte bytes ->
  nth_error (split 44%N (readAsDataURL mimeType bytes)) 1
  = Some (base64_encode bytes).
Proof.
  intros Hm Hb. unfold readAsDataURL.
  change (lit ";base64,") with (lit ";base64" ++ [44%N]).
  rewrite <- app_assoc, !app_assoc, <- (app_assoc _ [44%N]).
  cbn [app]. rewrite split_at_first.
  - rewrite split_no_separator; [reflexivity|].
    apply (Base64Facts.atob_steps_on_encoding bytes Hb).
  - repeat (apply Forall_app; split); try exact Hm;
      repeat constructor.
Qed.

End DataUrlFacts.

(* ================================================================== *)
(** ** Context assembly: the character budget                          *)
(* ================================================================== *)

Module AssemblerFacts.
Import GeminiService.

(** One turn of the loop, as the source writes it. *)
Lemma assemble_loop_cons budget s rest buf used :
  assemble_loop budget (s :: rest) buf used
  = if availableSpace budget used s <=? 200 then (buf, used)
    else assemble_loop budget rest
           (buf ++ fileHeader s
                ++ sourceText (availableSpace budget used s) s
                ++ fileFooter s)
           (used + strlen (fileHeader s)
              + strlen (sourceText (availableSpace budget used s) s)
              + strlen (fileFooter s)).
Proof. reflexivity. Qed.

Lemma assemble_segments_cons budget s rest used :
  assemble_segments budget (s :: rest) used
  = if availableSpace budget used s <=? 200 then []
    else {| seg_source := s;
            seg_text := sourceText (availableSpace budget used s) s;
            seg_truncated :=
              strlen (processedContent s) >? availableSpace budget used s |}
         :: assemble_segments budget rest
              (used + strlen (fileHeader s)
                 + strlen (sourceText (availableSpace budget used s) s)
                 + strlen (fileFooter s)).
Proof. reflexivity. Qed.

Lemma TRUNCATION_MARK_length : strlen TRUNCATION_MARK = 15.
Proof. reflexivity. Qed.

(** A document that does not fit is cut to the space left and marked. *)
Lemma sourceText_truncated (available : Z) (s : KnowledgeSource.t) :
  0 <= available < strlen (processedContent s) ->
  sourceText available s
  = firstn (Z.to_nat available) (processedContent s) ++ TRUNCATION_MARK
  /\ strlen (sourceText available s) = available + 15.
Proof.
  intros H. unfold sourceText.
  destruct (strlen (processedContent s) >? available) eqn:E;
    [|rewrite Z.gtb_ltb in E; apply Z.ltb_ge in E; lia].
  rewrite <- slice_prefix by lia. split; [reflexivity|].
  rewrite strlen_app, strlen_slice_prefix, TRUNCATION_MARK_length; lia.
Qed.

Lemma sourceText_whole (available : Z) (s : KnowledgeSource.t) :
  strlen (processedContent s) <= available ->
  sourceText available s = processedContent s.
Proof.
  intros H. unfold sourceText.
  destruct (strlen (processedContent s) >? available) eqn:E;
    [rewrite Z.gtb_ltb in E; apply Z.ltb_lt in E; lia | reflexivity].
Qed.

(** The three cases of one turn of the loop. *)
Lemma assemble_loop_break budget s rest buf used :
  availableSpace budget used s <= 200 ->
  assemble_loop budget (s :: rest) buf used = (buf, used).
Proof.
  intros H. rewrite assemble_loop_cons. apply Z.leb_le in H. now rewrite H.
Qed.

Lemma assemble_loop_truncate budget s rest buf used :
  200 < availableSpace budget used s ->
  availableSpace budget used s < strlen (processedContent s) ->
  assemble_loop budget (s :: rest) buf used
  = assemble_loop budget rest
      (buf ++ fileHeader s
           ++ (firstn (Z.to_nat (availableSpace budget used s))
                      (processedContent s) ++ TRUNCATION_MARK)
           ++ fileFooter s)
      (budget + 15).
Proof.
  intros H1 H2. rewrite assemble_loop_cons.
  destruct (availableSpace budget used s <=? 200) eqn:E;
    [apply Z.leb_le in E; lia|].
  destruct (sourceText_truncated (availableSpace budget used s) s) as [-> L];
    [lia|].
  f_equal. rewrite strlen_app, TRUNCATION_MARK_length.
  rewrite <- slice_prefix, strlen_slice_prefix by lia.
  unfold availableSpace. lia.
Qed.

Lemma assemble_loop_whole budget s rest buf used :
  200 < availableSpace budget used s ->
  strlen (processedContent s) <= availableSpace budget used s ->
  assemble_loop budget (s :: rest) buf used
  = assemble_loop budget rest
      (buf ++ fileHeader s ++ processedContent s ++ fileFooter s)
      (used + strlen (fileHeader s) + strlen (processedContent s)
         + strlen (fileFooter s)).
Proof.
  intros H1 H2. rewrite assemble_loop_cons.
  destruct (availableSpace budget used s <=? 200) eqn:E;
    [apply Z.leb_le in E; lia|].
  now rewrite sourceText_whole.
Qed.

(** The counter is the length of the buffer, and it never passes the
    budget by more than the truncation mark. *)
Lemma assemble_loop_bound budget srcs :
  forall buf used,
    strlen buf = used -> used <= budget + 15 ->
    strlen (fst (assemble_loop budget srcs buf used))
      = snd (assemble_loop budget srcs buf used)
    /\ snd (assemble_loop budget srcs buf used) <= budget + 15.
Proof.
  induction srcs as [|s rest IH]; intros buf used Hlen Hused.
  - simpl. auto.
  - destruct (Z.le_gt_cases (availableSpace budget used s) 200) as [Hb|Hb].
    + rewrite assemble_loop_break by assumption. simpl. auto.
    + destruct (Z.le_gt_cases (strlen (processedContent s))
                              (availableSpace budget used s)) as [Hw|Ht].
      * rewrite assemble_loop_whole by assumption. apply IH.
        -- rewrite !strlen_app. lia.
        -- unfold availableSpace in Hw. lia.
      * rewrite assemble_loop_truncate by assumption. apply IH.
        -- rewrite !strlen_app, TRUNCATION_MARK_length.
           unfold strlen at 3. rewrite length_firstn.
           unfold strlen in Ht. unfold availableSpace in *.
           pose proof (strlen_nonneg (fileHeader s)).
           pose proof (strlen_nonneg (fileFooter s)).
           fold (strlen (processedContent s)) in Ht. unfold strlen in *. lia.
        -- lia.
Qed.

(** The context sent with a query, under the budget of the source. *)
Lemma analysis_context_bounded (srcs : list KnowledgeSource.t) :
  strlen (assemble MAX_TOTAL_CHARS srcs) <= 1400015.
Proof.
  unfold assemble.
  destruct (assemble_loop_bound MAX_TOTAL_CHARS srcs [] 0) as [Hlen Hle];
    [reflexivity | unfold MAX_TOTAL_CHARS; lia |].
  unfold MAX_TOTAL_CHARS in *. lia.
Qed.

(** Once the counter is within 200 of the budget nothing more is
    appended, whatever documents are left. *)
Lemma assemble_loop_exhausted budget srcs buf used :
  budget - 200 <= used -> assemble_loop budget srcs buf used = (buf, used).
Proof.
  intros H. destruct srcs as [|s rest]; [reflexivity|].
  apply assemble_loop_break. unfold availableSpace.
  pose proof (strlen_nonneg (fileHeader s)).
  pose proof (strlen_nonneg (fileFooter s)). lia.
Qed.

Lemma assemble_segments_exhausted budget srcs used :
  budget - 200 <= used -> assemble_segments budget srcs used = [].
Proof.
  intros H. destruct srcs as [|s rest]; [reflexivity|].
  rewrite assemble_segments_cons.
  destruct (availableSpace budget used s <=? 200) eqn:E; [reflexivity|].
  apply Z.leb_gt in E. unfold availableSpace in E.
  pose proof (strlen_nonneg (fileHeader s)).
  pose proof (strlen_nonneg (fileFooter s)). lia.
Qed.

(** The buffer is the concatenation of the listed segments. *)
Lemma assemble_loop_segments budget srcs :
  forall buf used,
    fst (assemble_loop budget srcs buf used)
    = buf ++ List.concat (map render_segment (assemble_segments budget srcs used)).
Proof.
  induction srcs as [|s rest IH]; intros buf used.
  - simpl. now rewrite app_nil_r.
  - rewrite assemble_loop_cons, assemble_segments_cons.
    destruct (availableSpace budget used s <=? 200).
    + simpl. now rewrite app_nil_r.
    + rewrite IH. cbn [map List.concat]. unfold render_segment.
      cbn [seg_source seg_text]. now rewrite <- !app_assoc.
Qed.

(** The counter after a document that was cut. *)
Lemma used_after_truncation budget used s :
  200 < availableSpace budget used s ->
  availableSpace budget used s < strlen (processedContent s) ->
  used + strlen (fileHeader s)
    + strlen (sourceText (availableSpace budget used s) s)
    + strlen (fileFooter s) = budget + 15.
Proof.
  intros H1 H2.
  destruct (sourceText_truncated (availableSpace budget used s) s) as [_ ->];
    [lia|].
  unfold availableSpace. lia.
Qed.

Lemma truncated_segment_last budget srcs :
  forall buf used front g back,
    assemble_segments budget srcs used = front ++ g :: back ->
    seg_truncated g = true ->
    back = []
    /\ snd (assemble_loop budget srcs buf used) = budget + 15
    /\ exists cut, seg_text g = cut ++ TRUNCATION_MARK.
Proof.
  induction srcs as [|s rest IH]; intros buf used front g back Hseg Hg.
  - destruct front; discriminate.
  - rewrite assemble_segments_cons in Hseg. rewrite assemble_loop_cons.
    destruct (availableSpace budget used s <=? 200) eqn:E.
    + destruct front; discriminate.
    + apply Z.leb_gt in E. destruct front as [|f0 front].
      * cbn [app] in Hseg. injection Hseg as Hg0 Hback. subst g.
        cbn [seg_truncated seg_text] in *.
        rewrite Z.gtb_ltb in Hg. apply Z.ltb_lt in Hg.
        rewrite used_after_truncation in * by assumption.
        rewrite assemble_segments_exhausted in Hback by lia.
        rewrite assemble_loop_exhausted by lia. simpl.
        repeat split; [now symmetry|].
        destruct (sourceText_truncated (availableSpace budget used s) s)
          as [-> _]; [lia|]. eauto.
      * cbn [app] in Hseg. injection Hseg as _ Hrest.
        eapply IH; eassumption.
Qed.

Lemma at_most_one_truncated budget srcs :
  forall used,
    (List.length (filter seg_truncated (assemble_segments budget srcs used))
     <= 1)%nat.
Proof.
  induction srcs as [|s rest IH]; intros used; [simpl; lia|].
  rewrite assemble_segments_cons.
  destruct (availableSpace budget used s <=? 200) eqn:E; [simpl; lia|].
  apply Z.leb_gt in E. cbn [filter seg_truncated].
  destruct (strlen (processedContent s) >? availableSpace budget used s)
    eqn:T; [|apply IH]. cbn [List.length].
  rewrite Z.gtb_ltb in T. apply Z.ltb_lt in T.
  rewrite used_after_truncation by assumption.
  rewrite assemble_segments_exhausted by lia. simpl. lia.
Qed.



(** C10.  The assembled context is the concatenation of the segments
    the loop appended; at most one of them is truncated, and a truncated
    one is the last: after it the counter stands at the budget plus the
    length of the mark, so the next turn finds no space and the loop
    stops. *)
Theorem truncation_ends_assembly (budget : Z)
    (srcs : list KnowledgeSource.t) :
  assemble budget srcs
  = List.concat (map render_segment (assemble_segments budget srcs 0))
  /\ (List.length (filter seg_truncated (assemble_segments budget srcs 0))
      <= 1)%nat
  /\ forall front g back,
       assemble_segments budget srcs 0 = front ++ g :: back ->
       seg_truncated g = true ->
       back = []
       /\ snd (assemble_loop budget srcs [] 0)
          = budget + strlen TRUNCATION_MARK
       /\ (forall later,
             assemble_segments budget later
               (snd (assemble_loop budget srcs [] 0)) = [])
       /\ exists cut, seg_text g = cut ++ TRUNCATION_MARK.
Proof.
  split; [|split].
  - unfold assemble. now rewrite assemble_loop_segments.
  - apply at_most_one_truncated.
  - intros front g back Hseg Hg. rewrite TRUNCATION_MARK_length.
    destruct (truncated_segment_last budget srcs [] 0 front g back Hseg Hg)
      as (Hback & Hused & Hcut).
    repeat split; try assumption.
    intros later. rewrite Hused. apply assemble_segments_exhausted. lia.
Qed.

Lemma truncation_ends_assembly_witness :
  let srcs := [Sample.long_doc; Sample.doc "d2" "b.txt" "config" "hello"] in
  let g := {| seg_source := Sample.long_doc;
              seg_text := sourceText 281 Sample.long_doc;
              seg_truncated := true |} in
  assemble_segments 350 srcs 0 = [] ++ g :: []
  /\ seg_truncated g = true
  /\ snd (assemble_loop 350 srcs [] 0) = 350 + strlen TRUNCATION_MARK.
Proof.
  intros srcs g.
  assert (Hseg : assemble_segments 350 srcs 0 = [] ++ g :: [])
    by (vm_compute; reflexivity).
  assert (Hg : seg_truncated g = true) by reflexivity.
  split; [exact Hseg|]. split; [exact Hg|].
  exact (proj1 (proj2 (proj2 (proj2 (truncation_ends_assembly 350 srcs))
                         [] g [] Hseg Hg))).
Defined.

End AssemblerFacts.

(* ================================================================== *)
(** ** Tables: row labels and the repeated header                      *)
(* ================================================================== *)

Module CsvFacts.
Import GeminiService.









(** A document that fits is appended with exactly that text between its
    sentinels. *)
Lemma whole_segment_text budget srcs used g :
  In g (assemble_segments budget srcs used) ->
  seg_truncated g = false ->
  seg_text g = processedContent (seg_source g).
Proof.
  revert used. induction srcs as [|s rest IH]; intros used Hin Hg.
  - destruct Hin.
  - rewrite AssemblerFacts.assemble_segments_cons in Hin.
    destruct (availableSpace budget used s <=? 200); [destruct Hin|].
    destruct Hin as [<- | Hin]; [|eapply IH; eassumption].
    cbn [seg_truncated seg_text seg_source] in *.
    apply AssemblerFacts.sourceText_whole.
    rewrite Z.gtb_ltb in Hg. now apply Z.ltb_ge in Hg.
Qed.

End CsvFacts.

(* ================================================================== *)
(** ** [analyzeData]: the precondition, the history and the outcome    *)
(* ================================================================== *)

Module AnalysisFacts.
Import GeminiService.

(** The client cannot be built: the handler answers, nothing is sent. *)
Lemma analyzeData_no_client env query history srcs e :
  newGoogleGenAI env = Throw e ->
  analyzeData env query history srcs
  = (Ok (ANALYSIS_FAILED ++ error_text e), []).
Proof.
  intros H. unfold analyzeData, try_catch, bind, lift, ret. rewrite H.
  destruct e; reflexivity.
Qed.

Lemma analyzeData_no_sources env query history srcs :
  newGoogleGenAI env = Ok tt ->
  validSources srcs = [] ->
  analyzeData env query history srcs = (Ok NO_VALID_SOURCES, []).
Proof.
  intros H Hv. unfold analyzeData, try_catch, bind, lift, ret.
  rewrite H, Hv. reflexivity.
Qed.

(** With a client and at least one valid document exactly one request
    is sent; its answer, or the text of its failure, is returned. *)
Lemma analyzeData_request env query history srcs :
  newGoogleGenAI env = Ok tt ->
  validSources srcs <> [] ->
  analyzeData env query history srcs
  = (match generateContent env
             (analysis_request query history (validSources srcs)) with
     | Ok response_text => Ok (or_else response_text NO_MATCH)
     | Throw e => Ok (ANALYSIS_FAILED ++ error_text e)
     end,
     [analysis_request query history (validSources srcs)]).
Proof.
  intros H Hv. unfold analyzeData, try_catch, bind, lift, ret, call.
  rewrite H. destruct (validSources srcs) as [|v vs] eqn:E; [congruence|].
  cbn [List.length Nat.eqb].
  destruct (generateContent env _) as [t|e]; [reflexivity|].
  destruct e; reflexivity.
Qed.

(** [analyzeData] never rejects, and it sends at most the one analysis
    request. *)
Lemma analyzeData_total env query history srcs :
  exists reply,
    fst (analyzeData env query history srcs) = Ok reply
    /\ (snd (analyzeData env query history srcs) = []
        \/ snd (analyzeData env query history srcs)
           = [analysis_request query history (validSources srcs)])
    /\ forall req e,
         In req (snd (analyzeData env query history srcs)) ->
         generateContent env req = Throw e ->
         reply = ANALYSIS_FAILED ++ error_text e.
Proof.
  destruct (newGoogleGenAI env) as [[]|e0] eqn:Hc.
  - destruct (validSources srcs) as [|v vs] eqn:Hv.
    + rewrite analyzeData_no_sources by assumption.
      eexists; split; [reflexivity|]. split; [now left|].
      intros req e [].
    + rewrite analyzeData_request by (assumption || congruence).
      rewrite Hv.
      destruct (generateContent env (analysis_request query history (v :: vs)))
        as [t|e1] eqn:Hg; cbn [fst snd];
        (eexists; split; [reflexivity|]; split; [now right|]);
        intros req e [<-|[]] Hreq; congruence.
  - rewrite (analyzeData_no_client _ _ _ _ e0) by assumption.
    eexists; split; [reflexivity|]. split; [now left|].
    intros req e [].
Qed.

(** C4, as the code has it.  When no document is left after dropping
    those with empty content, [analyzeData] sends no request to the
    model, whatever the query and the history.  The client object is
    built first, inside the [try]: when that succeeds the reply is the
    fixed message saying that there is no valid document, and when it
    throws the reply is the failure text with the message of the
    exception. *)
Theorem no_valid_sources_no_remote_call (env : Env) (query : jsstring)
    (history : list ChatMessage.t) (srcs : list KnowledgeSource.t) :
  validSources srcs = [] ->
  snd (analyzeData env query history srcs) = []
  /\ (newGoogleGenAI env = Ok tt ->
      fst (analyzeData env query history srcs)
      = Ok (lit "⚠️ 知识库当前没有可供分析的有效文档，请在知识库分区导入资料。"))
  /\ (forall e,
        newGoogleGenAI env = Throw e ->
        fst (analyzeData env query history srcs)
        = Ok (lit "❌ 深度分析失败: "
                ++ match e with
                   | JsError message => message
                   | NonError => lit "未知错误"
                   end))
  /\ (forall s, In s srcs -> KnowledgeSource.content s = []).
Proof.
  intros Hv. split; [|split; [|split]].
  - destruct (newGoogleGenAI env) as [[]|e0] eqn:Hc.
    + now rewrite analyzeData_no_sources.
    + now rewrite (analyzeData_no_client _ _ _ _ e0).
  - intros Hc. now rewrite analyzeData_no_sources.
  - intros e Hc. rewrite (analyzeData_no_client _ _ _ _ e) by assumption.
    destruct e; reflexivity.
  - intros s Hin. destruct (KnowledgeSource.content s) as [|c r] eqn:E;
      [reflexivity|].
    assert (In s (validSources srcs)) as Hs.
    { apply filter_In. split; [assumption|]. now rewrite E. }
    rewrite Hv in Hs. destruct Hs.
Qed.

Lemma no_valid_sources_no_remote_call_witness :
  let srcs := [Sample.doc "d1" "empty.csv" "config" ""] in
  snd (analyzeData Sample.env_up (lit "compare prices") [] srcs) = []
  /\ fst (analyzeData Sample.env_up (lit "compare prices") [] srcs)
     = Ok (lit "⚠️ 知识库当前没有可供分析的有效文档，请在知识库分区导入资料。").
Proof.
  intros srcs.
  pose proof (no_valid_sources_no_remote_call Sample.env_up
                (lit "compare prices") [] srcs eq_refl) as (H1 & H2 & _).
  split; [exact H1 | exact (H2 eq_refl)].
Defined.

(** C4 as the specification states it fails when the client cannot be
    built: no document is selected, yet the reply is not the message
    about documents but the failure text, with the message of the
    exception thrown by the constructor. *)
Lemma no_valid_sources_client_failure :
  validSources [] = []
  /\ analyzeData Sample.env_no_client (lit "compare prices") [] []
     = (Ok (lit "❌ 深度分析失败: API key missing"), [])
  /\ fst (analyzeData Sample.env_no_client (lit "compare prices") [] [])
     <> Ok (lit "⚠️ 知识库当前没有可供分析的有效文档，请在知识库分区导入资料。").
Proof.
  split; [reflexivity|]. split; [vm_compute; reflexivity|].
  vm_compute. discriminate.
Qed.

Lemma PROMPT_HISTORY_text :
  PROMPT_HISTORY = NL ++ NL ++ lit "【对话历史】" ++ NL.
Proof. vm_compute. reflexivity. Qed.

Lemma PROMPT_ALGORITHM_text :
  exists a,
    PROMPT_ALGORITHM = NL ++ NL ++ lit "【执行算法：全量坐标扫描】" ++ a.
Proof.
  exists (skipn (Z.to_nat (2 + strlen (lit "【执行算法：全量坐标扫描】")))
                PROMPT_ALGORITHM).
  vm_compute. reflexivity.
Qed.

Lemma last_six (history : list ChatMessage.t) :
  slice_from (-6) history = skipn (List.length history - 6) history.
Proof. apply (slice_from_last 6 history). lia. Qed.

Lemma last_six_of_longer (older recent : list ChatMessage.t) :
  List.length recent = 6%nat ->
  skipn (List.length (older ++ recent) - 6) (older ++ recent) = recent.
Proof.
  intros Hsix. rewrite length_app.
  replace (List.length older + List.length recent - 6)%nat
    with (List.length older + 0)%nat by lia.
  rewrite skipn_app, Nat.add_0_r, Nat.sub_diag.
  rewrite (skipn_all2 older) by lia. reflexivity.
Qed.

(** C8.  The prompt built for a log holds, between the heading of the
    history and the heading of the algorithm, one line for each of the
    last [min(n, 6)] messages of the log, in order, each with the name
    of its role, a colon and its text; everything else in the prompt is
    the same whatever the log is.  That prompt is the one sent when
    there is a client and a valid document.  The messages before the
    last six are dropped: they have no effect on the request that is
    sent nor on the reply. *)
Theorem history_limited_to_last_six (query : jsstring)
    (valid : list KnowledgeSource.t) :
  exists before after,
    (exists b, before = b ++ NL ++ NL ++ lit "【对话历史】" ++ NL)
    /\ (exists a,
          after = NL ++ NL ++ lit "【执行算法：全量坐标扫描】" ++ a)
    /\ (forall history,
          let recent := skipn (List.length history - 6) history in
          List.length recent = Nat.min (List.length history) 6
          /\ history = firstn (List.length history - 6) history ++ recent
          /\ analysis_request query history valid
             = {| model_name := lit "gemini-3-pro-preview";
                  contents :=
                    Prompt
                      (before
                         ++ join NL
                              (map (fun h =>
                                      match ChatMessage.role h with
                                      | user => lit "用户"
                                      | model => lit "你"
                                      end ++ lit ": " ++ ChatMessage.text h)
                                   recent)
                         ++ after);
                  config := Sampling 0 32768 |})
    /\ (forall env srcs history,
          newGoogleGenAI env = Ok tt ->
          validSources srcs = valid ->
          valid <> [] ->
          snd (analyzeData env query history srcs)
          = [analysis_request query history valid])
    /\ (forall env srcs older older' recent,
          List.length recent = 6%nat ->
          analyzeData env query (older ++ recent) srcs
          = analyzeData env query (older' ++ recent) srcs).
Proof.
  exists (PROMPT_HEAD ++ assemble MAX_TOTAL_CHARS valid ++ PROMPT_HISTORY),
         (PROMPT_ALGORITHM ++ query).
  split; [|split; [|split; [|split]]].
  - exists (PROMPT_HEAD ++ assemble MAX_TOTAL_CHARS valid).
    rewrite PROMPT_HISTORY_text. now rewrite <- !app_assoc.
  - destruct PROMPT_ALGORITHM_text as [a ->]. exists (a ++ query).
    now rewrite <- !app_assoc.
  - intros history recent.
    split; [unfold recent; rewrite length_skipn; lia|].
    split; [symmetry; apply firstn_skipn|].
    unfold analysis_request, prompt, chatHistoryText.
    rewrite last_six. fold recent.
    change (map history_line recent)
      with (map (fun h =>
                   match ChatMessage.role h with
                   | user => lit "用户"
                   | model => lit "你"
                   end ++ lit ": " ++ ChatMessage.text h) recent).
    now rewrite <- !app_assoc.
  - intros env srcs history Hc <- Hv.
    now rewrite analyzeData_request by assumption.
  - intros env srcs older older' recent Hsix.
    assert (Hreq : analysis_request query (older ++ recent)
                     (validSources srcs)
                   = analysis_request query (older' ++ recent)
                       (validSources srcs)).
    { unfold analysis_request, chatHistoryText.
      now rewrite !last_six, !last_six_of_longer. }
    unfold analyzeData. cbv zeta. now rewrite Hreq.
Qed.

Lemma history_limited_to_last_six_witness :
  let history :=
    [ Sample.message user "q1"; Sample.message model "a1";
      Sample.message user "q2"; Sample.message model "a2";
      Sample.message user "q3"; Sample.message model "a3";
      Sample.message user "q4"; Sample.message model "a4" ] in
  let docs := [Sample.doc "d1" "a.txt" "config" "hello"] in
  exists before after,
    snd (analyzeData Sample.env_up (lit "compare prices") history docs)
    = [ {| model_name := lit "gemini-3-pro-preview";
           contents :=
             Prompt
               (before
                  ++ join NL
                       [ lit "用户" ++ lit ": " ++ lit "q2";
                         lit "你" ++ lit ": " ++ lit "a2";
                         lit "用户" ++ lit ": " ++ lit "q3";
                         lit "你" ++ lit ": " ++ lit "a3";
                         lit "用户" ++ lit ": " ++ lit "q4";
                         lit "你" ++ lit ": " ++ lit "a4" ]
                  ++ after);
           config := Sampling 0 32768 |} ].
Proof.
  intros history docs.
  assert (Hc : newGoogleGenAI Sample.env_up = Ok tt) by reflexivity.
  assert (Hd : validSources docs = docs) by (vm_compute; reflexivity).
  assert (Hv : docs <> []) by discriminate.
  destruct (history_limited_to_last_six (lit "compare prices") docs)
    as (before & after & _ & _ & Hreq & Hsent & _).
  exists before, after.
  rewrite (Hsent Sample.env_up docs history Hc Hd Hv).
  destruct (Hreq history) as (_ & _ & ->). reflexivity.
Defined.

End AnalysisFacts.

(* ================================================================== *)
(** ** One analysis turn and the conversation log                      *)
(* ================================================================== *)

Module TurnFacts.
Import GeminiService.

(** C5.  A turn whose query is not blank, started while no other turn
    is pending, leaves the log extended by exactly two messages: the
    user's message with the query, then one model message.  The user's
    message is in the log before the call resolves; the model message
    carries the returned text, which is the inline error text when the
    request to the model was rejected.  At most one request is sent. *)
Theorem turn_appends_user_then_model (env : Env) (amb : Ambient)
    (st : AppState) :
  trim (query st) <> [] ->
  isAnalyzing st = false ->
  exists reply,
    chatHistory (fst (App.handleSendMessage env amb st))
    = chatHistory st
        ++ [ {| ChatMessage.id := now amb 0; ChatMessage.role := user;
                ChatMessage.text := query st;
                ChatMessage.timestamp := now amb 1;
                ChatMessage.isThinking := None |};
             {| ChatMessage.id := now amb 2 + 1; ChatMessage.role := model;
                ChatMessage.text := reply;
                ChatMessage.timestamp := now amb 3;
                ChatMessage.isThinking := None |} ]
    /\ chatHistory (App.send_begin amb st)
       = chatHistory st
           ++ [ {| ChatMessage.id := now amb 0; ChatMessage.role := user;
                   ChatMessage.text := query st;
                   ChatMessage.timestamp := now amb 1;
                   ChatMessage.isThinking := None |} ]
    /\ (List.length (snd (App.handleSendMessage env amb st)) <= 1)%nat
    /\ isAnalyzing (fst (App.handleSendMessage env amb st)) = false
    /\ forall req e,
         In req (snd (App.handleSendMessage env amb st)) ->
         generateContent env req = Throw e ->
         reply = ANALYSIS_FAILED ++ error_text e.
Proof.
  intros Hq Hidle.
  destruct (AnalysisFacts.analyzeData_total env (query st) (chatHistory st)
              (App.analysisSources st)) as (reply & Hreply & Hsent & Herr).
  exists reply. unfold App.handleSendMessage.
  destruct (trim (query st)) as [|c r] eqn:Et; [congruence|].
  rewrite Hidle. cbn [truthy negb orb].
  destruct (analyzeData env (query st) (chatHistory st)
              (App.analysisSources st)) as [outcome sent] eqn:Ea.
  cbn [fst snd] in *. subst outcome.
  split; [|split; [|split; [|split]]].
  - cbn. now rewrite <- app_assoc.
  - reflexivity.
  - destruct Hsent as [-> | ->]; cbn; lia.
  - reflexivity.
  - exact Herr.
Qed.

Lemma turn_appends_user_then_model_witness :
  let st := Sample.state [Sample.doc "d1" "a.txt" "config" "hello"]
                         "compare prices" in
  exists reply,
    chatHistory (fst (App.handleSendMessage Sample.env_down Sample.amb st))
    = [] ++ [ {| ChatMessage.id := 1000; ChatMessage.role := user;
                 ChatMessage.text := lit "compare prices";
                 ChatMessage.timestamp := 1001;
                 ChatMessage.isThinking := None |};
              {| ChatMessage.id := 1002 + 1; ChatMessage.role := model;
                 ChatMessage.text := reply;
                 ChatMessage.timestamp := 1003;
                 ChatMessage.isThinking := None |} ]
    /\ reply = ANALYSIS_FAILED ++ lit "fetch failed".
Proof.
  intros st.
  destruct (turn_appends_user_then_model Sample.env_down Sample.amb st)
    as (reply & Hlog & _ & _ & _ & Herr).
  - vm_compute. discriminate.
  - reflexivity.
  - exists reply. split; [exact Hlog|].
    apply (Herr (analysis_request (query st) (chatHistory st)
                   (validSources (App.analysisSources st)))
                (JsError (lit "fetch failed"))).
    + vm_compute. left. reflexivity.
    + reflexivity.
Defined.

(** A blank query, or a turn still pending, leaves everything as it is. *)
Lemma blank_query_ignored env amb st :
  trim (query st) = [] \/ isAnalyzing st = true ->
  App.handleSendMessage env amb st = (st, []).
Proof.
  intros [H | H]; unfold App.handleSendMessage; rewrite H;
    [reflexivity|]. now rewrite orb_true_r.
Qed.

(** With no partition ticked no document is a candidate, and a turn
    sends nothing to the model. *)
Lemma turn_without_partitions env amb st :
  selectedAnalysisPartitions st = [] ->
  App.analysisSources st = []
  /\ snd (App.handleSendMessage env amb st) = [].
Proof.
  intros Hsel.
  assert (Hnone : App.analysisSources st = []).
  { unfold App.analysisSources. rewrite Hsel. cbn [existsb].
    induction (sources st) as [|s r IH]; [reflexivity | exact IH]. }
  split; [exact Hnone|]. unfold App.handleSendMessage.
  destruct (negb (truthy (trim (query st))) || isAnalyzing st);
    [reflexivity|].
  rewrite Hnone.
  destruct (newGoogleGenAI env) as [[]|e0] eqn:Hc.
  - now rewrite AnalysisFacts.analyzeData_no_sources.
  - now rewrite (AnalysisFacts.analyzeData_no_client _ _ _ _ e0).
Qed.

End TurnFacts.

(* ================================================================== *)
(** ** Ingestion: local decoding and the remote classification         *)
(* ================================================================== *)

Module IngestFacts.
Import GeminiService.

(** What [atob] rejects, [safeBase64ToText] rejects too: its handler
    calls [atob] again on the same input. *)
Lemma safeBase64ToText_rejects env base64 e :
  atob (to_DOMString base64) = Throw e ->
  safeBase64ToText env base64 = Throw e.
Proof. intros H. unfold safeBase64ToText. now rewrite H. Qed.

(** On an input that [atob] decodes the function returns. *)
Lemma safeBase64ToText_accepted env (base64 binaryString : jsstring) :
  atob base64 = Ok binaryString ->
  exists text,
    safeBase64ToText env (Some base64) = Ok text
    /\ (forall t,
          TextDecoder_decode env (to_Uint8Array binaryString) = Ok t ->
          text = t)
    /\ (forall e,
          TextDecoder_decode env (to_Uint8Array binaryString) = Throw e ->
          text = binaryString).
Proof.
  intros H. unfold safeBase64ToText. cbn [to_DOMString]. rewrite H.
  destruct (TextDecoder_decode env (to_Uint8Array binaryString)) as [t|e].
  - exists t. repeat split; congruence.
  - exists binaryString. repeat split; congruence.
Qed.

(** Whatever bytes a file holds, its base64 text is decoded without an
    exception: to the decoder's text, or to the bytes read as Latin-1
    when the decoder throws. *)
Lemma safeBase64ToText_of_file env (bytes : list N) :
  Forall is_byte bytes ->
  exists text,
    safeBase64ToText env (Some (base64_encode bytes)) = Ok text
    /\ (forall t, TextDecoder_decode env bytes = Ok t -> text = t)
    /\ (forall e, TextDecoder_decode env bytes = Throw e -> text = bytes).
Proof.
  intros Hb.
  pose proof (safeBase64ToText_accepted env (base64_encode bytes) bytes
                (Base64Facts.atob_base64_encode bytes Hb)) as H.
  now rewrite Base64Facts.to_Uint8Array_bytes in H.
Qed.

(** C7.  On every base64 input, that is the encoding of any sequence of
    bytes and more generally any string that [atob] decodes,
    [safeBase64ToText] returns a string whatever the UTF-8 decoder
    does: the decoded text when the decoder succeeds, and the binary
    string given by [atob] (the bytes read as Latin-1) when the decoder
    throws. *)
Theorem safeBase64ToText_returns (env : Env) :
  (forall bytes,
     Forall is_byte bytes ->
     exists text,
       safeBase64ToText env (Some (base64_encode bytes)) = Ok text
       /\ (forall t, TextDecoder_decode env bytes = Ok t -> text = t)
       /\ (forall e, TextDecoder_decode env bytes = Throw e ->
                     text = bytes))
  /\ (forall base64 binaryString,
        atob base64 = Ok binaryString ->
        exists text,
          safeBase64ToText env (Some base64) = Ok text
          /\ (forall t,
                TextDecoder_decode env (to_Uint8Array binaryString) = Ok t ->
                text = t)
          /\ (forall e,
                TextDecoder_decode env (to_Uint8Array binaryString)
                = Throw e ->
                text = binaryString)).
Proof.
  split.
  - apply safeBase64ToText_of_file.
  - apply safeBase64ToText_accepted.
Qed.

(** A decoder that always throws, to exercise the fallback. *)
Lemma safeBase64ToText_returns_witness :
  let env := {| newGoogleGenAI := Ok tt;
                generateContent := fun _ => Ok None;
                JSON_parse_summary := fun _ => Ok None;
                TextDecoder_decode := fun _ => Throw NonError |} in
  Forall is_byte [230; 149; 176]%N
  /\ exists text,
       safeBase64ToText env (Some (base64_encode [230; 149; 176]%N))
       = Ok text
       /\ text = [230; 149; 176]%N.
Proof.
  intros env.
  assert (Hb : Forall is_byte [230; 149; 176]%N)
    by (repeat constructor).
  split; [exact Hb|].
  destruct (proj1 (safeBase64ToText_returns env) _ Hb)
    as (text & Ht & _ & Hthrow).
  exists text. split; [exact Ht|]. apply (Hthrow NonError). reflexivity.
Defined.

(** The standard decoder never throws, so with it the text is the
    UTF-8 reading of the bytes. *)
Example safeBase64ToText_utf8 :
  safeBase64ToText Sample.env_up (Some (lit "5pWw5o2u")) = Ok (lit "数据").
Proof. vm_compute. reflexivity. Qed.

(** The outcomes of [extractTextFromDocument]. *)
Lemma extract_undecodable env base64Data mimeType fileName e :
  safeBase64ToText env base64Data = Throw e ->
  fst (extractTextFromDocument env base64Data mimeType fileName) = Throw e.
Proof.
  intros H. unfold extractTextFromDocument, try_catch, bind, lift, ret.
  destruct (newGoogleGenAI env) as [[]|e0]; rewrite H; reflexivity.
Qed.

Lemma extract_classification_failed env base64Data mimeType fileName text :
  safeBase64ToText env base64Data = Ok text ->
  classification_fails env base64Data mimeType ->
  fst (extractTextFromDocument env base64Data mimeType fileName)
  = Ok (text, SUMMARY_FALLBACK).
Proof.
  intros Ht Hf.
  unfold extractTextFromDocument, try_catch, bind, lift, ret, call.
  destruct (newGoogleGenAI env) as [[]|e0] eqn:Hc.
  - rewrite Ht.
    destruct Hf as [[e He] | [[e He] | (t & e & Hg & Hp)]].
    + congruence.
    + now rewrite He.
    + rewrite Hg, Hp. reflexivity.
  - rewrite Ht. reflexivity.
Qed.

Lemma extract_classified env base64Data mimeType fileName text t o :
  safeBase64ToText env base64Data = Ok text ->
  newGoogleGenAI env = Ok tt ->
  generateContent env (summary_request base64Data mimeType) = Ok t ->
  JSON_parse_summary env (or_else t (lit "{}")) = Ok o ->
  fst (extractTextFromDocument env base64Data mimeType fileName)
  = Ok (text, or_else o SUMMARY_DEFAULT).
Proof.
  intros Ht Hc Hg Hp.
  unfold extractTextFromDocument, try_catch, bind, lift, ret, call.
  rewrite Hc, Ht, Hg, Hp. reflexivity.
Qed.

Lemma reader_onload_sources env placeholder file readerResult st :
  sources (fst (App.reader_onload env placeholder file readerResult st))
  = match fst (extractTextFromDocument env
                 (nth_error (split 44%N readerResult) 1)
                 (App.mimeTypeOf file) (File.name file)) with
    | Ok (text, summary) =>
        patched (KnowledgeSource.id placeholder)
          (fun s => KnowledgeSource.with_result s text summary COMPLETED)
          (sources st)
    | Throw _ =>
        patched (KnowledgeSource.id placeholder)
          (fun s => KnowledgeSource.with_failure s App.MOUNT_FAILED ERROR)
          (sources st)
    end.
Proof.
  unfold App.reader_onload.
  destruct (extractTextFromDocument env _ _ _) as [[[text summary]|e] sent];
    reflexivity.
Qed.

Lemma classification_failed_patch env placeholder file readerResult base64
    text st :
  nth_error (split 44%N readerResult) 1 = Some base64 ->
  safeBase64ToText env (Some base64) = Ok text ->
  classification_fails env (Some base64) (App.mimeTypeOf file) ->
  sources (fst (App.reader_onload env placeholder file readerResult st))
  = patched (KnowledgeSource.id placeholder)
      (fun s => KnowledgeSource.with_result s text SUMMARY_FALLBACK COMPLETED)
      (sources st).
Proof.
  intros Hb Ht Hf. rewrite reader_onload_sources, Hb.
  now rewrite (extract_classification_failed _ _ _ _ text).
Qed.

(** C1, as the code has it.  When the remote classification of a file
    fails and the base64 text of its data URL decodes, the placeholder
    of the file receives the locally decoded text as its content and the
    fallback summary, and its status becomes COMPLETED; the other
    documents are left as they are. *)
Theorem failed_classification_keeps_text (env : Env)
    (placeholder : KnowledgeSource.t) (file : File.t)
    (readerResult base64 text : jsstring) (st : AppState) :
  nth_error (split 44%N readerResult) 1 = Some base64 ->
  safeBase64ToText env (Some base64) = Ok text ->
  classification_fails env (Some base64) (App.mimeTypeOf file) ->
  sources (fst (App.reader_onload env placeholder file readerResult st))
  = patched (KnowledgeSource.id placeholder)
      (fun s => KnowledgeSource.with_result s text SUMMARY_FALLBACK COMPLETED)
      (sources st)
  /\ forall s,
       KnowledgeSource.content
         (KnowledgeSource.with_result s text SUMMARY_FALLBACK COMPLETED)
       = text
       /\ KnowledgeSource.summary
            (KnowledgeSource.with_result s text SUMMARY_FALLBACK COMPLETED)
          = Some SUMMARY_FALLBACK
       /\ KnowledgeSource.status
            (KnowledgeSource.with_result s text SUMMARY_FALLBACK COMPLETED)
          = COMPLETED.
Proof.
  intros Hb Ht Hf. split; [|intros s; repeat split].
  now apply (classification_failed_patch env placeholder file readerResult
               base64 text st).
Qed.

Lemma failed_classification_keeps_text_witness :
  sources (fst (App.reader_onload Sample.env_down Sample.placeholder
                  Sample.text_file Sample.data_url Sample.uploading))
  = patched (KnowledgeSource.id Sample.placeholder)
      (fun s => KnowledgeSource.with_result s (lit "hi") SUMMARY_FALLBACK
                  COMPLETED)
      (sources Sample.uploading).
Proof.
  apply (failed_classification_keeps_text Sample.env_down Sample.placeholder
           Sample.text_file Sample.data_url (lit "aGk=") (lit "hi")
           Sample.uploading).
  - vm_compute. reflexivity.
  - vm_compute. reflexivity.
  - right. left. eexists. reflexivity.
Defined.

(** The same from the bytes of the file: with the standard decoder the
    content is the UTF-8 reading of the bytes. *)
Lemma failed_classification_of_file env placeholder file readerType bytes st :
  no_comma readerType ->
  Forall is_byte bytes ->
  TextDecoder_decode env = (fun b => Ok (TextDecoder_utf8 b)) ->
  classification_fails env (Some (base64_encode bytes))
    (App.mimeTypeOf file) ->
  sources (fst (App.reader_onload env placeholder file
                  (readAsDataURL readerType bytes) st))
  = patched (KnowledgeSource.id placeholder)
      (fun s => KnowledgeSource.with_result s (TextDecoder_utf8 bytes)
                  SUMMARY_FALLBACK COMPLETED)
      (sources st).
Proof.
  intros Hm Hb Hd Hf.
  destruct (safeBase64ToText_of_file env bytes Hb) as (text & Ht & Hok & _).
  rewrite (Hok (TextDecoder_utf8 bytes)) in Ht by now rewrite Hd.
  apply (classification_failed_patch env placeholder file _
           (base64_encode bytes) (TextDecoder_utf8 bytes) st);
    try assumption.
  now apply DataUrlFacts.base64_of_data_url.
Qed.

(** An empty file has an empty text, and so an empty content. *)
Example failed_classification_empty_file :
  map KnowledgeSource.content
    (sources (fst (App.reader_onload Sample.env_down Sample.placeholder
                     Sample.text_file (readAsDataURL (lit "text/plain") [])
                     Sample.uploading)))
  = [[]].
Proof. vm_compute. reflexivity. Qed.

(** C1 as the specification states it fails: the request for the
    summary of [note.txt] is rejected, yet the document ends up with its
    text, the fallback summary and the status COMPLETED, not ERROR. *)
Lemma failed_classification_not_error :
  let after :=
    sources (fst (App.reader_onload Sample.env_down Sample.placeholder
                    Sample.text_file Sample.data_url Sample.uploading)) in
  generateContent Sample.env_down
    (summary_request (Some (lit "aGk=")) (lit "text/plain"))
  = Throw (JsError (lit "fetch failed"))
  /\ map KnowledgeSource.content after = [lit "hi"]
  /\ map KnowledgeSource.summary after = [Some SUMMARY_FALLBACK]
  /\ map KnowledgeSource.status after = [COMPLETED]
  /\ ~ In ERROR (map KnowledgeSource.status after).
Proof.
  vm_compute. repeat split. intros [H | []]. discriminate.
Qed.

(** ERROR is the status of a file whose data cannot be decoded at all,
    whatever the service does; its content is not touched. *)
Lemma undecodable_file_marked_error env placeholder file readerResult st e :
  atob (to_DOMString (nth_error (split 44%N readerResult) 1)) = Throw e ->
  sources (fst (App.reader_onload env placeholder file readerResult st))
  = patched (KnowledgeSource.id placeholder)
      (fun s => KnowledgeSource.with_failure s App.MOUNT_FAILED ERROR)
      (sources st).
Proof.
  intros H. rewrite reader_onload_sources.
  now rewrite (extract_undecodable _ _ _ _ e)
    by now apply safeBase64ToText_rejects.
Qed.

End IngestFacts.

(* ================================================================== *)
(** ** The document store: partitions and content kinds                *)
(* ================================================================== *)

Module StoreFacts.

Lemma Forall_mapi_from {A B : Type} (P : B -> Prop) (f : A -> nat -> B)
    (l : list A) :
  (forall x i, P (f x i)) -> forall i, Forall P (mapi_from f i l).
Proof.
  intros H. induction l as [|x r IH]; intros i; cbn [mapi_from];
    constructor; auto.
Qed.

Lemma targetPartition_not_all (partitionId : jsstring) :
  App.targetPartition partitionId <> App.ALL.
Proof.
  unfold App.targetPartition.
  destruct (Js.eqb partitionId App.ALL) eqn:E; cbn [orb].
  - discriminate.
  - destruct (negb (truthy partitionId)); [discriminate|].
    intros H. apply eqb_eq in H. congruence.
Qed.

Lemma targetPartition_all : App.targetPartition App.ALL = App.UNCATEGORIZED.
Proof. reflexivity. Qed.

Lemma filePlaceholders_partition amb st fs partitionId :
  Forall (fun s => KnowledgeSource.partitionId s
                   = App.targetPartition partitionId)
         (App.filePlaceholders amb st fs partitionId).
Proof.
  unfold App.filePlaceholders, mapi. apply Forall_mapi_from.
  intros x i. reflexivity.
Qed.

Lemma processFiles_never_all amb rendered fs partitionId st :
  never_all (sources st) ->
  never_all (sources (App.processFiles amb rendered fs partitionId st)).
Proof.
  intros Hinv. unfold never_all, App.processFiles.
  cbn [sources setSources]. apply Forall_app. split; [exact Hinv|].
  eapply Forall_impl; [|apply filePlaceholders_partition].
  intros s ->. apply targetPartition_not_all.
Qed.

Lemma patched_never_all pid patch store :
  (forall s, KnowledgeSource.partitionId (patch s)
             = KnowledgeSource.partitionId s) ->
  never_all store -> never_all (patched pid patch store).
Proof.
  intros Hp Hinv. unfold never_all, patched. apply Forall_map.
  revert Hinv. apply Forall_impl. intros s Hs.
  destruct (Js.eqb (KnowledgeSource.id s) pid); [|exact Hs].
  now rewrite Hp.
Qed.

(** A drop on the row of "all" changes no document of the store. *)
Lemma drop_on_all_keeps_store amb rendered p e st :
  Partition.id p = App.ALL ->
  exists added,
    sources (App.partition_onDrop amb rendered p e st) = sources st ++ added
    /\ Forall (fun s => KnowledgeSource.partitionId s = App.UNCATEGORIZED)
              added.
Proof.
  intros Hp. unfold App.partition_onDrop. rewrite Hp, eqb_refl.
  rewrite andb_false_r.
  destruct (0 <? List.length (files e))%nat.
  - exists (App.filePlaceholders amb rendered (files e) App.ALL). split.
    + destruct (viewMode rendered); reflexivity.
    + rewrite <- targetPartition_all. apply filePlaceholders_partition.
  - exists []. split; [now rewrite app_nil_r | constructor].
Qed.

Lemma partition_onDrop_never_all amb rendered p e st :
  never_all (sources st) ->
  never_all (sources (App.partition_onDrop amb rendered p e st)).
Proof.
  intros Hinv. unfold App.partition_onDrop.
  destruct (truthy (sourceId e) && negb (Js.eqb (Partition.id p) App.ALL))
    eqn:G.
  - apply andb_true_iff in G as [_ G]. apply negb_true_iff in G.
    cbn [sources setCurrentPartitionId setSources].
    apply Forall_map. revert Hinv. apply Forall_impl. intros s Hs.
    destruct (Js.eqb (KnowledgeSource.id s) (sourceId e)); [|exact Hs].
    cbn [KnowledgeSource.partitionId KnowledgeSource.with_partitionId].
    intros H. apply eqb_eq in H. congruence.
  - destruct (0 <? List.length (files e))%nat; [|exact Hinv].
    pose proof (processFiles_never_all amb rendered (files e) (Partition.id p)
                  st Hinv).
    destruct (viewMode rendered); assumption.
Qed.

Lemma handle_never_all amb rendered ev st :
  from_dialog ev ->
  never_all (sources st) -> never_all (sources (handle amb rendered ev st)).
Proof.
  intros Hev Hinv. destruct ev as [p e | fs | fs pid | u p | env ph f rr | id];
    cbn [handle from_dialog] in *.
  - now apply partition_onDrop_never_all.
  - unfold App.window_onDrop.
    destruct (0 <? List.length fs)%nat; [|exact Hinv].
    now apply processFiles_never_all.
  - now apply processFiles_never_all.
  - unfold never_all, App.onLinkAdd. cbn [sources setSources].
    apply Forall_app. split; [exact Hinv|]. now repeat constructor.
  - rewrite IngestFacts.reader_onload_sources.
    destruct (fst (GeminiService.extractTextFromDocument env _ _ _))
      as [[text summary]|err];
      apply patched_never_all; auto.
  - unfold never_all, App.deleteSource. cbn [sources setSources].
    apply Forall_forall. intros s Hs. apply filter_In in Hs as [Hs _].
    unfold never_all in Hinv. rewrite Forall_forall in Hinv. now apply Hinv.
Qed.

Lemma run_never_all amb evs :
  forall st,
    Forall (fun re => from_dialog (snd re)) evs ->
    never_all (sources st) -> never_all (sources (run amb evs st)).
Proof.
  induction evs as [|[rendered ev] rest IH]; intros st Hevs Hinv;
    [exact Hinv|].
  apply Forall_cons_iff in Hevs as [Hev Hrest]. cbn [run].
  apply IH; [exact Hrest|]. now apply handle_never_all.
Qed.

(** C6, as the code has it.  A drop on the row of the partition "all"
    reassigns nothing: every document already in the store is kept as
    it is, and the files dropped with it, if any, are added under
    "uncategorized".  No event gives a document the partition id "all":
    a store free of it stays free of it through any sequence of drops,
    uploads, added links, finished readings and deletions, whatever
    render the handler of each event belongs to. *)
Theorem drop_never_assigns_all (amb : Ambient) :
  (forall rendered p e st,
     Partition.id p = App.ALL ->
     exists added,
       sources (App.partition_onDrop amb rendered p e st)
       = sources st ++ added
       /\ Forall (fun s => KnowledgeSource.partitionId s = App.UNCATEGORIZED)
                 added)
  /\ (forall evs st,
        Forall (fun re => from_dialog (snd re)) evs ->
        never_all (sources st) ->
        never_all (sources (run amb evs st))).
Proof.
  split.
  - intros rendered p e st. apply drop_on_all_keeps_store.
  - intros evs st. apply run_never_all.
Qed.

Lemma drop_never_assigns_all_witness :
  let st := Sample.state [Sample.doc "d1" "a.txt" "config" "hello"] "" in
  let e := {| sourceId := lit "d1"; files := [Sample.text_file] |} in
  (exists added,
     sources (App.partition_onDrop Sample.amb st Sample.all_partition e st)
     = sources st ++ added
     /\ Forall (fun s => KnowledgeSource.partitionId s = App.UNCATEGORIZED)
               added)
  /\ never_all
       (sources (run Sample.amb
                   [ (st, PartitionDrop Sample.all_partition e);
                     (st, LinkAdd (lit "https://example.org") (lit "reports"));
                     (st, WindowDrop [Sample.text_file]);
                     (st, Delete (lit "d1")) ] st)).
Proof.
  intros st e.
  destruct (drop_never_assigns_all Sample.amb) as [H1 H2].
  split.
  - apply H1. reflexivity.
  - apply H2.
    + repeat constructor; vm_compute; discriminate.
    + repeat constructor. vm_compute. discriminate.
Defined.

(** C6 as the specification states it fails: the card of a document
    filed under "config" is dropped on "all"; the document is still under
    "config" afterwards, not under "uncategorized". *)
Lemma drop_on_all_not_uncategorized :
  let st := Sample.state [Sample.doc "d1" "a.txt" "config" "hello"] "" in
  let e := {| sourceId := lit "d1"; files := [] |} in
  map KnowledgeSource.partitionId
      (sources (App.partition_onDrop Sample.amb st Sample.all_partition e st))
  = [lit "config"]
  /\ ~ In App.UNCATEGORIZED
        (map KnowledgeSource.partitionId
           (sources (App.partition_onDrop Sample.amb st Sample.all_partition
                       e st))).
Proof.
  vm_compute. split; [reflexivity|]. intros [H | []]. discriminate.
Qed.

(** The earlier handler did redirect such a drop to "uncategorized". *)
Lemma legacy_drop_on_all_redirects amb rendered (e : Legacy.DropEvent) st :
  truthy (Legacy.internal_source_id e) = true ->
  sources (Legacy.handlePartitionDrop amb rendered App.ALL e st)
  = patched (Legacy.internal_source_id e)
      (fun s => KnowledgeSource.with_partitionId s App.UNCATEGORIZED)
      (sources st).
Proof.
  intros H. unfold Legacy.handlePartitionDrop. rewrite H, eqb_refl.
  reflexivity.
Qed.

(** The content kind given to a placeholder. *)
Lemma sourceTypeOf_cases (fileName : jsstring) :
  (endsWith (toLowerCase fileName) (lit ".pdf") = true ->
   App.sourceTypeOf fileName = PDF)
  /\ (endsWith (toLowerCase fileName) (lit ".pdf") = false ->
      endsWith fileName (lit ".csv") = true ->
      App.sourceTypeOf fileName = CSV)
  /\ (endsWith (toLowerCase fileName) (lit ".pdf") = false ->
      endsWith fileName (lit ".csv") = false ->
      App.sourceTypeOf fileName = TEXT).
Proof.
  unfold App.sourceTypeOf. repeat split; intros H1; try intros H2;
    rewrite H1; try rewrite H2; reflexivity.
Qed.

Lemma filePlaceholders_type amb st fs partitionId :
  Forall (fun s => KnowledgeSource.type s
                   = App.sourceTypeOf (KnowledgeSource.name s))
         (App.filePlaceholders amb st fs partitionId).
Proof.
  unfold App.filePlaceholders, mapi. apply Forall_mapi_from.
  intros x i. reflexivity.
Qed.

(** C9, at the input where the code departs from it.  The kind of
    [DATA.CSV] is TEXT, although its name ends in the extension [.csv]
    as the PDF test of the same expression and the CSV test of
    [analyzeData] read extensions (case ignored): [REPORT.PDF] is PDF,
    and [analyzeData] formats [DATA.CSV] as a table. *)
Theorem upper_case_csv_classified_as_text :
  App.sourceTypeOf (lit "DATA.CSV") = TEXT
  /\ App.sourceTypeOf (lit "REPORT.PDF") = PDF
  /\ App.sourceTypeOf (lit "data.csv") = CSV
  /\ App.sourceTypeOf (lit "notes.md") = TEXT
  /\ GeminiService.isCsv (Sample.doc "d1" "DATA.CSV" "config" "a,b") = true
  /\ map KnowledgeSource.type
       (App.filePlaceholders Sample.amb (Sample.state [] "")
          [ {| File.name := lit "DATA.CSV"; File.type := lit "text/csv";
               File.size := 10 |} ] (lit "sales"))
     = [TEXT].
Proof. vm_compute. repeat split. Qed.

End StoreFacts.

(* ================================================================== *)
(** ** Context assembly: order, and documents that fit                 *)
(* ================================================================== *)

Module AssemblerMore.
Import GeminiService.

Lemma assemble_loop_counts budget srcs :
  forall buf used,
    strlen buf = used ->
    strlen (fst (assemble_loop budget srcs buf used))
    = snd (assemble_loop budget srcs buf used).
Proof.
  induction srcs as [|s rest IH]; intros buf used Hlen; [exact Hlen|].
  rewrite AssemblerFacts.assemble_loop_cons.
  destruct (availableSpace budget used s <=? 200); [exact Hlen|].
  apply IH. rewrite !strlen_app. lia.
Qed.

Lemma appended_prefix budget srcs :
  forall buf used,
    exists dropped,
      srcs = map seg_source (assemble_segments budget srcs used) ++ dropped
      /\ forall s later,
           dropped = s :: later ->
           availableSpace budget
             (snd (assemble_loop budget srcs buf used)) s <= 200.
Proof.
  induction srcs as [|s rest IH]; intros buf used.
  - exists []. split; [reflexivity|]. intros s later H. discriminate.
  - rewrite AssemblerFacts.assemble_segments_cons,
      AssemblerFacts.assemble_loop_cons.
    destruct (availableSpace budget used s <=? 200) eqn:E.
    + exists (s :: rest). split; [reflexivity|].
      intros s' later H. injection H as <- _. cbn [snd].
      now apply Z.leb_le.
    + destruct (IH (buf ++ fileHeader s
                        ++ sourceText (availableSpace budget used s) s
                        ++ fileFooter s)
                   (used + strlen (fileHeader s)
                      + strlen (sourceText (availableSpace budget used s) s)
                      + strlen (fileFooter s)))
        as (dropped & Hsplit & Hfirst).
      exists dropped. split; [|exact Hfirst].
      cbn [map seg_source app]. now rewrite <- Hsplit.
Qed.

(** The documents in the context are the first ones of the list, in
    the order given: once a document is left out, so is every later
    one, and the first one left out found 200 characters or fewer of
    space behind what had been assembled. *)
Theorem assembled_documents_form_a_prefix (budget : Z)
    (srcs : list KnowledgeSource.t) :
  exists dropped,
    srcs = map seg_source (assemble_segments budget srcs 0) ++ dropped
    /\ forall s later,
         dropped = s :: later ->
         availableSpace budget (strlen (assemble budget srcs)) s <= 200.
Proof.
  destruct (appended_prefix budget srcs [] 0) as (dropped & Hsplit & Hfirst).
  exists dropped. split; [exact Hsplit|]. unfold assemble.
  rewrite assemble_loop_counts by reflexivity. exact Hfirst.
Qed.

Lemma loop_with_room budget srcs :
  forall buf used,
    used + strlen (List.concat (map rendered_whole srcs)) + 200 < budget ->
    assemble_loop budget srcs buf used
    = (buf ++ List.concat (map rendered_whole srcs),
       used + strlen (List.concat (map rendered_whole srcs))).
Proof.
  induction srcs as [|s rest IH]; intros buf used Hroom.
  - cbn. now rewrite app_nil_r, Z.add_0_r.
  - cbn [map List.concat] in *.
    change (rendered_whole s)
      with (fileHeader s ++ processedContent s ++ fileFooter s) in Hroom.
    rewrite !strlen_app in Hroom.
    pose proof (strlen_nonneg (List.concat (map rendered_whole rest))).
    pose proof (strlen_nonneg (processedContent s)).
    rewrite AssemblerFacts.assemble_loop_whole
      by (unfold availableSpace; lia).
    rewrite IH by lia.
    change (rendered_whole s)
      with (fileHeader s ++ processedContent s ++ fileFooter s).
    rewrite !strlen_app, <- !app_assoc. f_equal. lia.
Qed.

Lemma segments_with_room budget srcs :
  forall used,
    used + strlen (List.concat (map rendered_whole srcs)) + 200 < budget ->
    map seg_source (assemble_segments budget srcs used) = srcs
    /\ Forall (fun g => seg_truncated g = false)
              (assemble_segments budget srcs used).
Proof.
  induction srcs as [|s rest IH]; intros used Hroom.
  - split; [reflexivity | constructor].
  - cbn [map List.concat] in Hroom.
    change (rendered_whole s)
      with (fileHeader s ++ processedContent s ++ fileFooter s) in Hroom.
    rewrite !strlen_app in Hroom.
    pose proof (strlen_nonneg (List.concat (map rendered_whole rest))).
    pose proof (strlen_nonneg (processedContent s)).
    rewrite AssemblerFacts.assemble_segments_cons.
    destruct (availableSpace budget used s <=? 200) eqn:E;
      [apply Z.leb_le in E; unfold availableSpace in E; lia|].
    rewrite AssemblerFacts.sourceText_whole by (unfold availableSpace; lia).
    destruct (IH (used + strlen (fileHeader s) + strlen (processedContent s)
                    + strlen (fileFooter s))) as [Hsrc Hwhole]; [lia|].
    cbn [map seg_source]. rewrite Hsrc. split; [reflexivity|].
    constructor; [|exact Hwhole]. cbn [seg_truncated].
    rewrite Z.gtb_ltb. apply Z.ltb_ge. unfold availableSpace. lia.
Qed.

(** When the documents, with their sentinels, leave more than 200
    characters of the budget free, every one of them is in the context,
    whole and in order: nothing is cut and nothing is dropped. *)
Theorem documents_that_fit_are_all_kept (budget : Z)
    (srcs : list KnowledgeSource.t) :
  strlen (List.concat (map rendered_whole srcs)) + 200 < budget ->
  assemble budget srcs = List.concat (map rendered_whole srcs)
  /\ map seg_source (assemble_segments budget srcs 0) = srcs
  /\ Forall (fun g => seg_truncated g = false)
            (assemble_segments budget srcs 0).
Proof.
  intros Hroom. split.
  - unfold assemble. now rewrite loop_with_room.
  - now apply segments_with_room.
Qed.

Lemma documents_that_fit_are_all_kept_witness :
  let srcs := [ Sample.doc "d1" "a.txt" "config" "hello";
                Sample.csv_doc ] in
  assemble MAX_TOTAL_CHARS srcs = List.concat (map rendered_whole srcs).
Proof.
  intros srcs.
  apply (documents_that_fit_are_all_kept MAX_TOTAL_CHARS srcs).
  vm_compute. reflexivity.
Defined.

End AssemblerMore.

(* ================================================================== *)
(** ** The analysis call: what it always returns                       *)
(* ================================================================== *)

Module ServiceMore.
Import GeminiService.

Lemma or_else_nonempty (a : option jsstring) (b : jsstring) :
  b <> [] -> or_else a b <> [].
Proof.
  intros Hb. unfold or_else. destruct a as [[|c r]|]; cbn; congruence.
Qed.

Lemma failure_text_nonempty (e : exn) : ANALYSIS_FAILED ++ error_text e <> [].
Proof. intros H. apply (f_equal (@List.length N)) in H. discriminate. Qed.

(** [analyzeData] never rejects and never answers with an empty text.
    It sends at most one request.  Its reply is the answer of the
    model, the fixed "no match" text when that answer is empty, and the
    failure text with the message of the exception when the client
    cannot be built or the request is rejected. *)
Theorem analyzeData_always_answers (env : Env) (query : jsstring)
    (history : list ChatMessage.t) (srcs : list KnowledgeSource.t) :
  exists reply,
    fst (analyzeData env query history srcs) = Ok reply
    /\ reply <> []
    /\ (List.length (snd (analyzeData env query history srcs)) <= 1)%nat
    /\ (forall e,
          newGoogleGenAI env = Throw e ->
          reply = ANALYSIS_FAILED ++ error_text e
          /\ snd (analyzeData env query history srcs) = [])
    /\ (forall req e,
          In req (snd (analyzeData env query history srcs)) ->
          generateContent env req = Throw e ->
          reply = ANALYSIS_FAILED ++ error_text e)
    /\ (forall req answer,
          In req (snd (analyzeData env query history srcs)) ->
          generateContent env req = Ok answer ->
          reply = or_else answer NO_MATCH).
Proof.
  destruct (newGoogleGenAI env) as [[]|e0] eqn:Hc.
  - destruct (validSources srcs) as [|v vs] eqn:Hv.
    + rewrite AnalysisFacts.analyzeData_no_sources by assumption.
      exists NO_VALID_SOURCES. cbn [fst snd List.length].
      split; [reflexivity|]. split; [discriminate|]. split; [lia|].
      split; [intros e H; discriminate|].
      split; intros req x [].
    + rewrite AnalysisFacts.analyzeData_request by (assumption || congruence).
      rewrite Hv. cbn [fst snd List.length].
      destruct (generateContent env (analysis_request query history (v :: vs)))
        as [t|e1] eqn:Hg.
      * exists (or_else t NO_MATCH). split; [reflexivity|].
        split; [apply or_else_nonempty; discriminate|]. split; [lia|].
        split; [intros e H; discriminate|].
        split; intros req x [<-|[]] Hreq; congruence.
      * exists (ANALYSIS_FAILED ++ error_text e1). split; [reflexivity|].
        split; [apply failure_text_nonempty|]. split; [lia|].
        split; [intros e H; discriminate|].
        split; intros req x [<-|[]] Hreq; congruence.
  - rewrite (AnalysisFacts.analyzeData_no_client _ _ _ _ e0) by assumption.
    exists (ANALYSIS_FAILED ++ error_text e0). cbn [fst snd List.length].
    split; [reflexivity|]. split; [apply failure_text_nonempty|].
    split; [lia|]. split; [intros e H; split; congruence|].
    split; intros req x [].
Qed.

(** The reply depends on the documents only through the valid ones. *)
Lemma analyzeData_valid env query history a b :
  validSources a = validSources b ->
  analyzeData env query history a = analyzeData env query history b.
Proof. intros H. unfold analyzeData. now rewrite H. Qed.

Lemma validSources_app a b :
  validSources (a ++ b) = validSources a ++ validSources b.
Proof. unfold validSources. apply filter_app. Qed.

Lemma validSources_empty_content l :
  Forall (fun s => KnowledgeSource.content s = []) l -> validSources l = [].
Proof.
  induction 1 as [|s r Hs _ IH]; [reflexivity|].
  unfold validSources in *. cbn [filter]. rewrite Hs. cbn. exact IH.
Qed.

End ServiceMore.

(* ================================================================== *)
(** ** Ingestion: placeholders, readings that fail, readings that work *)
(* ================================================================== *)

Module IngestMore.
Import GeminiService.

Lemma mapi_from_length {A B : Type} (f : A -> nat -> B) (l : list A) :
  forall i, List.length (mapi_from f i l) = List.length l.
Proof. induction l as [|x r IH]; intros i; cbn; [reflexivity | now rewrite IH]. Qed.

Lemma mapi_from_map {A B C : Type} (f : A -> nat -> B) (g : B -> C)
    (h : A -> C) (l : list A) :
  (forall x i, g (f x i) = h x) ->
  forall i, map g (mapi_from f i l) = map h l.
Proof.
  intros H. induction l as [|x r IH]; intros i; cbn; [reflexivity|].
  now rewrite H, IH.
Qed.

Lemma mapi_from_index {A B : Type} (f : A -> nat -> B) (g : B -> Z)
    (base : Z) (l : list A) :
  (forall x i, g (f x i) = base + Z.of_nat i + 1) ->
  forall i,
    map g (mapi_from f i l)
    = map (fun k => base + Z.of_nat k + 1) (seq i (List.length l)).
Proof.
  intros H. induction l as [|x r IH]; intros i; cbn; [reflexivity|].
  now rewrite H, IH.
Qed.

Lemma filter_none {A : Type} (f : A -> bool) (l : list A) :
  Forall (fun x => f x = false) l -> filter f l = [].
Proof.
  induction 1 as [|x r Hx _ IH]; [reflexivity|]. cbn. now rewrite Hx.
Qed.

(** [processFiles] adds one placeholder per file behind the documents
    of the current store, which it leaves as they are: named after the
    files in their order, all in one partition, being processed and
    with no content yet.  Their numbers start after the size of the
    list of the render that created the handler, whatever the current
    store holds.  Having no content, the placeholders change nothing to
    what an analysis sends while the files are read. *)
Theorem pending_files_stay_out_of_analysis (amb : Ambient)
    (rendered : AppState) (chosen : list File.t) (partitionId : jsstring)
    (st : AppState) :
  let added := App.filePlaceholders amb rendered chosen partitionId in
  let st' := App.processFiles amb rendered chosen partitionId st in
  sources st' = sources st ++ added
  /\ map KnowledgeSource.name added = map File.name chosen
  /\ map KnowledgeSource.sequenceNumber added
     = map (fun k => Z.of_nat (List.length (sources rendered))
                     + Z.of_nat k + 1)
           (seq 0 (List.length chosen))
  /\ Forall (fun s => KnowledgeSource.status s = PROCESSING
                      /\ KnowledgeSource.content s = []
                      /\ KnowledgeSource.partitionId s
                         = App.targetPartition partitionId) added
  /\ forall env query history,
       analyzeData env query history (App.analysisSources st')
       = analyzeData env query history (App.analysisSources st).
Proof.
  intros added st'. split; [reflexivity|].
  split; [apply mapi_from_map; reflexivity|].
  split; [apply (mapi_from_index _ KnowledgeSource.sequenceNumber
                   (Z.of_nat (List.length (sources rendered))));
          reflexivity|].
  split.
  - apply StoreFacts.Forall_mapi_from. intros x i. repeat split.
  - intros env query history. apply ServiceMore.analyzeData_valid.
    assert (Hall : Forall (fun s => KnowledgeSource.content s = []) added)
      by (apply StoreFacts.Forall_mapi_from; reflexivity).
    unfold App.analysisSources. subst st'.
    cbn [sources App.processFiles setSources selectedAnalysisPartitions].
    rewrite filter_app, ServiceMore.validSources_app.
    rewrite (ServiceMore.validSources_empty_content (filter _ added)).
    + apply app_nil_r.
    + apply Forall_forall. intros s Hs. apply filter_In in Hs as [Hs _].
      rewrite Forall_forall in Hall. now apply Hall.
Qed.

(** A reader result without a comma has no second piece. *)
Lemma no_second_piece (readerResult : jsstring) :
  no_comma readerResult -> nth_error (split 44%N readerResult) 1 = None.
Proof.
  intros H. now rewrite DataUrlFacts.split_no_separator.
Qed.

Lemma extract_undecodable_silent env base64Data mimeType fileName e :
  safeBase64ToText env base64Data = Throw e ->
  extractTextFromDocument env base64Data mimeType fileName = (Throw e, []).
Proof.
  intros H. unfold extractTextFromDocument, try_catch, bind, lift, ret.
  destruct (newGoogleGenAI env) as [[]|e0]; rewrite H; reflexivity.
Qed.

Lemma reader_onload_undecodable env placeholder file readerResult st e :
  atob (to_DOMString (nth_error (split 44%N readerResult) 1)) = Throw e ->
  App.reader_onload env placeholder file readerResult st
  = (setSources
       (patched (KnowledgeSource.id placeholder)
          (fun s => KnowledgeSource.with_failure s App.MOUNT_FAILED ERROR))
       st, []).
Proof.
  intros H. unfold App.reader_onload.
  rewrite (extract_undecodable_silent _ _ _ _ e)
    by now apply IngestFacts.safeBase64ToText_rejects.
  reflexivity.
Qed.

Lemma patched_contents pid patch store :
  (forall s, KnowledgeSource.content (patch s) = KnowledgeSource.content s) ->
  map KnowledgeSource.content (patched pid patch store)
  = map KnowledgeSource.content store.
Proof.
  intros H. unfold patched. rewrite map_map. apply map_ext. intros s.
  destruct (Js.eqb (KnowledgeSource.id s) pid); [apply H | reflexivity].
Qed.

(** Data that is not base64 never leaves the browser: when [atob]
    rejects what follows the comma of the reader's result, no request
    is sent, the placeholder gets the status ERROR and the summary
    asking to check the encoding, and no content changes. *)
Theorem undecodable_data_is_never_sent (env : Env)
    (placeholder : KnowledgeSource.t) (file : File.t)
    (readerResult : jsstring) (st : AppState) (e : exn) :
  atob (to_DOMString (nth_error (split 44%N readerResult) 1)) = Throw e ->
  snd (App.reader_onload env placeholder file readerResult st) = []
  /\ sources (fst (App.reader_onload env placeholder file readerResult st))
     = patched (KnowledgeSource.id placeholder)
         (fun s => KnowledgeSource.with_failure s App.MOUNT_FAILED ERROR)
         (sources st)
  /\ map KnowledgeSource.content
       (sources (fst (App.reader_onload env placeholder file readerResult st)))
     = map KnowledgeSource.content (sources st).
Proof.
  intros H. rewrite (reader_onload_undecodable _ _ _ _ _ e H).
  cbn [fst snd sources setSources].
  repeat split. now apply patched_contents.
Qed.

Lemma undecodable_data_is_never_sent_witness :
  let after :=
    App.reader_onload Sample.env_up Sample.placeholder Sample.text_file
      (lit "data:text/plain;base64,a#b") Sample.uploading in
  snd after = []
  /\ map KnowledgeSource.status (sources (fst after)) = [ERROR].
Proof.
  intros after.
  destruct (undecodable_data_is_never_sent Sample.env_up Sample.placeholder
              Sample.text_file (lit "data:text/plain;base64,a#b")
              Sample.uploading InvalidCharacterError)
    as (Hsent & Hstore & _); [vm_compute; reflexivity|].
  split; [exact Hsent|]. subst after. rewrite Hstore.
  vm_compute. reflexivity.
Defined.

(** A reader result with no comma at all (the data URL of an empty file
    in some browsers is [data:]) leaves nothing after the split; the
    missing text reads as "undefined", which is not base64: the file is
    marked ERROR and nothing is sent. *)
Theorem result_without_comma_marks_error (env : Env)
    (placeholder : KnowledgeSource.t) (file : File.t)
    (readerResult : jsstring) (st : AppState) :
  no_comma readerResult ->
  App.reader_onload env placeholder file readerResult st
  = (setSources
       (patched (KnowledgeSource.id placeholder)
          (fun s => KnowledgeSource.with_failure s App.MOUNT_FAILED ERROR))
       st, []).
Proof.
  intros H.
  apply (reader_onload_undecodable _ _ _ _ _ InvalidCharacterError).
  rewrite no_second_piece by exact H. vm_compute. reflexivity.
Qed.

Lemma result_without_comma_marks_error_witness :
  map KnowledgeSource.status
    (sources (fst (App.reader_onload Sample.env_up Sample.placeholder
                     Sample.text_file (lit "data:") Sample.uploading)))
  = [ERROR].
Proof.
  rewrite (result_without_comma_marks_error Sample.env_up Sample.placeholder
             Sample.text_file (lit "data:") Sample.uploading)
    by (repeat constructor).
  vm_compute. reflexivity.
Defined.

Lemma decoder_without_mark (b : N) (r : list N) :
  b <> 239%N -> TextDecoder_utf8 (b :: r) = utf8_to_utf16 (b :: r).
Proof.
  intros H. unfold TextDecoder_utf8. destruct b as [|p]; [reflexivity|].
  do 8 (destruct p as [p|p|]; try reflexivity).
  exfalso. apply H. reflexivity.
Qed.

Lemma utf8_run_ascii (bytes : list N) :
  Forall is_ascii bytes -> utf8_run utf8_init bytes = bytes.
Proof.
  induction 1 as [|b r Hb _ IH]; [reflexivity|].
  change (utf8_run utf8_init (b :: r))
    with (let '(st', out) := utf8_lead b in out ++ utf8_run st' r).
  unfold utf8_lead. unfold is_ascii in Hb.
  destruct (b <=? 127)%N eqn:E; [|apply N.leb_gt in E; lia].
  cbn [app]. now rewrite IH.
Qed.

Lemma utf16_units_small (l : list N) :
  Forall (fun c => (c < 65536)%N) l -> flat_map utf16_units l = l.
Proof.
  induction 1 as [|c r Hc _ IH]; [reflexivity|].
  change (flat_map utf16_units (c :: r))
    with (utf16_units c ++ flat_map utf16_units r).
  rewrite IH. unfold utf16_units.
  destruct (c <? 65536)%N eqn:E; [reflexivity | apply N.ltb_ge in E; lia].
Qed.

Lemma TextDecoder_utf8_ascii (bytes : list N) :
  Forall is_ascii bytes -> TextDecoder_utf8 bytes = bytes.
Proof.
  intros H.
  assert (Hu : utf8_to_utf16 bytes = bytes).
  { unfold utf8_to_utf16. rewrite utf8_run_ascii by exact H.
    apply utf16_units_small. revert H. apply Forall_impl.
    unfold is_ascii. intros c Hc. lia. }
  destruct bytes as [|b r]; [reflexivity|].
  rewrite decoder_without_mark; [exact Hu|].
  apply Forall_cons_iff in H as [Hb _]. unfold is_ascii in Hb. lia.
Qed.

Lemma ascii_is_byte (bytes : list N) :
  Forall is_ascii bytes -> Forall is_byte bytes.
Proof. apply Forall_impl. unfold is_ascii, is_byte. intros b H. lia. Qed.

(** An ASCII file comes back unchanged: with the standard decoder, the
    text decoded from the base64 of ASCII bytes is those bytes, one
    code unit each. *)
Theorem ascii_text_is_decoded_unchanged (env : Env) (bytes : list N) :
  Forall is_ascii bytes ->
  TextDecoder_decode env = (fun b => Ok (TextDecoder_utf8 b)) ->
  safeBase64ToText env (Some (base64_encode bytes)) = Ok bytes.
Proof.
  intros Ha Hd.
  destruct (IngestFacts.safeBase64ToText_of_file env bytes
              (ascii_is_byte bytes Ha)) as (text & Ht & Hok & _).
  rewrite Ht. f_equal. apply Hok. rewrite Hd.
  now rewrite TextDecoder_utf8_ascii.
Qed.

Lemma ascii_text_is_decoded_unchanged_witness :
  safeBase64ToText Sample.env_up (Some (base64_encode (lit "name,price")))
  = Ok (lit "name,price").
Proof.
  apply (ascii_text_is_decoded_unchanged Sample.env_up (lit "name,price")).
  - repeat constructor.
  - reflexivity.
Defined.

Lemma extract_classified_request env base64Data mimeType fileName text t o :
  safeBase64ToText env base64Data = Ok text ->
  newGoogleGenAI env = Ok tt ->
  generateContent env (summary_request base64Data mimeType) = Ok t ->
  JSON_parse_summary env (or_else t (lit "{}")) = Ok o ->
  extractTextFromDocument env base64Data mimeType fileName
  = (Ok (text, or_else o SUMMARY_DEFAULT),
     [summary_request base64Data mimeType]).
Proof.
  intros Ht Hc Hg Hp.
  unfold extractTextFromDocument, try_catch, bind, lift, ret, call.
  rewrite Hc, Ht, Hg, Hp. reflexivity.
Qed.

(** A file that is read and classified: with the standard decoder, a
    client, an answer to the one request sent (which carries the base64
    of the file and its MIME type) and a parse of that answer, the
    placeholder receives the UTF-8 reading of the bytes of the file as
    content, the summary of the answer (the default text when it has
    none) and the status COMPLETED. *)
Theorem classified_file_is_completed (env : Env)
    (placeholder : KnowledgeSource.t) (file : File.t)
    (readerType : jsstring) (bytes : list N) (st : AppState)
    (answer parsed : option jsstring) :
  no_comma readerType ->
  Forall is_byte bytes ->
  TextDecoder_decode env = (fun b => Ok (TextDecoder_utf8 b)) ->
  newGoogleGenAI env = Ok tt ->
  generateContent env
    (summary_request (Some (base64_encode bytes)) (App.mimeTypeOf file))
  = Ok answer ->
  JSON_parse_summary env (or_else answer (lit "{}")) = Ok parsed ->
  App.reader_onload env placeholder file (readAsDataURL readerType bytes) st
  = (setSources
       (patched (KnowledgeSource.id placeholder)
          (fun s => KnowledgeSource.with_result s (TextDecoder_utf8 bytes)
                      (or_else parsed SUMMARY_DEFAULT) COMPLETED))
       st,
     [summary_request (Some (base64_encode bytes)) (App.mimeTypeOf file)]).
Proof.
  intros Hm Hb Hd Hc Hg Hp.
  destruct (IngestFacts.safeBase64ToText_of_file env bytes Hb)
    as (text & Ht & Hok & _).
  rewrite (Hok (TextDecoder_utf8 bytes)) in Ht by now rewrite Hd.
  unfold App.reader_onload.
  rewrite DataUrlFacts.base64_of_data_url by assumption.
  rewrite (extract_classified_request _ _ _ _ _ answer parsed)
    by eassumption.
  reflexivity.
Qed.

Lemma classified_file_is_completed_witness :
  let after :=
    App.reader_onload Sample.env_summary Sample.placeholder Sample.text_file
      (readAsDataURL (lit "text/plain") (lit "hi")) Sample.uploading in
  map KnowledgeSource.content (sources (fst after)) = [lit "hi"]
  /\ map KnowledgeSource.summary (sources (fst after))
     = [Some (lit "price list")]
  /\ map KnowledgeSource.status (sources (fst after)) = [COMPLETED]
  /\ List.length (snd after) = 1%nat.
Proof.
  intros after. subst after.
  rewrite (classified_file_is_completed Sample.env_summary Sample.placeholder
             Sample.text_file (lit "text/plain") (lit "hi") Sample.uploading
             (Some (lit "{...}")) (Some (lit "price list")))
    by first [reflexivity | repeat constructor].
  vm_compute. repeat split.
Defined.

Lemma patched_absent pid patch store :
  Forall (fun s => Js.eqb (KnowledgeSource.id s) pid = false) store ->
  patched pid patch store = store.
Proof.
  induction 1 as [|s r Hs _ IH]; [reflexivity|].
  unfold patched in *. cbn [map]. now rewrite Hs, IH.
Qed.

Lemma patched_field {A : Type} (field : KnowledgeSource.t -> A)
    pid patch store :
  (forall s, field (patch s) = field s) ->
  map field (patched pid patch store) = map field store.
Proof.
  intros H. unfold patched. rewrite map_map. apply map_ext. intros s.
  destruct (Js.eqb (KnowledgeSource.id s) pid); [apply H | reflexivity].
Qed.

Lemma patched_others pid patch store i s :
  nth_error store i = Some s ->
  KnowledgeSource.id s <> pid ->
  nth_error (patched pid patch store) i = Some s.
Proof.
  intros Hn Hid. unfold patched. rewrite nth_error_map, Hn. cbn.
  destruct (Js.eqb (KnowledgeSource.id s) pid) eqn:E; [|reflexivity].
  apply eqb_eq in E. contradiction.
Qed.

(** The end of a reading writes to its placeholder only.  Whatever the
    outcome, the documents keep their ids, partitions, names and kinds;
    a document with another id stays as it is, at its place; and when
    the placeholder is gone, deleted while the file was read, the store
    is left as it is. *)
Theorem reading_writes_to_its_placeholder_only (env : Env)
    (placeholder : KnowledgeSource.t) (file : File.t)
    (readerResult : jsstring) (st : AppState) :
  let after st0 :=
    sources (fst (App.reader_onload env placeholder file readerResult st0)) in
  map KnowledgeSource.id (after st) = map KnowledgeSource.id (sources st)
  /\ map KnowledgeSource.partitionId (after st)
     = map KnowledgeSource.partitionId (sources st)
  /\ map KnowledgeSource.name (after st)
     = map KnowledgeSource.name (sources st)
  /\ map KnowledgeSource.type (after st)
     = map KnowledgeSource.type (sources st)
  /\ (forall i s,
        nth_error (sources st) i = Some s ->
        KnowledgeSource.id s <> KnowledgeSource.id placeholder ->
        nth_error (after st) i = Some s)
  /\ after (App.deleteSource (KnowledgeSource.id placeholder) st)
     = sources (App.deleteSource (KnowledgeSource.id placeholder) st).
Proof.
  intros after. subst after. cbv beta.
  rewrite !IngestFacts.reader_onload_sources.
  destruct (fst (extractTextFromDocument env _ _ _)) as [[text summary]|err].
  all: split; [apply patched_field; reflexivity|].
  all: split; [apply patched_field; reflexivity|].
  all: split; [apply patched_field; reflexivity|].
  all: split; [apply patched_field; reflexivity|].
  all: split; [intros i s; apply patched_others|].
  all: apply patched_absent; apply Forall_forall; intros s Hs.
  all: unfold App.deleteSource in Hs; cbn [sources setSources] in Hs.
  all: apply filter_In in Hs as [_ Hs]; now apply negb_true_iff in Hs.
Qed.

End IngestMore.

(* ================================================================== *)
(** ** Kinds, views and the selection of partitions                    *)
(* ================================================================== *)

Module ViewFacts.

Lemma endsWith_iff (s suffix : jsstring) :
  endsWith s suffix = true <-> exists front, s = front ++ suffix.
Proof.
  unfold endsWith. split.
  - intros H. apply andb_true_iff in H as [Hlen Heq].
    apply eqb_eq in Heq.
    exists (firstn (List.length s - List.length suffix) s).
    rewrite <- Heq at 2. symmetry. apply firstn_skipn.
  - intros [front ->]. rewrite length_app. apply andb_true_iff. split.
    + apply Nat.leb_le. lia.
    + replace (List.length front + List.length suffix
               - List.length suffix)%nat
        with (List.length front + 0)%nat by lia.
      rewrite skipn_app, Nat.add_0_r, Nat.sub_diag, skipn_all.
      apply eqb_refl.
Qed.

Lemma same_length_suffix {A : Type} (a b x y : list A) :
  List.length x = List.length y -> a ++ x = b ++ y -> x = y.
Proof.
  intros Hlen. revert b. induction a as [|c a IH]; intros [|d b] H.
  - exact H.
  - apply (f_equal (@List.length A)) in H. cbn in H.
    rewrite length_app in H. lia.
  - apply (f_equal (@List.length A)) in H. cbn in H.
    rewrite length_app in H. lia.
  - injection H as _ H. eauto.
Qed.

Lemma toLowerCase_app (a b : jsstring) :
  toLowerCase (a ++ b) = toLowerCase a ++ toLowerCase b.
Proof. apply map_app. Qed.

(** A name ending in [.csv] still does once lower-cased, and a name
    cannot end in both [.pdf] and [.csv]. *)
Lemma csv_suffix_survives (name : jsstring) :
  endsWith name (lit ".csv") = true ->
  endsWith (toLowerCase name) (lit ".csv") = true.
Proof.
  intros H. apply endsWith_iff in H as [front ->].
  apply endsWith_iff. exists (toLowerCase front).
  now rewrite toLowerCase_app.
Qed.

Lemma pdf_is_not_csv (name : jsstring) :
  endsWith name (lit ".pdf") = true -> endsWith name (lit ".csv") = false.
Proof.
  intros H. apply endsWith_iff in H as [a ->].
  destruct (endsWith (a ++ lit ".pdf") (lit ".csv")) eqn:E; [|reflexivity].
  apply endsWith_iff in E as [b E].
  apply same_length_suffix in E; [discriminate | reflexivity].
Qed.

(** What ingestion calls a table, analysis formats as a table: every
    placeholder of kind CSV has a name that [analyzeData] takes for a
    table, and no placeholder of kind PDF has. *)
Theorem csv_kind_is_formatted_as_table (amb : Ambient) (st : AppState)
    (chosen : list File.t) (partitionId : jsstring) :
  Forall (fun s =>
            (KnowledgeSource.type s = CSV -> GeminiService.isCsv s = true)
            /\ (KnowledgeSource.type s = PDF ->
                GeminiService.isCsv s = false
                /\ GeminiService.processedContent s
                   = KnowledgeSource.content s))
         (App.filePlaceholders amb st chosen partitionId).
Proof.
  unfold App.filePlaceholders, mapi. apply StoreFacts.Forall_mapi_from.
  intros f i. unfold GeminiService.processedContent, GeminiService.isCsv.
  cbn [KnowledgeSource.type KnowledgeSource.name KnowledgeSource.content].
  unfold App.sourceTypeOf.
  destruct (endsWith (toLowerCase (File.name f)) (lit ".pdf")) eqn:Epdf.
  - split; [discriminate|]. intros _.
    now rewrite (pdf_is_not_csv _ Epdf).
  - destruct (endsWith (File.name f) (lit ".csv")) eqn:Ecsv.
    + split; [|discriminate]. intros _. now apply csv_suffix_survives.
    + split; discriminate.
Qed.

(** The earlier test of the kind looked at the name as it is; on a name
    without capital letters both versions give the same kind. *)
Theorem kinds_agree_on_lower_case_names (fileName : jsstring) :
  toLowerCase fileName = fileName ->
  App.sourceTypeOf fileName = Legacy.sourceTypeOf fileName.
Proof.
  intros H. unfold App.sourceTypeOf, Legacy.sourceTypeOf. now rewrite H.
Qed.

Lemma kinds_agree_on_lower_case_names_witness :
  App.sourceTypeOf (lit "prices.csv") = Legacy.sourceTypeOf (lit "prices.csv").
Proof.
  apply (kinds_agree_on_lower_case_names (lit "prices.csv")). reflexivity.
Defined.

Lemma includes_iff (x : jsstring) (l : list jsstring) :
  existsb (fun i => Js.eqb i x) l = true <-> In x l.
Proof.
  rewrite existsb_exists. split.
  - intros (i & Hi & E). apply eqb_eq in E. now subst.
  - intros H. exists x. split; [exact H | apply eqb_refl].
Qed.

Lemma without_iff (x q : jsstring) (l : list jsstring) :
  In q (filter (fun i => negb (Js.eqb i x)) l) <-> In q l /\ q <> x.
Proof.
  rewrite filter_In, negb_true_iff. split; intros [H1 H2]; split; auto.
  - intros E. subst. rewrite eqb_refl in H2. discriminate.
  - destruct (Js.eqb q x) eqn:E; [|reflexivity].
    apply eqb_eq in E. contradiction.
Qed.

(** The list of ticked partitions after a click on the row of [x]. *)
Lemma toggle_members (x q : jsstring) (l : list jsstring) :
  In q (if existsb (fun i => Js.eqb i x) l
        then filter (fun i => negb (Js.eqb i x)) l
        else l ++ [x])
  <-> (q = x /\ ~ In x l) \/ (q <> x /\ In q l).
Proof.
  destruct (existsb (fun i => Js.eqb i x) l) eqn:E.
  - apply includes_iff in E. rewrite without_iff. split.
    + intros [H1 H2]. now right.
    + intros [[-> H] | [H1 H2]]; [contradiction | now split].
  - assert (Hx : ~ In x l).
    { intros H. apply includes_iff in H. congruence. }
    rewrite in_app_iff. cbn [In]. split.
    + intros [H | [<- | []]].
      * right. split; [|exact H]. intros ->. contradiction.
      * now left.
    + intros [[-> _] | [_ H]]; [right; now left | now left].
Qed.

Lemma toggle_NoDup (x : jsstring) (l : list jsstring) :
  NoDup l ->
  NoDup (if existsb (fun i => Js.eqb i x) l
         then filter (fun i => negb (Js.eqb i x)) l
         else l ++ [x]).
Proof.
  intros Hl. destruct (existsb (fun i => Js.eqb i x) l) eqn:E.
  - now apply NoDup_filter.
  - assert (Hx : ~ In x l).
    { intros H. apply includes_iff in H. congruence. }
    apply NoDup_app; [exact Hl | repeat constructor; intros [] |].
    intros q Hq [<- | []]. contradiction.
Qed.

(** In the analysis view a click on a partition other than "all" ticks
    it when it was not ticked and unticks it when it was; the other
    partitions stay as they were, a list without repetition stays so,
    "all" never enters the list, and a second click restores what was
    ticked.  Nothing else of the state changes. *)
Theorem click_toggles_one_partition (p : Partition.t) (st : AppState) :
  viewMode st = analysis ->
  Partition.id p <> App.ALL ->
  let st' := AppView.partition_onClick p st in
  let st'' := AppView.partition_onClick p st' in
  (In (Partition.id p) (selectedAnalysisPartitions st')
   <-> ~ In (Partition.id p) (selectedAnalysisPartitions st))
  /\ (forall q, q <> Partition.id p ->
        (In q (selectedAnalysisPartitions st')
         <-> In q (selectedAnalysisPartitions st)))
  /\ (NoDup (selectedAnalysisPartitions st) ->
      NoDup (selectedAnalysisPartitions st'))
  /\ (~ In App.ALL (selectedAnalysisPartitions st) ->
      ~ In App.ALL (selectedAnalysisPartitions st'))
  /\ (forall q, In q (selectedAnalysisPartitions st'')
                <-> In q (selectedAnalysisPartitions st))
  /\ sources st' = sources st
  /\ chatHistory st' = chatHistory st
  /\ currentPartitionId st' = currentPartitionId st.
Proof.
  intros Hmode Hp st' st''.
  assert (Hne : Js.eqb (Partition.id p) App.ALL = false).
  { destruct (Js.eqb (Partition.id p) App.ALL) eqn:E; [|reflexivity].
    apply eqb_eq in E. contradiction. }
  assert (Hst' : st' = setSelectedAnalysisPartitions
                         (fun prev =>
                            if existsb (fun i => Js.eqb i (Partition.id p)) prev
                            then filter (fun i => negb (Js.eqb i (Partition.id p)))
                                        prev
                            else prev ++ [Partition.id p]) st).
  { subst st'. unfold AppView.partition_onClick. now rewrite Hmode, Hne. }
  assert (Hst'' : st'' = setSelectedAnalysisPartitions
                           (fun prev =>
                              if existsb (fun i => Js.eqb i (Partition.id p)) prev
                              then filter (fun i => negb (Js.eqb i (Partition.id p)))
                                          prev
                              else prev ++ [Partition.id p]) st').
  { subst st''. unfold AppView.partition_onClick.
    rewrite Hst' at 1. cbn [viewMode setSelectedAnalysisPartitions].
    now rewrite Hmode, Hne. }
  rewrite Hst'', Hst'.
  cbn [selectedAnalysisPartitions setSelectedAnalysisPartitions sources
       chatHistory currentPartitionId].
  split; [|split; [|split; [|split; [|split]]]].
  - rewrite toggle_members. split.
    + intros [[_ H] | [H _]]; [exact H | congruence].
    + intros H. now left.
  - intros q Hq. rewrite toggle_members. split.
    + intros [[-> _] | [_ H]]; [congruence | exact H].
    + intros H. now right.
  - apply toggle_NoDup.
  - intros Hall H. apply toggle_members in H as [[H _] | [_ H]].
    + symmetry in H. contradiction.
    + contradiction.
  - intros q. rewrite !toggle_members.
    destruct (list_eq_dec N.eq_dec q (Partition.id p)) as [-> | Hq].
    + split.
      * intros [[_ H] | [H _]]; [|congruence].
        destruct (in_dec (list_eq_dec N.eq_dec) (Partition.id p)
                    (selectedAnalysisPartitions st)) as [Hin | Hin];
          [exact Hin|].
        exfalso. apply H. left. now split.
      * intros H. left. split; [reflexivity|].
        intros [[_ H'] | [H' _]]; [contradiction | congruence].
    + split.
      * intros [[H _] | [_ [[H _] | [_ H]]]]; congruence || exact H.
      * intros H. right. split; [exact Hq|]. right. now split.
  - repeat split.
Qed.

Lemma click_toggles_one_partition_witness :
  let p := {| Partition.id := lit "sales"; Partition.name := lit "销量";
              Partition.description := None; Partition.isSystem := None |} in
  let st := Sample.state [] "" in
  In (Partition.id p)
     (selectedAnalysisPartitions (AppView.partition_onClick p st))
  <-> ~ In (Partition.id p) (selectedAnalysisPartitions st).
Proof.
  intros p st.
  assert (Hmode : viewMode st = analysis) by reflexivity.
  assert (Hp : Partition.id p <> App.ALL) by (vm_compute; discriminate).
  destruct (click_toggles_one_partition p st Hmode Hp) as [H _].
  exact H.
Defined.

(** A card dropped on the row of a partition other than "all" is moved
    there and shown: the view switches to that partition, every
    document with the card's id is in it and on display, and the other
    documents are where they were, whatever render the handler belongs
    to. *)
Theorem moved_card_is_on_display (amb : Ambient) (rendered : AppState)
    (p : Partition.t) (e : DropEvent) (st : AppState) :
  truthy (sourceId e) = true ->
  Partition.id p <> App.ALL ->
  let st' := App.partition_onDrop amb rendered p e st in
  currentPartitionId st' = Partition.id p
  /\ List.length (sources st') = List.length (sources st)
  /\ (forall s,
        In s (sources st) -> KnowledgeSource.id s = sourceId e ->
        In (KnowledgeSource.with_partitionId s (Partition.id p))
           (AppView.filteredSources st'))
  /\ (forall i s,
        nth_error (sources st) i = Some s ->
        KnowledgeSource.id s <> sourceId e ->
        nth_error (sources st') i = Some s).
Proof.
  intros Hcard Hp st'.
  assert (Hne : Js.eqb (Partition.id p) App.ALL = false).
  { destruct (Js.eqb (Partition.id p) App.ALL) eqn:E; [|reflexivity].
    apply eqb_eq in E. contradiction. }
  assert (Hst' : st' = setCurrentPartitionId (Partition.id p)
                         (setSources
                            (patched (sourceId e)
                               (fun s => KnowledgeSource.with_partitionId s
                                           (Partition.id p))) st)).
  { subst st'. unfold App.partition_onDrop. now rewrite Hcard, Hne. }
  rewrite Hst'. unfold AppView.filteredSources.
  cbn [currentPartitionId sources setCurrentPartitionId setSources].
  rewrite Hne. split; [reflexivity|].
  split; [unfold patched; apply length_map|]. split.
  - intros s Hs Hid. apply filter_In. split.
    + unfold patched. apply in_map_iff. exists s. split; [|exact Hs].
      rewrite Hid. now rewrite eqb_refl.
    + cbn. apply eqb_refl.
  - intros i s. apply IngestMore.patched_others.
Qed.

Lemma moved_card_is_on_display_witness :
  let p := {| Partition.id := lit "sales"; Partition.name := lit "销量";
              Partition.description := None; Partition.isSystem := None |} in
  let st := Sample.state [Sample.doc "d1" "a.txt" "config" "hello"] "" in
  let e := {| sourceId := lit "d1"; files := [] |} in
  currentPartitionId (App.partition_onDrop Sample.amb st p e st)
  = lit "sales".
Proof.
  intros p st e.
  assert (Hcard : truthy (sourceId e) = true) by reflexivity.
  assert (Hp : Partition.id p <> App.ALL) by (vm_compute; discriminate).
  destruct (moved_card_is_on_display Sample.amb st p e st Hcard Hp)
    as [H _].
  exact H.
Defined.

(** One turn at a time: while the answer to a query is awaited, a new
    submission changes nothing and sends nothing; and once the answer
    is in, the input being empty, so does a submission made before
    anything is typed. *)
Theorem second_submission_is_ignored (env : Env) (amb amb' : Ambient)
    (st : AppState) (outcome : result jsstring) :
  App.handleSendMessage env amb' (App.send_begin amb st)
  = (App.send_begin amb st, [])
  /\ App.handleSendMessage env amb'
       (App.send_end amb outcome (App.send_begin amb st))
     = (App.send_end amb outcome (App.send_begin amb st), [])
  /\ isAnalyzing (App.send_begin amb st) = true
  /\ isAnalyzing (App.send_end amb outcome (App.send_begin amb st)) = false.
Proof.
  split; [|split; [|split]].
  - unfold App.handleSendMessage.
    replace (isAnalyzing (App.send_begin amb st)) with true by reflexivity.
    now rewrite orb_true_r.
  - unfold App.handleSendMessage.
    replace (query (App.send_end amb outcome (App.send_begin amb st)))
      with (@nil N) by (destruct outcome; reflexivity).
    reflexivity.
  - reflexivity.
  - destruct outcome; reflexivity.
Qed.

End ViewFacts.

(* ================================================================== *)
(** ** The upload dialog never files under "all"                       *)
(* ================================================================== *)

Module DialogFacts.
Import UploadManager.

Lemma not_all_iff (x : jsstring) : Js.eqb x App.ALL = false <-> x <> App.ALL.
Proof.
  split.
  - intros H E. subst. rewrite eqb_refl in H. discriminate.
  - intros H. destruct (Js.eqb x App.ALL) eqn:E; [|reflexivity].
    apply eqb_eq in E. contradiction.
Qed.

Lemma init_not_all (currentPartitionId : jsstring) :
  selectedPartition (init currentPartitionId) <> App.ALL.
Proof.
  unfold init. cbn [selectedPartition].
  destruct (Js.eqb currentPartitionId App.ALL) eqn:E.
  - discriminate.
  - now apply not_all_iff.
Qed.

Lemma choices_not_all (partitions : list Partition.t) (n : nat)
    (p : Partition.t) :
  nth_error (uploadablePartitions partitions) n = Some p ->
  Partition.id p <> App.ALL.
Proof.
  intros H. apply nth_error_In in H. unfold uploadablePartitions in H.
  apply filter_In in H as [_ H]. apply negb_true_iff in H.
  now apply not_all_iff.
Qed.

Lemma step_keeps_target v partitions a d :
  selectedPartition d <> App.ALL ->
  selectedPartition (fst (step v partitions a d)) <> App.ALL
  /\ Forall from_dialog (snd (step v partitions a d)).
Proof.
  intros Hd. destruct a as [cur | n | text | | picked | dropped];
    cbn [step].
  - destruct v.
    + cbn [fst snd with_selected selectedPartition].
      split; [|constructor].
      destruct (Js.eqb cur App.ALL) eqn:E;
        [discriminate | now apply not_all_iff].
    + destruct (Js.eqb cur App.ALL) eqn:E; cbn [negb fst snd];
        (split; [|constructor]); [exact Hd|].
      cbn [with_selected selectedPartition]. now apply not_all_iff.
  - destruct (nth_error (uploadablePartitions partitions) n) as [p|] eqn:E;
      cbn [fst snd]; (split; [|constructor]); [|exact Hd].
    cbn [with_selected selectedPartition]. eapply choices_not_all; eassumption.
  - cbn [fst snd]. split; [exact Hd | constructor].
  - destruct (truthy (trim (url d))); cbn [fst snd];
      (split; [exact Hd|]); repeat constructor. exact Hd.
  - destruct (0 <? List.length picked)%nat; cbn [fst snd];
      (split; [exact Hd|]); repeat constructor. exact Hd.
  - destruct v; [cbn [fst snd]; split; [exact Hd | constructor]|].
    destruct (0 <? List.length dropped)%nat; cbn [fst snd];
      (split; [exact Hd|]); repeat constructor. exact Hd.
Qed.

Lemma session_from_dialog v partitions actions :
  forall d,
    selectedPartition d <> App.ALL ->
    Forall from_dialog (session v partitions actions d).
Proof.
  induction actions as [|a rest IH]; intros d Hd; [constructor|].
  cbn [session].
  destruct (step_keeps_target v partitions a d Hd) as [Hnext Hraised].
  destruct (step v partitions a d) as [d' raised]. cbn [fst snd] in *.
  apply Forall_app. split; [exact Hraised | now apply IH].
Qed.

(** In both versions of the dialog, whatever partition is on display
    when it opens and whatever is then displayed, chosen, typed,
    submitted, picked or dropped, no upload and no link is ever filed
    under "all"; handled by the application, the events of a session
    leave a store free of "all" free of it, whatever render each of
    them reaches. *)
Theorem dialog_never_files_under_all (v : Version)
    (partitions : list Partition.t) (actions : list Action)
    (currentPartitionId : jsstring) (amb : Ambient)
    (evs : list (AppState * StoreEvent)) (st : AppState) :
  Forall from_dialog (session v partitions actions (init currentPartitionId))
  /\ (map snd evs
      = session v partitions actions (init currentPartitionId) ->
      never_all (sources st) ->
      never_all (sources (run amb evs st))).
Proof.
  assert (H : Forall from_dialog
                (session v partitions actions (init currentPartitionId)))
    by (apply session_from_dialog, init_not_all).
  split; [exact H|]. intros Hevs Hst.
  apply StoreFacts.run_never_all; [|exact Hst].
  rewrite <- Hevs in H. apply Forall_forall. intros re Hre.
  rewrite Forall_forall in H. apply H. now apply in_map.
Qed.

End DialogFacts.

(* ================================================================== *)
(** ** Exported tables read back                                       *)
(* ================================================================== *)

Module ExportFacts.
Import AppView.

Lemma export_cell_shown (textContent : option jsstring) :
  export_cell textContent
  = 34%N :: escape_quotes (shown textContent) ++ [34%N].
Proof. destruct textContent; reflexivity. Qed.

Lemma read_quoted_escaped (text rest : jsstring) :
  not_starting_with 34 rest ->
  read_quoted (escape_quotes text ++ 34%N :: rest) = Some (text, rest).
Proof.
  intros Hrest. induction text as [|c text IH].
  - cbn. destruct rest as [|d r]; [reflexivity|].
    cbn in Hrest. now rewrite Hrest.
  - change (escape_quotes (c :: text))
      with ((if (c =? 34)%N then [34%N; 34%N] else [c])
              ++ escape_quotes text).
    destruct (c =? 34)%N eqn:E.
    + apply N.eqb_eq in E. subst c. cbn [app].
      change (read_quoted
                (34%N :: 34%N :: escape_quotes text ++ 34%N :: rest))
        with (match read_quoted (escape_quotes text ++ 34%N :: rest) with
              | Some (t, r) => Some (34%N :: t, r)
              | None => None
              end).
      now rewrite IH.
    + cbn [app]. cbn [read_quoted]. rewrite E. now rewrite IH.
Qed.

Lemma read_cell_exported (textContent : option jsstring) (rest : jsstring) :
  not_starting_with 34 rest ->
  read_cell (export_cell textContent ++ rest)
  = Some (shown textContent, rest).
Proof.
  intros Hrest. rewrite export_cell_shown.
  change (read_cell ((34%N :: escape_quotes (shown textContent) ++ [34%N])
                       ++ rest))
    with (read_quoted ((escape_quotes (shown textContent) ++ [34%N])
                         ++ rest)).
  rewrite <- app_assoc. now apply read_quoted_escaped.
Qed.

Lemma read_row_S (k : nat) (s : jsstring) :
  read_row (S k) s
  = match read_cell s with
    | None => None
    | Some (cell, rest) =>
        match rest with
        | c :: rest' =>
            if (c =? 44)%N then
              match read_row k rest' with
              | Some (cells, r) => Some (cell :: cells, r)
              | None => None
              end
            else Some ([cell], rest)
        | [] => Some ([cell], [])
        end
    end.
Proof. reflexivity. Qed.

Lemma read_table_S (k : nat) (s : jsstring) :
  read_table (S k) s
  = match read_row (List.length s) s with
    | None => None
    | Some (cells, rest) =>
        match rest with
        | [] => Some [cells]
        | c :: rest' =>
            if (c =? 10)%N then
              match read_table k rest' with
              | Some rows => Some (cells :: rows)
              | None => None
              end
            else None
        end
    end.
Proof. reflexivity. Qed.

Lemma read_row_exported (cells : list (option jsstring)) :
  forall fuel rest,
    cells <> [] ->
    (List.length cells <= fuel)%nat ->
    not_starting_with 34 rest ->
    not_starting_with 44 rest ->
    read_row fuel (export_row cells ++ rest) = Some (map shown cells, rest).
Proof.
  induction cells as [|c cells IH]; intros fuel rest Hne Hfuel H34 H44;
    [congruence|].
  destruct fuel as [|k]; [cbn [List.length] in Hfuel; lia|].
  destruct cells as [|c' cells'].
  - cbn [export_row map join]. rewrite read_row_S.
    rewrite read_cell_exported by exact H34.
    destruct rest as [|d r]; [reflexivity|]. cbn in H44. now rewrite H44.
  - assert (Hrow : export_row (c :: c' :: cells') ++ rest
                   = export_cell c
                       ++ 44%N :: export_row (c' :: cells') ++ rest).
    { unfold export_row. cbn [map]. rewrite join_cons by discriminate.
      now rewrite <- !app_assoc. }
    rewrite Hrow, read_row_S, read_cell_exported by reflexivity.
    rewrite N.eqb_refl.
    rewrite IH;
      [reflexivity | discriminate | cbn [List.length] in *; lia
       | assumption..].
Qed.

Lemma export_cell_length (c : option jsstring) :
  (1 <= List.length (export_cell c))%nat.
Proof. rewrite export_cell_shown. cbn [List.length]. lia. Qed.

Lemma export_row_length (cells : list (option jsstring)) :
  (List.length cells <= List.length (export_row cells))%nat.
Proof.
  induction cells as [|c cells IH]; [cbn [List.length]; lia|].
  pose proof (export_cell_length c).
  destruct cells as [|c' cells'].
  - cbn [export_row map join List.length]. lia.
  - unfold export_row in *. cbn [map] in *.
    rewrite join_cons by discriminate.
    rewrite !length_app. cbn [List.length] in *. lia.
Qed.

Lemma read_table_exported (rows : list (list (option jsstring))) :
  forall fuel,
    rows <> [] ->
    Forall (fun cells => cells <> []) rows ->
    (List.length rows <= fuel)%nat ->
    read_table fuel (export_table rows) = Some (map (map shown) rows).
Proof.
  induction rows as [|r rows IH]; intros fuel Hne Hcells Hfuel;
    [congruence|].
  apply Forall_cons_iff in Hcells as [Hr Hrows].
  destruct fuel as [|k]; [cbn [List.length] in Hfuel; lia|].
  destruct rows as [|r' rows'].
  - cbn [export_table map join]. rewrite read_table_S.
    rewrite <- (app_nil_r (export_row r)) at 2.
    rewrite read_row_exported;
      [reflexivity | exact Hr | apply export_row_length | exact I..].
  - assert (Htable : export_table (r :: r' :: rows')
                     = export_row r ++ 10%N :: export_table (r' :: rows')).
    { unfold export_table. cbn [map]. now rewrite join_cons by discriminate. }
    rewrite Htable, read_table_S.
    rewrite read_row_exported;
      [ | exact Hr
        | rewrite length_app; pose proof (export_row_length r); lia
        | reflexivity..].
    rewrite N.eqb_refl.
    rewrite IH;
      [reflexivity | discriminate | exact Hrows
       | cbn [List.length] in *; lia].
Qed.

Lemma export_table_nonempty (rows : list (list (option jsstring))) :
  rows <> [] ->
  Forall (fun cells => cells <> []) rows ->
  (List.length rows <= List.length (export_table rows))%nat.
Proof.
  induction rows as [|r rows IH]; intros Hne Hcells; [congruence|].
  apply Forall_cons_iff in Hcells as [Hr Hrows].
  assert (1 <= List.length (export_row r))%nat.
  { pose proof (export_row_length r). destruct r; [congruence|].
    cbn [List.length] in *. lia. }
  destruct rows as [|r' rows'].
  - cbn [export_table map join List.length]. lia.
  - assert (Htable : export_table (r :: r' :: rows')
                     = export_row r ++ 10%N :: export_table (r' :: rows')).
    { unfold export_table. cbn [map]. now rewrite join_cons by discriminate. }
    rewrite Htable, length_app.
    pose proof (IH ltac:(discriminate) Hrows).
    cbn [List.length] in *. lia.
Qed.

(** The exported text of a table reads back as the table: every cell is
    written between quotation marks with its own marks doubled, so for a
    table of at least one row, each of at least one cell, a reader of
    quoted cells, commas and line breaks finds again the rows and, in
    each, the trimmed texts of the cells, whatever commas, marks or line
    breaks they hold. *)
Theorem exported_table_reads_back (rows : list (list (option jsstring))) :
  rows <> [] ->
  Forall (fun cells => cells <> []) rows ->
  read_csv (export_table rows) = Some (map (map shown) rows)
  /\ download (export_table rows) = 65279%N :: export_table rows.
Proof.
  intros Hne Hcells. split; [|reflexivity]. unfold read_csv.
  apply read_table_exported; try assumption.
  now apply export_table_nonempty.
Qed.

Lemma exported_table_reads_back_witness :
  read_csv (export_table
              [ [Some (lit "name"); Some (lit " price, net ")];
                [Some (34%N :: lit "G7" ++ [34%N]); None] ])
  = Some [ [lit "name"; lit "price, net"];
           [34%N :: lit "G7" ++ [34%N]; lit "undefined"] ].
Proof.
  apply (exported_table_reads_back
           [ [Some (lit "name"); Some (lit " price, net ")];
             [Some (34%N :: lit "G7" ++ [34%N]); None] ]).
  - discriminate.
  - repeat constructor; discriminate.
Defined.

End ExportFacts.

(* ================================================================== *)
(** ** The summary and the avatar calls                                *)
(* ================================================================== *)

Module MediaFacts.
Import Media.

Lemma slice_prefix_twice {A : Type} (n : Z) (l : list A) :
  0 <= n -> slice 0 n (slice 0 n l) = slice 0 n l.
Proof.
  intros Hn. rewrite !slice_prefix by assumption.
  rewrite firstn_firstn. now rewrite Nat.min_id.
Qed.

Lemma summary_prompt_length (text type : jsstring) :
  strlen (summary_prompt text type) <= strlen type + 1016.
Proof.
  unfold summary_prompt. rewrite !strlen_app, slice_prefix by lia.
  assert (H1 : strlen (lit "总结此") = 3) by (vm_compute; reflexivity).
  assert (H2 : strlen (lit "的核心定位（20字内）：") = 12)
    by (vm_compute; reflexivity).
  assert (H3 : strlen NL = 1) by reflexivity.
  assert (H4 : strlen (firstn (Z.to_nat 1000) text) <= 1000).
  { unfold strlen. rewrite length_firstn. lia. }
  lia.
Qed.

Lemma summary_prompt_prefix (text type : jsstring) :
  summary_prompt (slice 0 1000 text) type = summary_prompt text type.
Proof.
  unfold summary_prompt. now rewrite slice_prefix_twice by lia.
Qed.

(** [summarizeContent] never rejects and never gives an empty label.
    Without a client nothing is sent and the label is the fixed text.
    With a client exactly one request is sent, to the flash model, with
    the prompt made of the name of the kind and the first 1000 code
    units of the text; the label is the text of the answer when the
    answer has one that is not empty, and the fixed text when it has
    none or the request is rejected.  The prompt is at most 1016 code
    units longer than the name of the kind, and what follows the first
    1000 code units of the text has no influence on the call. *)
Theorem summarizeContent_always_labels (svc : Service)
    (text type : jsstring) :
  let req :=
    {| plain_model := lit "gemini-3-flash-preview";
       plain_contents :=
         Prompt (lit "总结此" ++ type ++ lit "的核心定位（20字内）：" ++ NL
                   ++ slice 0 1000 text);
       plain_config := NoConfig |} in
  exists label,
    fst (summarizeContent svc text type) = Ok label
    /\ label <> []
    /\ (forall e,
          newClient svc = Throw e ->
          label = lit "数据已挂载"
          /\ snd (summarizeContent svc text type) = [])
    /\ (forall u,
          newClient svc = Ok u ->
          snd (summarizeContent svc text type) = [req])
    /\ (forall u response answer,
          newClient svc = Ok u ->
          generate svc req = Ok response ->
          response_text response = Some answer ->
          answer <> [] ->
          label = answer)
    /\ (forall u response,
          newClient svc = Ok u ->
          generate svc req = Ok response ->
          response_text response = None
          \/ response_text response = Some [] ->
          label = lit "数据已挂载")
    /\ (forall u e,
          newClient svc = Ok u ->
          generate svc req = Throw e ->
          label = lit "数据已挂载")
    /\ strlen (lit "总结此" ++ type ++ lit "的核心定位（20字内）：" ++ NL
                 ++ slice 0 1000 text)
       <= strlen type + 1016
    /\ summarizeContent svc (slice 0 1000 text) type
       = summarizeContent svc text type.
Proof.
  intros req.
  assert (Hsame : summarizeContent svc (slice 0 1000 text) type
                  = summarizeContent svc text type).
  { unfold summarizeContent. now rewrite summary_prompt_prefix. }
  rewrite Hsame.
  assert (Hm : MOUNTED <> []).
  { intros H. apply (f_equal (@List.length N)) in H. discriminate. }
  pose proof (summary_prompt_length text type) as Hlen.
  unfold summary_prompt in Hlen.
  unfold summarizeContent.
  change {| plain_model := lit "gemini-3-flash-preview";
            plain_contents := Prompt (summary_prompt text type);
            plain_config := NoConfig |} with req.
  destruct (newClient svc) as [u|e].
  - destruct (generate svc req) as [response|e'] eqn:Hg.
    + exists (or_else (response_text response) MOUNTED).
      cbn [fst snd]. split; [reflexivity|].
      split; [now apply ServiceMore.or_else_nonempty|].
      split; [intros e H; discriminate|].
      split; [reflexivity|].
      split.
      { intros _ r answer _ [= <-] Ht Hne. rewrite Ht.
        destruct answer; [contradiction | reflexivity]. }
      split.
      { intros _ r _ [= <-] [Ht | Ht]; rewrite Ht; reflexivity. }
      split; [intros _ e _ H; discriminate|].
      split; [exact Hlen | reflexivity].
    + exists MOUNTED. cbn [fst snd]. split; [reflexivity|].
      split; [exact Hm|]. split; [intros e H; discriminate|].
      split; [reflexivity|].
      split; [intros _ r answer _ H; discriminate|].
      split; [intros _ r _ H; discriminate|].
      split; [reflexivity|]. split; [exact Hlen | reflexivity].
  - exists MOUNTED. cbn [fst snd]. split; [reflexivity|].
    split; [exact Hm|]. split; [intros e0 _; split; reflexivity|].
    split; [intros u H; discriminate|].
    split; [intros u r answer H; discriminate|].
    split; [intros u r H; discriminate|].
    split; [intros u e0 H; discriminate|].
    split; [exact Hlen | reflexivity].
Qed.

(** The loop over the parts of an answer stops at the first part that
    has inline data. *)
Lemma first_image_spec (parts : list ResponsePart) (url : jsstring) :
  first_image parts = Some url
  <-> exists pre part post data,
        parts = pre ++ part :: post
        /\ Forall no_image pre
        /\ part_inlineData part = Some data
        /\ url = lit "data:image/png;base64," ++ to_DOMString data.
Proof.
  split.
  - induction parts as [|a rest IH]; [discriminate|].
    cbn [first_image].
    destruct (part_inlineData a) as [data|] eqn:E.
    + intros [= <-]. exists [], a, rest, data.
      repeat split; [constructor | exact E].
    + intros H. destruct (IH H) as (pre & part & post & data & -> & Hp & Hd & ->).
      exists (a :: pre), part, post, data.
      repeat split; [constructor; assumption | exact Hd].
  - intros (pre & part & post & data & -> & Hp & Hd & ->).
    induction Hp as [|a pre Ha _ IH]; cbn [app first_image].
    + now rewrite Hd.
    + unfold no_image in Ha. now rewrite Ha.
Qed.

(** [generateAvatar] never rejects and sends at most one request.  It
    gives a picture exactly when the client could be built, the request
    was answered and the answer has a part with inline data; the
    picture is then the data of the first such part, as a PNG data URL.
    In every other case it gives [null]. *)
Theorem avatar_is_first_image_part (svc : Service)
    (sourceImage stylePrompt : jsstring) :
  exists r,
    fst (generateAvatar svc sourceImage stylePrompt) = Ok r
    /\ (List.length (snd (generateAvatar svc sourceImage stylePrompt))
        <= 1)%nat
    /\ forall url,
         r = Some url
         <-> (exists u, newClient svc = Ok u)
             /\ exists response pre part post data,
                  generate svc (avatar_request sourceImage stylePrompt)
                  = Ok response
                  /\ response_parts response = Some (pre ++ part :: post)
                  /\ Forall no_image pre
                  /\ part_inlineData part = Some data
                  /\ url = lit "data:image/png;base64,"
                             ++ to_DOMString data.
Proof.
  unfold generateAvatar.
  destruct (newClient svc) as [u|e].
  - destruct (generate svc (avatar_request sourceImage stylePrompt))
      as [response|e'] eqn:Hg.
    + eexists. cbn [fst snd List.length]. split; [reflexivity|].
      split; [lia|]. intros url.
      destruct (response_parts response) as [parts|] eqn:Hparts.
      * rewrite first_image_spec. split.
        -- intros (pre & part & post & data & -> & Hp & Hd & ->).
           split; [now exists u|].
           exists response, pre, part, post, data. now repeat split.
        -- intros [_ (resp & pre & part & post & data & [= <-] & Hr & Hp
                        & Hd & ->)].
           rewrite Hparts in Hr. injection Hr as ->.
           exists pre, part, post, data. now repeat split.
      * split; [discriminate|].
        intros [_ (resp & pre & part & post & data & [= <-] & Hr & _)].
        congruence.
    + exists None. cbn [fst snd List.length]. split; [reflexivity|].
      split; [lia|]. intros url. split; [discriminate|].
      intros [_ (resp & pre & part & post & data & H & _)]. discriminate.
  - exists None. cbn [fst snd List.length]. split; [reflexivity|].
    split; [lia|]. intros url. split; [discriminate|].
    intros [[u H] _]. discriminate.
Qed.

(** The picture chosen in the avatar dialog is read as a data URL; the
    request built from it carries the base64 text of the bytes of the
    file, from which [atob] gives the bytes back, and declares them as
    PNG whatever the kind of the file was. *)
Theorem avatar_request_carries_the_picture (mimeType stylePrompt : jsstring)
    (bytes : list N) :
  no_comma mimeType ->
  Forall is_byte bytes ->
  plain_contents (avatar_request (readAsDataURL mimeType bytes) stylePrompt)
  = Parts [ inlineData (Some (base64_encode bytes)) (lit "image/png");
            textPart (lit "Style: " ++ stylePrompt
                        ++ lit ". Professional portrait.") ]
  /\ atob (base64_encode bytes) = Ok bytes.
Proof.
  intros Hm Hb. split.
  - unfold avatar_request. cbn [plain_contents].
    now rewrite DataUrlFacts.base64_of_data_url.
  - now apply Base64Facts.atob_base64_encode.
Qed.

Lemma avatar_request_carries_the_picture_witness :
  atob (base64_encode [255; 216; 255]%N) = Ok [255; 216; 255]%N.
Proof.
  assert (Hm : no_comma (lit "image/jpeg"))
    by (vm_compute; repeat constructor).
  assert (Hb : Forall is_byte [255; 216; 255]%N)
    by (repeat constructor).
  destruct (avatar_request_carries_the_picture (lit "image/jpeg") []
              [255; 216; 255]%N Hm Hb) as [_ H].
  exact H.
Defined.

End MediaFacts.

(* ================================================================== *)
(** ** The earlier service and the earlier drop handler                *)
(* ================================================================== *)

Module LegacyFacts.
Import LegacyService.

Lemma occurs_in_refl (x : jsstring) : occurs_in x x.
Proof. exists [], []. now rewrite app_nil_r. Qed.

Lemma occurs_in_app_l (x a b : jsstring) :
  occurs_in x a -> occurs_in x (a ++ b).
Proof.
  intros (p & q & ->). exists p, (q ++ b). now rewrite <- !app_assoc.
Qed.

Lemma occurs_in_app_r (x a b : jsstring) :
  occurs_in x b -> occurs_in x (a ++ b).
Proof.
  intros (p & q & ->). exists (a ++ p), q. now rewrite <- app_assoc.
Qed.

Lemma occurs_in_trans (x y z : jsstring) :
  occurs_in x y -> occurs_in y z -> occurs_in x z.
Proof.
  intros (p & q & ->) (p' & q' & ->). exists (p' ++ p), (q ++ q').
  now rewrite <- !app_assoc.
Qed.

Lemma occurs_in_join (sep x : jsstring) (l : list jsstring) :
  In x l -> occurs_in x (join sep l).
Proof.
  induction l as [|p rest IH]; [intros []|].
  intros [<- | H].
  - destruct rest as [|q r]; [apply occurs_in_refl|].
    rewrite join_cons by discriminate.
    apply occurs_in_app_l, occurs_in_refl.
  - destruct rest as [|q r]; [destruct H|].
    rewrite join_cons by discriminate.
    apply occurs_in_app_r, occurs_in_app_r, IH, H.
Qed.

Lemma In_mapi_from {A B : Type} (f : A -> nat -> B) (k : nat) (l : list A)
    (x : A) :
  In x l -> exists i, In (f x i) (mapi_from f k l).
Proof.
  revert k. induction l as [|a r IH]; intros k; [intros []|].
  intros [<- | H]; cbn [mapi_from].
  - exists k. now left.
  - destruct (IH (S k) H) as [i Hi]. exists i. now right.
Qed.

Lemma block_holds_content (s : KnowledgeSource.t) (index : nat) :
  occurs_in (processedContent s) (block s index).
Proof.
  unfold block. apply occurs_in_join.
  do 5 right. left. reflexivity.
Qed.

Lemma context_holds_content (valid : list KnowledgeSource.t)
    (s : KnowledgeSource.t) :
  In s valid -> occurs_in (processedContent s) (prepareGlobalContext valid).
Proof.
  intros H. unfold prepareGlobalContext, mapi.
  destruct (In_mapi_from block 0 valid s H) as [i Hi].
  apply (occurs_in_trans _ (block s i)).
  - apply block_holds_content.
  - now apply occurs_in_join.
Qed.

Lemma log_holds_message (history : list ChatMessage.t) (h : ChatMessage.t) :
  In h history ->
  occurs_in (GeminiService.history_line h) (chatHistoryText history).
Proof.
  intros H. unfold chatHistoryText. apply occurs_in_join.
  now apply in_map.
Qed.

Lemma long_content_is_valid (sources : list KnowledgeSource.t)
    (s : KnowledgeSource.t) :
  In s sources ->
  10 < strlen (trim (KnowledgeSource.content s)) ->
  In s (validSources sources).
Proof.
  intros Hin Hlen. unfold validSources. apply filter_In.
  split; [exact Hin|]. apply andb_true_intro. split.
  - destruct (KnowledgeSource.content s); [|reflexivity].
    exfalso. revert Hlen. vm_compute. discriminate.
  - now apply Z.ltb_lt.
Qed.

Lemma analyzeData_sent env query history sources u :
  newGoogleGenAI env = Ok u ->
  validSources sources <> [] ->
  snd (analyzeData env query history sources)
  = [analysis_request query history (validSources sources)].
Proof.
  intros H Hv. unfold analyzeData, try_catch, bind, lift, ret, call.
  rewrite H. destruct (validSources sources) as [|v vs] eqn:E; [congruence|].
  cbn [List.length Nat.eqb].
  destruct (generateContent env _) as [t|e]; [reflexivity|].
  destruct e; reflexivity.
Qed.

(** The earlier [analyzeData] cut nothing: with a client and at least
    one document of more than ten characters, the one request it sends
    holds the question, every message of the log however long the log
    is, and the whole content of every such document. *)
Theorem legacy_analysis_sends_everything (env : Env) (query : jsstring)
    (history : list ChatMessage.t) (sources : list KnowledgeSource.t)
    (u : unit) :
  newGoogleGenAI env = Ok u ->
  validSources sources <> [] ->
  exists p,
    snd (analyzeData env query history sources)
    = [ {| model_name := lit "gemini-3-pro-preview";
           contents := Prompt p;
           config := Sampling 0 32768 |} ]
    /\ occurs_in query p
    /\ (forall h, In h history ->
                  occurs_in (GeminiService.history_line h) p)
    /\ (forall s, In s sources ->
                  10 < strlen (trim (KnowledgeSource.content s)) ->
                  occurs_in (processedContent s) p).
Proof.
  intros Hc Hv.
  exists (prompt (prepareGlobalContext (validSources sources))
                 (chatHistoryText history) query).
  split; [now apply (analyzeData_sent env query history sources u)|].
  unfold prompt. split; [|split].
  - do 5 apply occurs_in_app_r. apply occurs_in_app_l, occurs_in_refl.
  - intros h Hh. do 3 apply occurs_in_app_r. apply occurs_in_app_l.
    now apply log_holds_message.
  - intros s Hs Hlen. apply occurs_in_app_r, occurs_in_app_l.
    apply context_holds_content. now apply long_content_is_valid.
Qed.

Lemma legacy_analysis_sends_everything_witness :
  exists p,
    snd (analyzeData Sample.env_up (lit "price?") []
           [Sample.doc "d1" "a.txt" "config" "hello, hello, hello"])
    = [ {| model_name := lit "gemini-3-pro-preview";
           contents := Prompt p;
           config := Sampling 0 32768 |} ]
    /\ occurs_in (lit "price?") p.
Proof.
  assert (Hc : newGoogleGenAI Sample.env_up = Ok tt) by reflexivity.
  assert (Hv : validSources
                 [Sample.doc "d1" "a.txt" "config" "hello, hello, hello"]
               <> []) by (vm_compute; discriminate).
  destruct (legacy_analysis_sends_everything Sample.env_up (lit "price?") []
              [Sample.doc "d1" "a.txt" "config" "hello, hello, hello"]
              tt Hc Hv) as (p & Hp & Hq & _).
  exists p. split; [exact Hp | exact Hq].
Defined.

Lemma to_comma_length (x : N) (s : jsstring) :
  List.length (to_comma x s) = List.length s.
Proof. unfold to_comma. apply length_map. Qed.

Lemma to_comma_nth (x : N) (s : jsstring) (i : nat) :
  nth_error (to_comma x s) i
  = option_map (fun c => if (c =? x)%N then 44%N else c) (nth_error s i).
Proof. unfold to_comma. apply nth_error_map. Qed.

(** In a table the earlier service turned every tab and every semicolon
    into a comma and touched nothing else: the content keeps its length,
    no tab or semicolon is left in it, and every other code unit is
    where it was. *)
Theorem legacy_tables_use_commas (s : KnowledgeSource.t) :
  isCsv s = true ->
  List.length (processedContent s)
  = List.length (KnowledgeSource.content s)
  /\ ~ In 9%N (processedContent s)
  /\ ~ In 59%N (processedContent s)
  /\ forall i c,
       nth_error (KnowledgeSource.content s) i = Some c ->
       nth_error (processedContent s) i
       = Some (if ((c =? 9) || (c =? 59))%N then 44%N else c).
Proof.
  intros Hcsv. unfold processedContent. rewrite Hcsv.
  assert (Hnth : forall i c,
             nth_error (KnowledgeSource.content s) i = Some c ->
             nth_error (to_comma 59 (to_comma 9 (KnowledgeSource.content s))) i
             = Some (if ((c =? 9) || (c =? 59))%N then 44%N else c)).
  { intros i c Hc. rewrite !to_comma_nth, Hc. cbn [option_map].
    f_equal. destruct (c =? 9)%N eqn:E9; cbn [orb]; [reflexivity|].
    reflexivity. }
  split; [now rewrite !to_comma_length|].
  assert (Hfree : forall x, (x = 9 \/ x = 59)%N ->
             ~ In x (to_comma 59 (to_comma 9 (KnowledgeSource.content s)))).
  { intros x Hx Hin. apply In_nth_error in Hin as [i Hi].
    destruct (nth_error (KnowledgeSource.content s) i) as [c|] eqn:Hc.
    - rewrite (Hnth i c Hc) in Hi. injection Hi as Hi.
      destruct (c =? 9)%N eqn:E9; cbn [orb] in Hi.
      + destruct Hx; subst x; discriminate.
      + destruct (c =? 59)%N eqn:E59.
        * destruct Hx; subst x; discriminate.
        * apply N.eqb_neq in E9, E59. destruct Hx; subst x; congruence.
    - rewrite !to_comma_nth, Hc in Hi. discriminate. }
  split; [apply Hfree; now left|]. split; [apply Hfree; now right|].
  exact Hnth.
Qed.

Lemma legacy_tables_use_commas_witness :
  ~ In 59%N (processedContent (Sample.doc "d1" "a.csv" "sales" "a;b")).
Proof.
  assert (Hcsv : isCsv (Sample.doc "d1" "a.csv" "sales" "a;b") = true)
    by (vm_compute; reflexivity).
  destruct (legacy_tables_use_commas _ Hcsv) as (_ & _ & H & _).
  exact H.
Defined.

(** In the earlier handler no drop put a document under "all": a card
    or files dropped on the row "all" went to "uncategorized", so a
    store without documents under "all" stayed so after a drop on any
    row, whatever render the handler belonged to. *)
Theorem legacy_drop_keeps_all_empty (amb : Ambient) (rendered : AppState)
    (id : jsstring) (e : Legacy.DropEvent) (st : AppState) :
  never_all (sources st) ->
  never_all (sources (Legacy.handlePartitionDrop amb rendered id e st)).
Proof.
  intros Hst. unfold Legacy.handlePartitionDrop.
  assert (Htarget : (if Js.eqb id App.ALL then App.UNCATEGORIZED else id)
                    <> App.ALL).
  { destruct (Js.eqb id App.ALL) eqn:E; [discriminate|].
    intros ->. now rewrite eqb_refl in E. }
  destruct (truthy (Legacy.internal_source_id e)).
  - unfold never_all in *. cbn [sources setSources].
    apply Forall_map. revert Hst. apply Forall_impl. intros s Hs.
    destruct (Js.eqb (KnowledgeSource.id s) (Legacy.internal_source_id e));
      [exact Htarget | exact Hs].
  - destruct (0 <? List.length (Legacy.files e))%nat; [|exact Hst].
    unfold Legacy.processFiles, never_all in *.
    cbn [sources setSources setViewMode setCurrentPartitionId].
    apply Forall_app. split; [exact Hst|].
    unfold Legacy.newSources, mapi.
    apply StoreFacts.Forall_mapi_from. intros file index. exact Htarget.
Qed.

Lemma legacy_drop_keeps_all_empty_witness :
  never_all
    (sources
       (Legacy.handlePartitionDrop Sample.amb
          (Sample.state [Sample.doc "d1" "a.txt" "config" "hello"] "")
          App.ALL
          {| Legacy.internal_source_id := lit "d1"; Legacy.files := [] |}
          (Sample.state [Sample.doc "d1" "a.txt" "config" "hello"] ""))).
Proof.
  assert (Hst : never_all
                  (sources
                     (Sample.state [Sample.doc "d1" "a.txt" "config" "hello"]
                        "")))
    by (repeat constructor; vm_compute; discriminate).
  exact (legacy_drop_keeps_all_empty Sample.amb
           (Sample.state [Sample.doc "d1" "a.txt" "config" "hello"] "")
           App.ALL
           {| Legacy.internal_source_id := lit "d1"; Legacy.files := [] |}
           (Sample.state [Sample.doc "d1" "a.txt" "config" "hello"] "")
           Hst).
Defined.

End LegacyFacts.

(* ================================================================== *)
(** ** The sequence numbers of the documents                           *)
(* ================================================================== *)

Module NumberingFacts.

Lemma seq_from (m : nat) :
  forall n, seq n m = map (Nat.add n) (seq 0 m).
Proof.
  induction m as [|m IH]; intros n; [reflexivity|].
  cbn [seq map]. rewrite Nat.add_0_r. f_equal.
  rewrite (IH (S n)), (IH 1%nat), map_map. apply map_ext. intros k. lia.
Qed.

Lemma numbered_app (store added : list KnowledgeSource.t) :
  numbered store ->
  map KnowledgeSource.sequenceNumber added
  = map (fun k => Z.of_nat (List.length store) + Z.of_nat k + 1)
        (seq 0 (List.length added)) ->
  numbered (store ++ added).
Proof.
  unfold numbered. intros Hs Ha.
  rewrite map_app, length_app, seq_app, map_app, Hs, Ha. f_equal.
  cbn [Nat.add]. rewrite (seq_from _ (List.length store)), map_map.
  apply map_ext. intros k. lia.
Qed.

Lemma numbered_patched pid patch (store : list KnowledgeSource.t) :
  (forall s, KnowledgeSource.sequenceNumber (patch s)
             = KnowledgeSource.sequenceNumber s) ->
  numbered store -> numbered (patched pid patch store).
Proof.
  intros Hp Hs. unfold numbered in *.
  rewrite (IngestMore.patched_field KnowledgeSource.sequenceNumber)
    by exact Hp.
  unfold patched. now rewrite length_map.
Qed.

Lemma numbered_NoDup (store : list KnowledgeSource.t) :
  numbered store -> NoDup (map KnowledgeSource.sequenceNumber store).
Proof.
  unfold numbered. intros ->.
  generalize (seq_NoDup (List.length store) 0).
  generalize (seq 0 (List.length store)). intros l.
  induction 1 as [|k r Hk _ IH]; cbn [map]; constructor; [|exact IH].
  intros Hin. apply in_map_iff in Hin as (j & Hj & Hin).
  assert (j = k) by lia. subst j. contradiction.
Qed.

(** The numbers of a batch depend on the render alone. *)
Lemma placeholders_numbers amb rendered fs partitionId :
  map KnowledgeSource.sequenceNumber
      (App.filePlaceholders amb rendered fs partitionId)
  = map (fun k => Z.of_nat (List.length (sources rendered))
                  + Z.of_nat k + 1)
        (seq 0 (List.length fs)).
Proof.
  unfold App.filePlaceholders, mapi.
  apply (IngestMore.mapi_from_index _ KnowledgeSource.sequenceNumber
           (Z.of_nat (List.length (sources rendered)))).
  reflexivity.
Qed.

Lemma placeholders_length amb rendered fs partitionId :
  List.length (App.filePlaceholders amb rendered fs partitionId)
  = List.length fs.
Proof. unfold App.filePlaceholders, mapi. apply IngestMore.mapi_from_length. Qed.

Lemma placeholders_first_number amb rendered fs partitionId :
  fs <> [] ->
  exists others,
    map KnowledgeSource.sequenceNumber
        (App.filePlaceholders amb rendered fs partitionId)
    = (Z.of_nat (List.length (sources rendered)) + 1) :: others.
Proof.
  intros Hfs. rewrite placeholders_numbers.
  destruct fs as [|f r]; [congruence|]. cbn [List.length seq map].
  eexists. f_equal. lia.
Qed.

Lemma processFiles_numbered amb rendered fs partitionId st :
  List.length (sources rendered) = List.length (sources st) ->
  numbered (sources st) ->
  numbered (sources (App.processFiles amb rendered fs partitionId st)).
Proof.
  intros Hlen Hs. unfold App.processFiles. cbn [sources setSources].
  apply numbered_app; [exact Hs|].
  now rewrite placeholders_numbers, placeholders_length, Hlen.
Qed.

Lemma handle_numbered amb rendered ev st :
  no_deletion ev ->
  List.length (sources rendered) = List.length (sources st) ->
  numbered (sources st) -> numbered (sources (handle amb rendered ev st)).
Proof.
  intros Hev Hlen Hs.
  destruct ev as [p e | fs | fs pid | u p | env ph f rr | id];
    cbn [handle no_deletion] in *.
  - unfold App.partition_onDrop.
    destruct (truthy (sourceId e) && negb (Js.eqb (Partition.id p) App.ALL)).
    + cbn [sources setSources setCurrentPartitionId].
      apply (numbered_patched (sourceId e)
               (fun s => KnowledgeSource.with_partitionId s (Partition.id p)));
        [reflexivity | exact Hs].
    + destruct (0 <? List.length (files e))%nat; [|exact Hs].
      destruct (viewMode rendered); cbn [sources setCurrentPartitionId];
        now apply processFiles_numbered.
  - unfold App.window_onDrop.
    destruct (0 <? List.length fs)%nat; [|exact Hs].
    now apply processFiles_numbered.
  - now apply processFiles_numbered.
  - unfold App.onLinkAdd. cbn [sources setSources].
    apply numbered_app; [exact Hs|].
    cbn [map List.length seq KnowledgeSource.sequenceNumber].
    f_equal. lia.
  - rewrite IngestFacts.reader_onload_sources.
    destruct (fst (GeminiService.extractTextFromDocument env _ _ _))
      as [[text summary]|err];
      apply numbered_patched; auto.
  - destruct Hev.
Qed.

(** As long as no document is deleted and every event reaches a handler
    whose render shows as many documents as the store then holds, the
    documents of the store are numbered 1, 2, 3, ... in the order of
    their arrival, through any sequence of drops, uploads, added links
    and finished readings; so no two documents have the same sequence
    number. *)
Theorem sequence_numbers_count_the_store (amb : Ambient)
    (evs : list (AppState * StoreEvent)) (st : AppState) :
  Forall (fun re => no_deletion (snd re)) evs ->
  renders_current amb evs st ->
  numbered (sources st) ->
  numbered (sources (run amb evs st))
  /\ NoDup (map KnowledgeSource.sequenceNumber (sources (run amb evs st))).
Proof.
  intros Hevs Hcur Hs.
  assert (H : numbered (sources (run amb evs st))).
  { revert st Hcur Hs.
    induction Hevs as [|[rendered ev] rest Hev _ IH]; intros st Hcur Hs;
      [exact Hs|].
    cbn [run renders_current snd] in *. destruct Hcur as [Hlen Hcur].
    apply IH; [exact Hcur|]. now apply handle_numbered. }
  split; [exact H | now apply numbered_NoDup].
Qed.

Lemma sequence_numbers_count_the_store_witness :
  let st0 := Sample.state [] "" in
  let st1 := handle Sample.amb st0 (Upload [Sample.text_file] (lit "config"))
               st0 in
  NoDup (map KnowledgeSource.sequenceNumber
           (sources (run Sample.amb
                       [ (st0, Upload [Sample.text_file] (lit "config"));
                         (st1, LinkAdd (lit "https://example.org")
                                       (lit "sales")) ]
                       st0))).
Proof.
  intros st0 st1.
  assert (Hevs : Forall (fun re => no_deletion (snd re))
                   [ (st0, Upload [Sample.text_file] (lit "config"));
                     (st1, LinkAdd (lit "https://example.org")
                                   (lit "sales")) ])
    by (repeat constructor).
  assert (Hcur : renders_current Sample.amb
                   [ (st0, Upload [Sample.text_file] (lit "config"));
                     (st1, LinkAdd (lit "https://example.org")
                                   (lit "sales")) ] st0)
    by (repeat split).
  assert (Hs : numbered (sources st0)) by reflexivity.
  destruct (sequence_numbers_count_the_store Sample.amb _ _ Hevs Hcur Hs)
    as [_ H].
  exact H.
Defined.

Lemma repeated_head_no_NoDup {A : Type} (x : A) (front r1 r2 : list A) :
  ~ NoDup (front ++ (x :: r1) ++ x :: r2).
Proof.
  intros H. apply NoDup_app_remove_l in H. cbn [app] in H.
  apply NoDup_cons_iff in H as [H _]. apply H.
  apply in_or_app. right. now left.
Qed.

Lemma two_batches_repeat amb rendered fs1 p1 fs2 p2 st :
  fs1 <> [] -> fs2 <> [] ->
  ~ NoDup (map KnowledgeSource.sequenceNumber
             (sources (App.processFiles amb rendered fs2 p2
                         (App.processFiles amb rendered fs1 p1 st)))).
Proof.
  intros H1 H2. unfold App.processFiles. cbn [sources setSources].
  rewrite <- app_assoc, !map_app.
  destruct (placeholders_first_number amb rendered fs1 p1 H1) as [r1 ->].
  destruct (placeholders_first_number amb rendered fs2 p2 H2) as [r2 ->].
  apply repeated_head_no_NoDup.
Qed.

(** Two batches of files handled by one render repeat each other's
    numbers.  Both are appended to the store, but both are numbered
    from the size of the rendered list: the files of same rank in the
    two batches get the same sequence number, so the numbers of the
    store are no longer distinct.  One drop of files on the zone of the
    later dialog does this by itself: it reaches the dialog and then the
    root element, and every file enters the store twice, once under
    the partition selected in the dialog and once under the one on
    display, with one number for both. *)
Theorem batches_of_one_render_share_numbers (amb : Ambient)
    (rendered : AppState) (fs1 fs2 : list File.t) (p1 p2 : jsstring)
    (st : AppState) :
  fs1 <> [] ->
  fs2 <> [] ->
  let first := App.filePlaceholders amb rendered fs1 p1 in
  let second := App.filePlaceholders amb rendered fs2 p2 in
  let st' := App.processFiles amb rendered fs2 p2
               (App.processFiles amb rendered fs1 p1 st) in
  sources st' = sources st ++ first ++ second
  /\ (forall k,
        (k < List.length fs1)%nat -> (k < List.length fs2)%nat ->
        nth_error (map KnowledgeSource.sequenceNumber first) k
        = Some (Z.of_nat (List.length (sources rendered)) + Z.of_nat k + 1)
        /\ nth_error (map KnowledgeSource.sequenceNumber second) k
           = Some (Z.of_nat (List.length (sources rendered))
                   + Z.of_nat k + 1))
  /\ ~ NoDup (map KnowledgeSource.sequenceNumber (sources st'))
  /\ (forall selected,
        let dropped := run amb (dialog_zone_drop rendered selected fs1) st in
        sources dropped
        = sources st
            ++ App.filePlaceholders amb rendered fs1 selected
            ++ App.filePlaceholders amb rendered fs1
                 (currentPartitionId rendered)
        /\ ~ NoDup (map KnowledgeSource.sequenceNumber (sources dropped))).
Proof.
  intros H1 H2 first second st'.
  assert (Hnth : forall fs p k,
             (k < List.length fs)%nat ->
             nth_error (map KnowledgeSource.sequenceNumber
                          (App.filePlaceholders amb rendered fs p)) k
             = Some (Z.of_nat (List.length (sources rendered))
                     + Z.of_nat k + 1)).
  { intros fs p k Hk. rewrite placeholders_numbers.
    rewrite nth_error_map.
    rewrite (nth_error_nth' _ 0%nat) by (rewrite length_seq; exact Hk).
    rewrite seq_nth by exact Hk. reflexivity. }
  split; [|split; [|split]].
  - subst st'. unfold App.processFiles. cbn [sources setSources].
    now rewrite <- app_assoc.
  - intros k Hk1 Hk2. split; now apply Hnth.
  - now apply two_batches_repeat.
  - intros selected dropped.
    assert (Hrun : dropped
                   = App.processFiles amb rendered fs1
                       (currentPartitionId rendered)
                       (App.processFiles amb rendered fs1 selected st)).
    { subst dropped. unfold dialog_zone_drop.
      destruct fs1 as [|f r]; [congruence|].
      cbn [List.length Nat.ltb Nat.leb run handle].
      unfold App.window_onDrop, App.onUpload.
      cbn [List.length Nat.ltb Nat.leb]. reflexivity. }
    rewrite Hrun. split.
    + unfold App.processFiles. cbn [sources setSources].
      now rewrite <- app_assoc.
    + now apply two_batches_repeat.
Qed.

Lemma batches_of_one_render_share_numbers_witness :
  let st0 := Sample.state [] "" in
  map KnowledgeSource.sequenceNumber
      (sources (run Sample.amb
                  (dialog_zone_drop st0 (lit "config") [Sample.text_file])
                  st0))
  = [1; 1].
Proof.
  intros st0.
  assert (H1 : [Sample.text_file] <> []) by discriminate.
  destruct (batches_of_one_render_share_numbers Sample.amb st0
              [Sample.text_file] [Sample.text_file] (lit "config")
              (lit "config") st0 H1 H1) as (_ & _ & _ & Hdrop).
  destruct (Hdrop (lit "config")) as [Hsources _].
  rewrite Hsources. vm_compute. reflexivity.
Defined.

(** A deletion breaks the numbering as well: the file that comes next
    gets the size of the rendered list plus one, a number that may be
    in use. *)
Example deletion_lets_numbers_repeat :
  let st0 := Sample.state [] "" in
  let st1 := handle Sample.amb st0
               (Upload [Sample.text_file; Sample.text_file] (lit "config"))
               st0 in
  let st2 := handle Sample.amb st1 (Delete (lit "id0")) st1 in
  map KnowledgeSource.sequenceNumber
      (sources (run Sample.amb
                  [ (st0, Upload [Sample.text_file; Sample.text_file]
                                 (lit "config"));
                    (st1, Delete (lit "id0"));
                    (st2, Upload [Sample.text_file] (lit "config")) ]
                  st0))
  = [2; 2].
Proof. vm_compute. reflexivity. Qed.

End NumberingFacts.
